(** * Oxford Lieder 2021 concert list: the extraction pipeline, verified

    A shallow embedding of [oxford_lieder_2021-extract_concert_ticket_details.py]
    and the properties of its event extractor, ticket extractor, merger and
    exporter.

    Conventions of the embedding.
    - A Python [str] is a [string].  A character above ASCII is carried by its
      UTF-8 bytes; the character classes of [strip], [lower], [\s] and [\d]
      are the ASCII ones.
    - A Python exception is a constructor of [exn]; a function that can raise
      returns a [result].
    - A BeautifulSoup [element.Tag] is a [Tag]: a DOM subtree together with
      the two neighbours the script navigates to.
    - A pandas frame is the list of its rows. *)

From Stdlib Require Import String Ascii List ZArith Bool Lia Arith DecimalString.
From Stdlib Require Import Permutation.
Import ListNotations.
Open Scope string_scope.
Open Scope nat_scope.
Open Scope list_scope.

Infix "+++" := String.append (right associativity, at level 60).

Set Warnings "-register-all".

(** ** Exceptions *)

Inductive exn : Type :=
| ValueError
| IndexError
| KeyError (key : string)
| OverflowError
| AttributeError
| TypeError
| OSError (msg : string).

Inductive result (A : Type) : Type :=
| Ok (a : A)
| Raise (e : exn).
Arguments Ok {A} a.
Arguments Raise {A} e.

Definition bind {A B : Type} (r : result A) (k : A -> result B) : result B :=
  match r with
  | Ok a => k a
  | Raise e => Raise e
  end.

Notation "x <- r ;; k" := (bind r (fun x => k))
  (at level 61, r at next level, right associativity).
Notation "' p <- r ;; k" := (bind r (fun x => match x with p => k end))
  (at level 61, p pattern, r at next level, right associativity).

(** [LookupError] is the base class of [KeyError] and [IndexError]. *)
Definition is_lookup_error (e : exn) : bool :=
  match e with
  | KeyError _ | IndexError => true
  | _ => false
  end.

(** ** Python [str] methods *)

Module Str.

(** [str.isspace] on one ASCII character: 9..13 and 28..32. *)
Definition isspace (c : ascii) : bool :=
  let n := nat_of_ascii c in
  ((9 <=? n) && (n <=? 13)) || ((28 <=? n) && (n <=? 32)).

Definition isdigit (c : ascii) : bool :=
  let n := nat_of_ascii c in (48 <=? n) && (n <=? 57).

Definition digit_value (c : ascii) : Z := Z.of_nat (nat_of_ascii c) - 48.

Fixpoint lstrip (s : string) : string :=
  match s with
  | String c s' => if isspace c then lstrip s' else s
  | EmptyString => EmptyString
  end.

Fixpoint rstrip (s : string) : string :=
  match s with
  | EmptyString => EmptyString
  | String c s' =>
      match rstrip s' with
      | EmptyString => if isspace c then EmptyString else String c EmptyString
      | r => String c r
      end
  end.

(** [s.strip()] *)
Definition strip (s : string) : string := rstrip (lstrip s).

Definition lower_char (c : ascii) : ascii :=
  let n := nat_of_ascii c in
  if (65 <=? n) && (n <=? 90) then ascii_of_nat (n + 32) else c.

(** [s.lower()] *)
Fixpoint lower (s : string) : string :=
  match s with
  | EmptyString => EmptyString
  | String c s' => String (lower_char c) (lower s')
  end.

(** [s.startswith(p)] *)
Definition startswith (p s : string) : bool := String.prefix p s.

(** [p in s] *)
Fixpoint contains (p s : string) : bool :=
  startswith p s ||
  match s with
  | EmptyString => false
  | String _ s' => contains p s'
  end.

(** [s.replace(old, new)] for a non-empty [old]: occurrences are replaced
    left to right, without overlap.  [skip] counts the characters of a
    matched occurrence still to be dropped. *)
Fixpoint replace_from (skip : nat) (old new s : string) : string :=
  match s with
  | EmptyString => EmptyString
  | String c s' =>
      match skip with
      | S k => replace_from k old new s'
      | O =>
          if startswith old s
          then new +++ replace_from (String.length old - 1) old new s'
          else String c (replace_from 0 old new s')
      end
  end.

Definition replace (old new s : string) : string := replace_from 0 old new s.

(** [s.split(sep)] and [s.rsplit(sep)] for a one-character separator (without
    [maxsplit] the two agree). *)
Fixpoint split (sep : ascii) (s : string) : list string :=
  match s with
  | EmptyString => [EmptyString]
  | String c s' =>
      if Ascii.eqb c sep then EmptyString :: split sep s'
      else match split sep s' with
           | h :: t => String c h :: t
           | [] => [String c EmptyString]
           end
  end.

Definition rsplit (sep : ascii) (s : string) : list string := split sep s.

(** [sep.join(l)] *)
Fixpoint join (sep : string) (l : list string) : string :=
  match l with
  | [] => EmptyString
  | [x] => x
  | x :: l' => x +++ sep +++ join sep l'
  end.

(** [str(n)] for a natural number. *)
Definition of_nat (n : nat) : string := NilEmpty.string_of_uint (Nat.to_uint n).

(** A number written with at least two digits, as [%02d]. *)
Definition of_nat_02 (n : nat) : string :=
  if n <? 10 then String "0"%char (of_nat n) else of_nat n.

Definition newline : ascii := "010"%char.
Definition nl : string := String newline EmptyString.

(** The pound sign U+00A3, in UTF-8. *)
Definition pound : string := String "194"%char (String "163"%char EmptyString).

End Str.

(** Python list operations the script uses. *)

(** [l[i]] *)
Definition getitem {A : Type} (l : list A) (i : nat) : result A :=
  match nth_error l i with
  | Some x => Ok x
  | None => Raise IndexError
  end.

(** [l[a:b]] *)
Definition slice {A : Type} (a b : nat) (l : list A) : list A :=
  firstn (b - a) (skipn a l).

(** [l[-1]] *)
Definition getitem_last {A : Type} (l : list A) : result A :=
  match rev l with
  | x :: _ => Ok x
  | [] => Raise IndexError
  end.


(** ** The document tree

    What the script reads from a parsed page: element names, attributes,
    children and text.  Comments and processing instructions are not
    represented. *)

Inductive node : Type :=
| NavigableString (text : string)
| Element (name : string) (attrs : list (string * string)) (children : list node).

(** A node as BeautifulSoup hands it out: the subtree, its next sibling, and
    the node that follows the whole subtree in document order (what
    [next_element] yields at a node without children). *)
Record Tag : Type := {
  self : node;
  next_sibling : option node;
  following : option node
}.

(** A detached subtree. *)
Definition root (n : node) : Tag :=
  {| self := n; next_sibling := None; following := None |}.

(** All proper descendants in document order, each with its neighbours. *)
Fixpoint walk (n : node) (after : option node) : list Tag :=
  match n with
  | NavigableString _ => []
  | Element _ _ cs =>
      (fix go (l : list node) : list Tag :=
         match l with
         | [] => []
         | c :: l' =>
             let nxt := match l' with s :: _ => Some s | [] => after end in
             {| self := c; next_sibling := hd_error l'; following := nxt |}
               :: walk c nxt ++ go l'
         end) cs
  end.

Definition descendants (t : Tag) : list Tag := walk (self t) (following t).

(** [t.next_element] *)
Definition next_element (t : Tag) : option node :=
  match descendants t with
  | d :: _ => Some (self d)
  | [] => following t
  end.

(** [t.text]: the text nodes below [t], concatenated. *)
Fixpoint node_text (n : node) : string :=
  match n with
  | NavigableString s => s
  | Element _ _ cs =>
      (fix go (l : list node) : string :=
         match l with
         | [] => EmptyString
         | c :: l' => node_text c +++ go l'
         end) cs
  end.

Definition text (t : Tag) : string := node_text (self t).

Fixpoint assoc {V : Type} (k : string) (l : list (string * V)) : option V :=
  match l with
  | [] => None
  | (k', v) :: l' => if String.eqb k k' then Some v else assoc k l'
  end.

Definition get_attr (k : string) (t : Tag) : option string :=
  match self t with
  | Element _ attrs _ => assoc k attrs
  | NavigableString _ => None
  end.

(** [t[k]] *)
Definition getitem_attr (k : string) (t : Tag) : result string :=
  match get_attr k t with
  | Some v => Ok v
  | None => Raise (KeyError k)
  end.

Definition has_name (nm : string) (t : Tag) : bool :=
  match self t with
  | Element nm' _ _ => String.eqb nm nm'
  | NavigableString _ => false
  end.

Definition is_element (t : Tag) : bool :=
  match self t with
  | Element _ _ _ => true
  | NavigableString _ => false
  end.

(** The whitespace-separated tokens of an attribute value. *)
Fixpoint tokens (s : string) : list string :=
  match s with
  | EmptyString => []
  | String c s' =>
      if Str.isspace c then tokens s'
      else match s' with
           | EmptyString => [String c EmptyString]
           | String c' _ =>
               if Str.isspace c' then String c EmptyString :: tokens s'
               else match tokens s' with
                    | h :: t => String c h :: t
                    | [] => [String c EmptyString]
                    end
           end
  end.

(** [attrs={"class": want}]: [class] is multi-valued; the filter accepts a
    tag when one of its class tokens is [want], or when the tokens joined by
    single spaces are [want]. *)
Definition has_class (want : string) (t : Tag) : bool :=
  match get_attr "class" t with
  | Some raw =>
      let ts := tokens raw in
      existsb (String.eqb want) ts || String.eqb want (Str.join " " ts)
  | None => false
  end.

(** [t.find_all(nm)] *)
Definition find_all (nm : string) (t : Tag) : list Tag :=
  filter (has_name nm) (descendants t).

(** [t.find_all(nm, attrs={"class": cls})] *)
Definition find_all_class (nm cls : string) (t : Tag) : list Tag :=
  filter (fun d => has_name nm d && has_class cls d) (descendants t).

(** [t.find(nm)], also written [t.nm] *)
Definition find (nm : string) (t : Tag) : option Tag := hd_error (find_all nm t).

(** [t.find(nm, attrs={"class": cls})] *)
Definition find_class (nm cls : string) (t : Tag) : option Tag :=
  hd_error (find_all_class nm cls t).

(** [t.find_all()], which is also what calling a tag does: every tag below. *)
Definition find_all_tags (t : Tag) : list Tag := filter is_element (descendants t).

(** [t.select_one('a[href^="p"]')]: the first [a] element below [t] whose
    [href] attribute starts with [p]. *)
Definition select_one_a_href_prefix (p : string) (t : Tag) : option Tag :=
  hd_error
    (filter (fun d => has_name "a" d &&
                      match get_attr "href" d with
                      | Some h => Str.startswith p h
                      | None => false
                      end)
            (descendants t)).


(** ** [float(s)] and [int(x)]

    A Python float is an IEEE 754 binary64 number.  A finite one is kept as
    sign, integer significand and binary exponent: [Finite neg m e] is
    (-1)^neg * m * 2^e. *)

Module PyFloat.

Inductive t : Type :=
| Finite (neg : bool) (m : Z) (e : Z)
| Infinity (neg : bool)
| NaN.

Local Open Scope Z_scope.

(** floor(log2(num/den)) for positive [num] and [den]. *)
Definition ilog2_ratio (num den : Z) : Z :=
  let l := Z.log2 num - Z.log2 den in
  let below := if 0 <=? l then num <? den * 2 ^ l else num * 2 ^ (- l) <? den in
  if below then l - 1 else l.

(** [n/d] rounded to the nearest integer, ties to even. *)
Definition round_half_even (n d : Z) : Z :=
  let q := n / d in
  match 2 * (n mod d) ?= d with
  | Lt => q
  | Gt => q + 1
  | Eq => if Z.even q then q else q + 1
  end.

(** The binary64 number nearest to [num/den] (ties to even): 53 significant
    bits, least exponent -1074, overflow to infinity from 2^1024 on. *)
Definition of_ratio (neg : bool) (num den : Z) : t :=
  if num =? 0 then Finite neg 0 0
  else
    let e := Z.max (ilog2_ratio num den - 52) (-1074) in
    let m := if 0 <=? e then round_half_even num (den * 2 ^ e)
             else round_half_even (num * 2 ^ (- e)) den in
    if 1024 <=? e + Z.log2 m then Infinity neg else Finite neg m e.

(** The binary64 number nearest to [d * 10^k]. *)
Definition of_decimal (neg : bool) (d k : Z) : t :=
  if 0 <=? k then of_ratio neg (d * 10 ^ k) 1 else of_ratio neg d (10 ^ (- k)).

(** [int(x)]: truncation toward zero. *)
Definition to_int (x : t) : result Z :=
  match x with
  | Finite neg m e =>
      let a := if 0 <=? e then m * 2 ^ e else m / 2 ^ (- e) in
      Ok (if neg then - a else a)
  | Infinity _ => Raise OverflowError
  | NaN => Raise ValueError
  end.

(** The whitespace [float] strips: 9..13 and 32. *)
Definition c_isspace (c : ascii) : bool :=
  let n := nat_of_ascii c in (((9 <=? n) && (n <=? 13)) || (n =? 32))%nat.

Fixpoint c_lstrip (s : string) : string :=
  match s with
  | String c s' => if c_isspace c then c_lstrip s' else s
  | EmptyString => EmptyString
  end.

Fixpoint c_rstrip (s : string) : string :=
  match s with
  | EmptyString => EmptyString
  | String c s' =>
      match c_rstrip s' with
      | EmptyString => if c_isspace c then EmptyString else String c EmptyString
      | r => String c r
      end
  end.

(** Underscores may group digits: each one stands between two digits, and is
    dropped.  [prev] tells whether the previous character was a digit. *)
Fixpoint drop_underscores (prev : bool) (s : string) : option string :=
  match s with
  | EmptyString => Some EmptyString
  | String c s' =>
      if Ascii.eqb c "_" then
        match s' with
        | String c' _ =>
            if prev && Str.isdigit c' then drop_underscores false s' else None
        | EmptyString => None
        end
      else option_map (String c) (drop_underscores (Str.isdigit c) s')
  end.

(** The leading run of digits of [s]: its value after [acc], its length
    after [n], and the rest. *)
Fixpoint read_digits (acc : Z) (n : Z) (s : string) : Z * Z * string :=
  match s with
  | String c s' =>
      if Str.isdigit c then read_digits (10 * acc + Str.digit_value c) (n + 1) s'
      else (acc, n, s)
  | EmptyString => (acc, n, s)
  end.

Definition read_sign (s : string) : bool * string :=
  match s with
  | String "-" s' => (true, s')
  | String "+" s' => (false, s')
  | _ => (false, s)
  end.

(** The exponent part: nothing, or [e] or [E], a sign and digits. *)
Definition read_exponent (s : string) : option Z :=
  match s with
  | EmptyString => Some 0
  | String c s' =>
      if Ascii.eqb (Str.lower_char c) "e" then
        let '(neg, s'') := read_sign s' in
        match read_digits 0 0 s'' with
        | (x, n, EmptyString) =>
            if 0 <? n then Some (if neg then - x else x) else None
        | _ => None
        end
      else None
  end.

(** [float(s)] for a [str]. *)
Definition of_string (s : string) : result t :=
  match drop_underscores false (c_rstrip (c_lstrip s)) with
  | None => Raise ValueError
  | Some s1 =>
      let '(neg, s2) := read_sign s1 in
      let w := Str.lower s2 in
      if String.eqb w "inf" || String.eqb w "infinity" then Ok (Infinity neg)
      else if String.eqb w "nan" then Ok NaN
      else
        let '(i, ni, r1) := read_digits 0 0 s2 in
        let '(d, nf, r2) :=
          match r1 with
          | String "." r => read_digits i 0 r
          | _ => (i, 0, r1)
          end in
        if ni + nf =? 0 then Raise ValueError
        else match read_exponent r2 with
             | Some x => Ok (of_decimal neg d (x - nf))
             | None => Raise ValueError
             end
  end.

End PyFloat.


(** ** [datetime.strptime(s, "%d %b %Y %H:%M")] and [strftime]

    [strptime] compiles the format to the regular expression

      (3[0-1]|[1-2]\d|0[1-9]|[1-9]| [1-9])\s+(jan|feb|...|dec)\s+(\d\d\d\d)\s+(2[0-3]|[0-1]\d|\d):([0-5]\d|\d)

    (month names of the C locale) matched at the start of [s] without regard
    to case.  A regular
    expression is modelled by the list of its matches in the order the
    backtracking matcher finds them, each match a pair of the text it took
    and the text it left. *)

Module Strptime.

Definition matcher : Type := string -> list (string * string).

Definition one (p : ascii -> bool) : matcher :=
  fun s =>
    match s with
    | String a r => if p a then [(String a EmptyString, r)] else []
    | EmptyString => []
    end.

Definition two (p q : ascii -> bool) : matcher :=
  fun s =>
    match s with
    | String a (String b r) =>
        if p a && q b then [(String a (String b EmptyString), r)] else []
    | _ => []
    end.

Definition between (lo hi : ascii) (c : ascii) : bool :=
  (nat_of_ascii lo <=? nat_of_ascii c) && (nat_of_ascii c <=? nat_of_ascii hi).

Definition is_char (x : ascii) (c : ascii) : bool := Ascii.eqb x c.

(** [%d]: 3[0-1]|[1-2]\d|0[1-9]|[1-9]| [1-9] *)
Definition re_d : matcher :=
  fun s =>
    two (is_char "3") (between "0" "1") s
    ++ two (between "1" "2") Str.isdigit s
    ++ two (is_char "0") (between "1" "9") s
    ++ one (between "1" "9") s
    ++ two (is_char " ") (between "1" "9") s.

(** [%H]: 2[0-3]|[0-1]\d|\d *)
Definition re_H : matcher :=
  fun s =>
    two (is_char "2") (between "0" "3") s
    ++ two (between "0" "1") Str.isdigit s
    ++ one Str.isdigit s.

(** [%M]: [0-5]\d|\d *)
Definition re_M : matcher :=
  fun s => two (between "0" "5") Str.isdigit s ++ one Str.isdigit s.

(** [%Y]: \d\d\d\d *)
Definition re_Y : matcher :=
  fun s =>
    match s with
    | String a (String b (String c (String d r))) =>
        if Str.isdigit a && Str.isdigit b && Str.isdigit c && Str.isdigit d
        then [(String a (String b (String c (String d EmptyString))), r)]
        else []
    | _ => []
    end.

Definition month_names : list string :=
  ["jan"; "feb"; "mar"; "apr"; "may"; "jun";
   "jul"; "aug"; "sep"; "oct"; "nov"; "dec"].

(** [%b]: jan|feb|...|dec, case ignored *)
Definition re_b : matcher :=
  fun s =>
    match s with
    | String a (String b (String c r)) =>
        let w := String a (String b (String c EmptyString)) in
        if existsb (String.eqb (Str.lower w)) month_names then [(w, r)] else []
    | _ => []
    end.

(** [\s*], greedy: the longest run first. *)
Fixpoint re_spaces0 (s : string) : list (string * string) :=
  match s with
  | String c s' =>
      if Str.isspace c
      then map (fun m => (String c (fst m), snd m)) (re_spaces0 s')
           ++ [(EmptyString, s)]
      else [(EmptyString, s)]
  | EmptyString => [(EmptyString, s)]
  end.

(** [\s+] *)
Definition re_spaces : matcher :=
  fun s =>
    match s with
    | String c s' =>
        if Str.isspace c
        then map (fun m => (String c (fst m), snd m)) (re_spaces0 s')
        else []
    | EmptyString => []
    end.

Definition re_colon : matcher := one (is_char ":").

(** The groups of a match. *)
Record groups : Type := {
  g_d : string; g_b : string; g_Y : string; g_H : string; g_M : string
}.

(** One regular expression after another. *)
Definition then_ {A : Type} (p : matcher) (k : string -> string -> list A)
  (s : string) : list A :=
  flat_map (fun m => k (fst m) (snd m)) (p s).

Definition re_format (s : string) : list (groups * string) :=
  then_ re_d (fun d => then_ re_spaces (fun _ =>
  then_ re_b (fun b => then_ re_spaces (fun _ =>
  then_ re_Y (fun y => then_ re_spaces (fun _ =>
  then_ re_H (fun h => then_ re_colon (fun _ =>
  then_ re_M (fun m rest =>
    [({| g_d := d; g_b := b; g_Y := y; g_H := h; g_M := m |}, rest)]))))))))) s.

(** [int(s)] for a matched group: digits, after an optional space. *)
Fixpoint int_text_from (acc : nat) (s : string) : nat :=
  match s with
  | EmptyString => acc
  | String c s' =>
      if Str.isdigit c then int_text_from (10 * acc + (nat_of_ascii c - 48)) s'
      else int_text_from acc s'
  end.

Definition int_text (s : string) : nat := int_text_from 0 s.

Fixpoint index_of (w : string) (l : list string) : nat :=
  match l with
  | [] => 0
  | x :: l' => if String.eqb w x then 0 else S (index_of w l')
  end.

Definition month_number (b : string) : nat := S (index_of (Str.lower b) month_names).

Definition is_leap (y : nat) : bool :=
  (y mod 4 =? 0) && (negb (y mod 100 =? 0) || (y mod 400 =? 0)).

Definition days_in_month (y m : nat) : nat :=
  match m with
  | 2 => if is_leap y then 29 else 28
  | 4 | 6 | 9 | 11 => 30
  | _ => 31
  end.

Record datetime : Type := {
  year : nat; month : nat; day : nat; hour : nat; minute : nat
}.

Definition of_groups (g : groups) : datetime :=
  {| year := int_text (g_Y g); month := month_number (g_b g);
     day := int_text (g_d g); hour := int_text (g_H g);
     minute := int_text (g_M g) |}.

(** The calendar check of the [datetime] constructor, on what the regular
    expression lets through: years start at 1, and the day exists. *)
Definition valid (t : datetime) : bool :=
  (1 <=? year t) && (day t <=? days_in_month (year t) (month t)).

(** [datetime.strptime(s, "%d %b %Y %H:%M")]: [ValueError] when the format
    does not match, when text remains after the match, and when the date
    does not exist. *)
Definition strptime (s : string) : result datetime :=
  match re_format s with
  | [] => Raise ValueError
  | (g, rest) :: _ =>
      match rest with
      | EmptyString =>
          if valid (of_groups g) then Ok (of_groups g) else Raise ValueError
      | _ => Raise ValueError
      end
  end.

(** [t.date().strftime("%Y-%m-%d")]; the C library prints [%Y] without
    padding. *)
Definition strftime_date (t : datetime) : string :=
  Str.of_nat (year t) +++ "-" +++ Str.of_nat_02 (month t) +++ "-" +++ Str.of_nat_02 (day t).

(** [t.time().strftime("%H:%M")] *)
Definition strftime_time (t : datetime) : string :=
  Str.of_nat_02 (hour t) +++ ":" +++ Str.of_nat_02 (minute t).

End Strptime.


(** ** Dictionaries

    A Python [dict] keeps its keys in insertion order: an association list
    without repeated keys, new keys added at the end. *)

Module Dict.

Definition t (V : Type) : Type := list (string * V).

Definition empty {V : Type} : t V := [].

(** [d.get(k)] *)
Definition get {V : Type} (k : string) (d : t V) : option V := assoc k d.

(** [k in d] *)
Definition contains {V : Type} (k : string) (d : t V) : bool :=
  match get k d with Some _ => true | None => false end.

(** [d[k]] *)
Definition getitem {V : Type} (k : string) (d : t V) : result V :=
  match get k d with
  | Some v => Ok v
  | None => Raise (KeyError k)
  end.

(** [d[k] = v] *)
Fixpoint setitem {V : Type} (k : string) (v : V) (d : t V) : t V :=
  match d with
  | [] => [(k, v)]
  | (k', v') :: d' =>
      if String.eqb k k' then (k, v) :: d' else (k', v') :: setitem k v d'
  end.

(** [list(d)] *)
Definition keys {V : Type} (d : t V) : list string := map fst d.

End Dict.

(** ** The ticket extractor

    [main] calls both extractors with their default field maps,
    [TICKET_METADATA_COLUMNS] and [EVENT_METADATA_COLUMNS], which name every
    field by itself; the embedding fixes them.  The four ticket fields make a
    record whose cells are plain values in one row's [ticket_data], lists in
    an entry of [ticket_details], and optional values in an exploded frame. *)

Record ticket_record (F : Type -> Type) : Type := {
  ticket_type : F string;
  venue_type : F string;
  is_streaming : F bool;
  ticket_price_gbp : F Z
}.
Arguments ticket_type {F} _.
Arguments venue_type {F} _.
Arguments is_streaming {F} _.
Arguments ticket_price_gbp {F} _.

Definition ticket_data : Type := ticket_record (fun A => A).
Definition ticket_lists : Type := ticket_record list.

(** [for ticket_attr in ticket_fields: ...] over one record. *)
Definition for_each_field {F G : Type -> Type} (f : forall A, F A -> G A)
  (r : ticket_record F) : ticket_record G :=
  {| ticket_type := f _ (ticket_type r);
     venue_type := f _ (venue_type r);
     is_streaming := f _ (is_streaming r);
     ticket_price_gbp := f _ (ticket_price_gbp r) |}.

(** [for ticket_attr in ticket_fields: ...] over two records. *)
Definition for_each_field2 {F G H : Type -> Type}
  (f : forall A, F A -> G A -> H A)
  (r : ticket_record F) (r' : ticket_record G) : ticket_record H :=
  {| ticket_type := f _ (ticket_type r) (ticket_type r');
     venue_type := f _ (venue_type r) (venue_type r');
     is_streaming := f _ (is_streaming r) (is_streaming r');
     ticket_price_gbp := f _ (ticket_price_gbp r) (ticket_price_gbp r') |}.

Definition return_if_venue_has_streaming (venue_type : string) : bool :=
  existsb (fun venue => Str.contains venue (Str.lower venue_type)) ["stream"].

(** [(a, b) = l] *)
Definition unpack2 {A : Type} (l : list A) : result (A * A) :=
  match l with
  | [a; b] => Ok (a, b)
  | _ => Raise ValueError
  end.

(** [int(float(s.strip().replace(pound, empty)))], [pound] the pound sign
    and [empty] the empty text *)
Definition parse_price (s : string) : result Z :=
  x <- PyFloat.of_string (Str.replace Str.pound EmptyString (Str.strip s)) ;;
  PyFloat.to_int x.

(** The body of the loop up to [if event_url_key:]: one row's [ticket_data]. *)
Definition row_ticket_data (row : Tag) : result ticket_data :=
  let table_columns := slice 2 4 (find_all "td" row) in
  c0 <- getitem table_columns 0 ;;
  ' (ttype, vtype) <- unpack2 (slice 0 2 (Str.split Str.newline (Str.strip (text c0)))) ;;
  let streaming := return_if_venue_has_streaming vtype in
  c1 <- getitem table_columns 1 ;;
  price <- parse_price (text c1) ;;
  Ok ({| ticket_type := ttype; venue_type := vtype;
         is_streaming := streaming; ticket_price_gbp := price |} : ticket_data).

(** [ticket_details[key][ticket_attr] = [ticket_data[ticket_attr]]] *)
Definition seed (ticket_data : ticket_data) : ticket_lists :=
  for_each_field (F := fun A => A) (fun A x => [x]) ticket_data.

(** [ticket_details[key][ticket_attr].append(ticket_data[ticket_attr])] *)
Definition append_row (g : ticket_lists) (ticket_data : ticket_data) : ticket_lists :=
  for_each_field2 (G := fun A => A) (fun A l x => l ++ [x]) g ticket_data.

(** The loop state: [ticket_details] and [last_event_url_key]. *)
Definition ticket_state : Type := Dict.t ticket_lists * string.

(** One turn of [for row in ticket_detail_list]. *)
Definition ticket_step (st : ticket_state) (row : Tag) : result ticket_state :=
  let '(ticket_details, last_event_url_key) := st in
  let event_url_key := select_one_a_href_prefix "/event" row in
  ticket_data <- row_ticket_data row ;;
  match event_url_key with
  | Some a =>
      event_url_key <- getitem_attr "href" a ;;
      let last_event_url_key := event_url_key in
      if negb (Dict.contains event_url_key ticket_details)
      then Ok (Dict.setitem event_url_key (seed ticket_data) ticket_details,
               last_event_url_key)
      else Ok (ticket_details, last_event_url_key)
  | None =>
      g <- Dict.getitem last_event_url_key ticket_details ;;
      Ok (Dict.setitem last_event_url_key (append_row g ticket_data) ticket_details,
          last_event_url_key)
  end.

Fixpoint ticket_loop (rows : list Tag) (st : ticket_state) : result ticket_state :=
  match rows with
  | [] => Ok st
  | row :: rows' => st' <- ticket_step st row ;; ticket_loop rows' st'
  end.

Definition extract_ticket_price_options (ticket_detail_list : list Tag)
  : result (Dict.t ticket_lists) :=
  st <- ticket_loop ticket_detail_list (Dict.empty, EmptyString) ;;
  Ok (fst st).

(** [extract_all_ticket_items(soup)] *)
Definition extract_all_ticket_items (soup : Tag) : result (list Tag) :=
  match hd_error (filter (fun d => has_name "div" d && has_class "ticketing-section" d
                                   && match get_attr "id" d with
                                      | Some i => String.eqb i "single"
                                      | None => false
                                      end)
                         (descendants soup)) with
  | None => Raise AttributeError
  | Some section =>
      match find "tbody" section with
      | None => Raise AttributeError
      | Some single_ticket_table => Ok (find_all "tr" single_ticket_table)
      end
  end.

(** ** The event extractor *)

(** The columns of an event record, in the order of [EVENT_METADATA_COLUMNS]. *)
Module Col.

Inductive t : Type :=
| date | time | title | artists | description | venue
| interested | categories | short_url | long_url.

Definition all : list t :=
  [date; time; title; artists; description; venue;
   interested; categories; short_url; long_url].

Definition eqb (a b : t) : bool :=
  match a, b with
  | date, date | time, time | title, title | artists, artists
  | description, description | venue, venue | interested, interested
  | categories, categories | short_url, short_url | long_url, long_url => true
  | _, _ => false
  end.

End Col.

(** What a cell of an event record holds: text, a number, or the list of tags
    that calling a tag returns. *)
Inductive value : Type :=
| VStr (s : string)
| VInt (z : Z)
| VResultSet (tags : list node).

(** An event record: a dictionary over the event columns; [None] is the
    placeholder of [dict.fromkeys]. *)
Definition event_record : Type := Col.t -> option value.

(** [dict.fromkeys(list(event_fields))] *)
Definition fromkeys : event_record := fun _ => None.

(** [event_record[k] = v] *)
Definition set_field (k : Col.t) (v : value) (r : event_record) : event_record :=
  fun k' => if Col.eqb k' k then Some v else r k'.

(** [extract_all_event_items(soup)] *)
Definition extract_all_event_items (soup : Tag) : list Tag :=
  find_all_class "div" "col-sm-9" soup.

(** [[f(x) for x in l]], stopping at the first exception. *)
Fixpoint comprehension {A B : Type} (f : A -> result B) (l : list A) : result (list B) :=
  match l with
  | [] => Ok []
  | x :: l' => y <- f x ;; ys <- comprehension f l' ;; Ok (y :: ys)
  end.

(** [s.split(sep, 1)] *)
Fixpoint split_once (sep : ascii) (s : string) : list string :=
  match s with
  | EmptyString => [EmptyString]
  | String c s' =>
      if Ascii.eqb c sep then [EmptyString; s']
      else match split_once sep s' with
           | h :: t => String c h :: t
           | [] => [String c EmptyString]
           end
  end.

Section EventExtractor.

(** Three library functions are left open: how a tag prints ([str(tag)]),
    [unicodedata.normalize("NFKC", s)], and [urllib.parse.unquote]. *)
Variable decode : node -> string.
Variable normalize_NFKC : string -> string.
Variable unquote : string -> string.

(** [str(x)] for a node or [None]. *)
Definition str_of (x : option node) : string :=
  match x with
  | None => "None"
  | Some (NavigableString s) => s
  | Some n => decode n
  end.

(** [str(l)] for a list of tags. *)
Definition str_of_result_set (l : list node) : string :=
  "[" +++ Str.join ", " (map decode l) +++ "]".

(** [get_event_artist_list(event_item)] *)
Definition get_event_artist_list (event_item : Tag) : result (list string) :=
  match find_class "ul" "artistlist" event_item with
  | None => Raise AttributeError
  | Some ul =>
      let ul_items := find_all "li" ul in
      Ok (map (fun artist => Str.strip (text artist)) ul_items)
  end.

(** [urllib.parse.parse_qsl(qs)] *)
Definition parse_qsl (qs : string) : list (string * string) :=
  let query_args := match qs with EmptyString => [] | _ => Str.split "&" qs end in
  flat_map
    (fun name_value =>
       match split_once "=" name_value with
       | [n; v] =>
           match v with
           | EmptyString => []
           | _ => [(unquote (Str.replace "+" " " n), unquote (Str.replace "+" " " v))]
           end
       | _ => []
       end)
    query_args.

(** [urllib.parse.parse_qs(qs)] *)
Definition parse_qs (qs : string) : Dict.t (list string) :=
  fold_left
    (fun parsed_result nv =>
       match Dict.get (fst nv) parsed_result with
       | Some l => Dict.setitem (fst nv) (l ++ [snd nv]) parsed_result
       | None => Dict.setitem (fst nv) [snd nv] parsed_result
       end)
    (parse_qsl qs) Dict.empty.

(** [get_event_categories(event_item)] *)
Definition get_event_categories (event_item : Tag) : result (list string) :=
  let category_hrefs := find_all_class "a" "btn btn-xs btn-primary" event_item in
  comprehension
    (fun category =>
       href <- getitem_attr "href" category ;;
       values <- Dict.getitem "?category" (parse_qs href) ;;
       getitem values 0)
    category_hrefs.

(** The text [get_event_date_and_time] hands to [strptime]: the stripped
    [str] of the element after the clock icon; nothing when the block has no
    such icon. *)
Definition icon_adjacent_text (event_item : Tag) : option string :=
  match find_class "i" "glyphicon glyphicon-time" event_item with
  | None => None
  | Some i => Some (Str.strip (str_of (next_element i)))
  end.

(** [get_event_date_and_time(event_item)] *)
Definition get_event_date_and_time (event_item : Tag) : result (string * string) :=
  match icon_adjacent_text event_item with
  | None => Raise AttributeError
  | Some s =>
      event_datetime <- Strptime.strptime s ;;
      let event_date := Strptime.strftime_date event_datetime in
      let event_time := Strptime.strftime_time event_datetime in
      Ok (event_date, event_time)
  end.

(** [get_event_description_blurb(event_item)].  On a tag, [.strip] is no
    attribute: BeautifulSoup reads it as [find("strip")], and calling what
    that returns fails on [None] and is [find_all()] on a tag. *)
Definition get_event_description_blurb (event_item : Tag) : result string :=
  p <- getitem_last (find_all "p" event_item) ;;
  match next_sibling p with
  | None => Raise AttributeError
  | Some (NavigableString s) => Ok (normalize_NFKC (Str.strip s))
  | Some n =>
      match find "strip" (root n) with
      | None => Raise TypeError
      | Some c =>
          Ok (normalize_NFKC (str_of_result_set (map self (find_all_tags c))))
      end
  end.

(** [get_event_title_and_urls(event_item)] *)
Definition get_event_title_and_urls (event_item : Tag)
  : result (string * string * string) :=
  match find "h4" event_item with
  | None => Raise AttributeError
  | Some event_href =>
      match find "a" event_href with
      | None => Raise TypeError
      | Some a =>
          event_short_url <- getitem_attr "href" a ;;
          let event_long_url := "https://www.oxfordlieder.co.uk" +++ event_short_url in
          let event_title := Str.strip (text event_href) in
          Ok (event_title, event_short_url, event_long_url)
      end
  end.

(** [get_event_venue(event_item)] *)
Definition get_event_venue (event_item : Tag) : result value :=
  match find_class "small" "text-muted" event_item with
  | None => Raise AttributeError
  | Some small =>
      match next_sibling small with
      | None => Raise AttributeError
      | Some (NavigableString s) =>
          last <- getitem_last (Str.rsplit "|" s) ;;
          Ok (VStr (Str.strip last))
      | Some n =>
          match find "rsplit" (root n) with
          | None => Raise TypeError
          | Some c =>
              last <- getitem_last (find_all "|" c) ;;
              match find "strip" last with
              | None => Raise TypeError
              | Some c' => Ok (VResultSet (map self (find_all_tags c')))
              end
          end
      end
  end.

(** The body of [for event in event_list]. *)
Definition event_record_of (event : Tag) : result event_record :=
  let event_record := fromkeys in
  ' (event_date, event_time) <- get_event_date_and_time event ;;
  let event_record := set_field Col.date (VStr event_date) event_record in
  let event_record := set_field Col.time (VStr event_time) event_record in
  ' (event_title, event_short_url, event_long_url) <- get_event_title_and_urls event ;;
  let event_record := set_field Col.title (VStr event_title) event_record in
  let event_record := set_field Col.short_url (VStr event_short_url) event_record in
  let event_record := set_field Col.long_url (VStr event_long_url) event_record in
  blurb <- get_event_description_blurb event ;;
  let event_record := set_field Col.description (VStr blurb) event_record in
  event_venue <- get_event_venue event ;;
  let event_record := set_field Col.venue event_venue event_record in
  artist_list <- get_event_artist_list event ;;
  let event_record := set_field Col.artists (VStr (Str.join Str.nl artist_list)) event_record in
  category_list <- get_event_categories event ;;
  let event_record := set_field Col.categories (VStr (Str.join Str.nl category_list)) event_record in
  let event_record := set_field Col.interested (VInt 0) event_record in
  Ok event_record.

Fixpoint event_loop (event_list : list Tag) (event_metadata_list : list event_record)
  : result (list event_record) :=
  match event_list with
  | [] => Ok event_metadata_list
  | event :: rest =>
      event_record <- event_record_of event ;;
      event_loop rest (event_metadata_list ++ [event_record])
  end.

(** [extract_event_metadata(event_list)] *)
Definition extract_event_metadata (event_list : list Tag) : result (list event_record) :=
  event_loop event_list [].

End EventExtractor.

(** ** The merger

    The pandas calls of [main], on typed frames.  A [series] is a column with
    its index labels; the ticket frame is kept by columns while it is
    exploded, as [apply] works column by column, and by rows afterwards. *)

Definition series (A : Type) : Type := list (string * A).

(** [pd.Series.explode]: every element of a list cell becomes a row under the
    cell's label; an empty list becomes one row holding NaN, here [None]. *)
Definition series_explode {A : Type} (s : series (list A)) : series (option A) :=
  flat_map
    (fun kv =>
       match snd kv with
       | [] => [(fst kv, None)]
       | l => map (fun x => (fst kv, Some x)) l
       end)
    s.

(** [pd.DataFrame.from_dict(ticket_details, orient="index")], then
    [reset_index], [rename] and [set_index(event_key)]: the index is the
    event key, each ticket field is a column of lists. *)
Definition ticket_columns (ticket_details : Dict.t ticket_lists)
  : ticket_record (fun A => series (list A)) :=
  {| ticket_type := map (fun kv => (fst kv, ticket_type (snd kv))) ticket_details;
     venue_type := map (fun kv => (fst kv, venue_type (snd kv))) ticket_details;
     is_streaming := map (fun kv => (fst kv, is_streaming (snd kv))) ticket_details;
     ticket_price_gbp :=
       map (fun kv => (fst kv, ticket_price_gbp (snd kv))) ticket_details |}.

(** A row of the exploded ticket frame: the event key and one cell per
    ticket field. *)
Definition ticket_row : Type := string * ticket_record option.

Definition index {A : Type} (s : series A) : list string := map fst s.

Definition same_index (a b : list string) : bool :=
  if list_eq_dec string_dec a b then true else false.

(** [.apply(pd.Series.explode).reset_index()]: each column is exploded on its
    own, and the results are put side by side, which needs one common index:
    columns that explode to different indexes raise [ValueError]. *)
Definition apply_explode (cols : ticket_record (fun A => series (list A)))
  : result (list ticket_row) :=
  let c1 := series_explode (ticket_type cols) in
  let c2 := series_explode (venue_type cols) in
  let c3 := series_explode (is_streaming cols) in
  let c4 := series_explode (ticket_price_gbp cols) in
  if same_index (index c1) (index c2) && same_index (index c1) (index c3)
     && same_index (index c1) (index c4)
  then Ok (map (fun q =>
                  match q with
                  | (((a, b), c), d) =>
                      (fst a, {| ticket_type := snd a; venue_type := snd b;
                                 is_streaming := snd c; ticket_price_gbp := snd d |})
                  end)
               (combine (combine (combine c1 c2) c3) c4))
  else Raise ValueError.

(** [ticket_df] of [main]. *)
Definition ticket_df_of (ticket_details : Dict.t ticket_lists) : result (list ticket_row) :=
  apply_explode (ticket_columns ticket_details).

(** A row of [merged_df]: the columns of the event, and the ticket columns. *)
Record merged_row : Type := {
  event_part : event_record;
  ticket_part : ticket_record option
}.

(** The join condition on [short_url]. *)
Definition key_matches (e : event_record) (r : ticket_row) : bool :=
  match e Col.short_url with
  | Some (VStr u) => String.eqb u (fst r)
  | _ => false
  end.

Fixpoint enumerate_from {A : Type} (n : nat) (l : list A) : list (nat * A) :=
  match l with
  | [] => []
  | x :: l' => (n, x) :: enumerate_from (S n) l'
  end.

Definition enumerate {A : Type} (l : list A) : list (nat * A) := enumerate_from 0 l.

(** The pairs of a left and a right row that an inner join on the key puts
    together, each row with its position in its frame: left rows in their
    order, and under each the matching right rows in theirs.  (pandas keeps
    the order of the left keys; where a key recurs on the left its releases
    differ in the order of the result, and nothing below rests on it.) *)
Definition join_pairs (event_df : list event_record) (ticket_df : list ticket_row)
  : list ((nat * event_record) * (nat * ticket_row)) :=
  flat_map
    (fun ie => map (fun jr => (ie, jr))
                   (filter (fun jr => key_matches (snd ie) (snd jr)) (enumerate ticket_df)))
    (enumerate event_df).

(** The pairs of one left row. *)
Definition pairs_of (ticket_df : list ticket_row) (ie : nat * event_record)
  : list ((nat * event_record) * (nat * ticket_row)) :=
  map (fun jr => (ie, jr))
      (filter (fun jr => key_matches (snd ie) (snd jr)) (enumerate ticket_df)).

Definition merge_pair (p : (nat * event_record) * (nat * ticket_row)) : merged_row :=
  {| event_part := snd (fst p); ticket_part := snd (snd (snd p)) |}.

(** [pd.merge(event_df, ticket_df, left_on=event_key, right_on=event_key,
    how="inner")[ALL_COLUMNS]] *)
Definition pd_merge_inner (event_df : list event_record) (ticket_df : list ticket_row)
  : list merged_row :=
  map merge_pair (join_pairs event_df ticket_df).

(** [main] from [ticket_df = ...] to [merged_df = pd.merge(...)[ALL_COLUMNS]],
    for the frame [event_df] of at least one event record.  The frame of a
    mapping without keys has no ticket columns, and the selection
    [[ALL_COLUMNS]] raises [KeyError] on it. *)
Definition merged_df (event_df : list event_record) (ticket_details : Dict.t ticket_lists)
  : result (list merged_row) :=
  ticket_df <- ticket_df_of ticket_details ;;
  match ticket_details with
  | [] =>
      Raise (KeyError
               "['ticket_type', 'venue_type', 'is_streaming', 'ticket_price_gbp'] not in index")
  | _ => Ok (pd_merge_inner event_df ticket_df)
  end.

(** ** The exporter *)

Module Exporter.

(** What the exporter sees of the operating system: the working directory,
    and for each path whether writing it fails, with the text of the
    [OSError]. *)
Record os_model : Type := {
  getcwd : string;
  write_error : string -> option string
}.

Definition EXPORT_FILE_BASE : string := "oxford_lieder-2021-ticket_list".

Fixpoint endswith_slash (s : string) : bool :=
  match s with
  | EmptyString => false
  | String c EmptyString => Ascii.eqb c "/"
  | String _ s' => endswith_slash s'
  end.

(** [os.path.abspath(p)] for a plain file name [p]. *)
Definition abspath (os : os_model) (p : string) : string :=
  if endswith_slash (getcwd os) then getcwd os +++ p else getcwd os +++ "/" +++ p.

(** The [try] suite: the CSV is written first, then the HTML page; the first
    [OSError] ends it. *)
Definition try_suite (os : os_model) (export_csv export_html : string) : option string :=
  match write_error os export_csv with
  | Some e => Some e
  | None => write_error os export_html
  end.

(** The [try] statement of [main]: the lines it prints. *)
Definition export (os : os_model) (num_rows num_cols : nat) : list string :=
  let export_csv := EXPORT_FILE_BASE +++ ".csv" in
  let export_html := EXPORT_FILE_BASE +++ ".html" in
  match try_suite os export_csv export_html with
  | Some e => ["There was an error exporting " +++ export_csv +++ ": " +++ e]
  | None =>
      let shape := " export succeeded [" +++ Str.of_nat num_rows +++ " rows, "
                   +++ Str.of_nat num_cols +++ " columns]:" in
      [Str.join " " ["CSV" +++ shape; abspath os export_csv];
       Str.join " " ["HTML" +++ shape; abspath os export_html]]
  end.

End Exporter.


(** ** The row grouping, as the specification words it

    Rows are taken as already read: the group key a row introduces, if any,
    and its field values.  The accumulator is the mapping built so far and
    the most recently seen group key. *)

Definition row_view : Type := option string * ticket_data.

(** The [href] of the anchor that makes a row start a group. *)
Definition row_key (row : Tag) : option string :=
  match select_one_a_href_prefix "/event" row with
  | Some a => get_attr "href" a
  | None => None
  end.

Definition view_row (row : Tag) : result row_view :=
  ticket_data <- row_ticket_data row ;;
  Ok (row_key row, ticket_data).

Definition group_step (acc : Dict.t ticket_lists * option string) (r : row_view)
  : option (Dict.t ticket_lists * option string) :=
  match fst r with
  | Some key =>
      (* a new group; a key that is already there is skipped *)
      if Dict.contains key (fst acc) then Some (fst acc, Some key)
      else Some (Dict.setitem key (seed (snd r)) (fst acc), Some key)
  | None =>
      (* a continuation row of the most recently seen group *)
      match snd acc with
      | Some key =>
          match Dict.get key (fst acc) with
          | Some g => Some (Dict.setitem key (append_row g (snd r)) (fst acc), Some key)
          | None => None
          end
      | None => None
      end
  end.

Fixpoint group_rows_from (acc : Dict.t ticket_lists * option string)
  (rs : list row_view) : option (Dict.t ticket_lists) :=
  match rs with
  | [] => Some (fst acc)
  | r :: rs' =>
      match group_step acc r with
      | Some acc' => group_rows_from acc' rs'
      | None => None
      end
  end.

Definition group_rows (rs : list row_view) : option (Dict.t ticket_lists) :=
  group_rows_from (Dict.empty, None) rs.

(** The loop state against the accumulator of the specification: the same
    mapping, and the last key either both unset or both the same key of the
    mapping. *)
Definition same_position (d : Dict.t ticket_lists) (last : string) (cur : option string) : Prop :=
  (cur = None /\ last = EmptyString /\ d = Dict.empty)
  \/ (cur = Some last /\ Dict.contains last d = true).

(** ** Invariants and formats *)

(** The four lists of a group go together: one length, and at least one
    entry. *)
Definition aligned (g : ticket_lists) : Prop :=
  length (ticket_type g) = length (ticket_price_gbp g)
  /\ length (venue_type g) = length (ticket_price_gbp g)
  /\ length (is_streaming g) = length (ticket_price_gbp g)
  /\ 1 <= length (ticket_price_gbp g).

(** A ticket mapping: no key twice, every group aligned. *)
Definition ticket_mapping (d : Dict.t ticket_lists) : Prop :=
  NoDup (Dict.keys d) /\ forall key g, In (key, g) d -> aligned g.

(** The rows a group explodes to: entry [i] of each list, side by side. *)
Definition options_of (g : ticket_lists) (i : nat) : ticket_record option :=
  {| ticket_type := nth_error (ticket_type g) i;
     venue_type := nth_error (venue_type g) i;
     is_streaming := nth_error (is_streaming g) i;
     ticket_price_gbp := nth_error (ticket_price_gbp g) i |}.

Definition exploded_group (key : string) (g : ticket_lists) : list ticket_row :=
  map (fun i => (key, options_of g i)) (seq 0 (length (ticket_price_gbp g))).

(** The text form "day month year hour:minute", group by group. *)

Fixpoint all_chars (p : ascii -> bool) (s : string) : bool :=
  match s with
  | EmptyString => true
  | String c s' => p c && all_chars p s'
  end.

(** One or two digits, or a space and a digit. *)
Definition number_text (s : string) : bool :=
  match s with
  | String a EmptyString => Str.isdigit a
  | String a (String b EmptyString) =>
      (Str.isdigit a || Ascii.eqb a " ") && Str.isdigit b
  | _ => false
  end.

Definition day_text (s : string) : bool :=
  number_text s && (1 <=? Strptime.int_text s) && (Strptime.int_text s <=? 31).

Definition month_text (s : string) : bool :=
  (String.length s =? 3) && existsb (String.eqb (Str.lower s)) Strptime.month_names.

Definition year_text (s : string) : bool :=
  (String.length s =? 4) && all_chars Str.isdigit s.

Definition hour_text (s : string) : bool :=
  number_text s && all_chars Str.isdigit s && (Strptime.int_text s <=? 23).

Definition minute_text (s : string) : bool :=
  number_text s && all_chars Str.isdigit s && (Strptime.int_text s <=? 59).

Definition space_text (s : string) : bool :=
  (1 <=? String.length s) && all_chars Str.isspace s.


(** [s] reads "day month year hour:minute" with the groups [g], and the date
    exists. *)
Definition matches_format (s : string) (g : Strptime.groups) : Prop :=
  exists ws1 ws2 ws3,
    s = Strptime.g_d g +++ ws1 +++ Strptime.g_b g +++ ws2 +++ Strptime.g_Y g
        +++ ws3 +++ Strptime.g_H g +++ ":" +++ Strptime.g_M g
    /\ day_text (Strptime.g_d g) = true
    /\ space_text ws1 = true
    /\ month_text (Strptime.g_b g) = true
    /\ space_text ws2 = true
    /\ year_text (Strptime.g_Y g) = true
    /\ space_text ws3 = true
    /\ hour_text (Strptime.g_H g) = true
    /\ minute_text (Strptime.g_M g) = true
    /\ Strptime.valid (Strptime.of_groups g) = true.

(** The number a run of digits writes, after [acc]. *)
Fixpoint decimal_value_from (acc : Z) (s : string) : Z :=
  match s with
  | EmptyString => acc
  | String c s' => decimal_value_from (10 * acc + Str.digit_value c) s'
  end.

Definition decimal_value (s : string) : Z := decimal_value_from 0 s.

(** A character of a plain decimal: a digit or the point. *)
Definition plain_char (c : ascii) : bool := Str.isdigit c || Ascii.eqb c ".".

Definition signed (neg : bool) (a : Z) : Z := if neg then (- a)%Z else a.

(** A well-formed event block: the text next to the clock icon reads as a
    date and time, the heading holds a link, text follows the last paragraph
    and the muted label, there is an artist list, and every category button
    links to a query with a [?category] value. *)
Definition well_formed_event (decode : node -> string) (unquote : string -> string)
  (event_item : Tag) : Prop :=
  (exists s t, icon_adjacent_text decode event_item = Some s
               /\ Strptime.strptime s = Ok t)
  /\ (exists h4 a href, find "h4" event_item = Some h4 /\ find "a" h4 = Some a
                        /\ get_attr "href" a = Some href)
  /\ (exists p blurb, getitem_last (find_all "p" event_item) = Ok p
                      /\ next_sibling p = Some (NavigableString blurb))
  /\ (exists small place, find_class "small" "text-muted" event_item = Some small
                          /\ next_sibling small = Some (NavigableString place))
  /\ (exists ul, find_class "ul" "artistlist" event_item = Some ul)
  /\ Forall (fun category =>
               exists href, get_attr "href" category = Some href
                            /\ Dict.contains "?category" (parse_qs unquote href) = true)
            (find_all_class "a" "btn btn-xs btn-primary" event_item).

(** Every column of an event record is set, and [interested] is 0. *)
Definition populated (r : event_record) : Prop :=
  (forall k, r k <> None) /\ r Col.interested = Some (VInt 0).

(** ** Example pages *)

Module Example.

Definition cell (s : string) : node := Element "td" [] [NavigableString s].

(** A row that starts the group of the event at [href]. *)
Definition keyed_row (href kind price : string) : Tag :=
  root (Element "tr" []
          [Element "td" [] [Element "a" [("href", href)] [NavigableString "Recital"]];
           cell "12 Oct"; cell kind; cell price]).

(** A row that continues the group above it. *)
Definition continuation_row (kind price : string) : Tag :=
  root (Element "tr" [] [cell EmptyString; cell EmptyString; cell kind; cell price]).

Definition standard : string :=
  "Standard" +++ Str.nl +++ "In-person & Streaming (Digital Concert Hall)".

Definition under_35 : string := "Under 35" +++ Str.nl +++ "In-person only".

Definition rows : list Tag :=
  [keyed_row "/event/1" standard (Str.pound +++ "10.00");
   continuation_row under_35 (Str.pound +++ "5");
   keyed_row "/event/2" standard (Str.pound +++ "20")].

(** What the extractor returns on [rows]. *)
Definition mapping : Dict.t ticket_lists :=
  [("/event/1",
    {| ticket_type := ["Standard"; "Under 35"];
       venue_type := ["In-person & Streaming (Digital Concert Hall)"; "In-person only"];
       is_streaming := [true; false];
       ticket_price_gbp := [10%Z; 5%Z] |});
   ("/event/2",
    {| ticket_type := ["Standard"];
       venue_type := ["In-person & Streaming (Digital Concert Hall)"];
       is_streaming := [true];
       ticket_price_gbp := [20%Z] |})].

(** An event block of the listing page. *)
Definition event_block (href heading when : string) : Tag :=
  root (Element "div" [("class", "col-sm-9")]
          [Element "h4" [] [Element "a" [("href", href)] [NavigableString heading]];
           Element "p" []
             [Element "i" [("class", "glyphicon glyphicon-time")] [];
              NavigableString when;
              Element "small" [("class", "text-muted")] [NavigableString "Day 1"];
              NavigableString " | Holywell Music Room "];
           Element "ul" [("class", "artistlist")]
             [Element "li" [] [NavigableString " A Singer "];
              Element "li" [] [NavigableString "A Pianist"]];
           Element "p" []
             [Element "a" [("class", "btn btn-xs btn-primary");
                           ("href", "?category=Evening+concert")]
                [NavigableString "Evening concert"]];
           NavigableString " Songs by Schubert. "]).

Definition recital_a : Tag := event_block "/event/1" "Recital A" " 12 Oct 2021 19:30 ".

(** Stand-ins for the three library functions: good on what the examples
    hold (plain ASCII text, no percent escapes). *)
Definition plain (s : string) : string := s.
Definition no_tags (n : node) : string := "<>".

(** The record of an event, as far as the merge reads it. *)
Definition event_a : event_record :=
  set_field Col.short_url (VStr "/event/1")
    (set_field Col.title (VStr "Recital A") fromkeys).

Definition html_write_fails : Exporter.os_model :=
  {| Exporter.getcwd := "/home/festival";
     Exporter.write_error :=
       fun p => if String.eqb p "oxford_lieder-2021-ticket_list.html"
                then Some "[Errno 13] Permission denied: 'oxford_lieder-2021-ticket_list.html'"
                else None |}.

End Example.


(** * Further definitions *)

(** ** Measures of a row list and of a mapping *)

(** No character of [s] is [c]. *)
Definition lacks (c : ascii) (s : string) : bool :=
  all_chars (fun x => negb (Ascii.eqb x c)) s.

(** The first appearances in [l] of the keys not yet in [seen]. *)
Fixpoint first_appearances (seen l : list string) : list string :=
  match l with
  | [] => []
  | x :: l' =>
      if existsb (String.eqb x) seen then first_appearances seen l'
      else x :: first_appearances (x :: seen) l'
  end.

(** The keys of the rows that bring one. *)
Fixpoint keys_of_views (views : list row_view) : list string :=
  match views with
  | [] => []
  | (Some key, _) :: views' => key :: keys_of_views views'
  | (None, _) :: views' => keys_of_views views'
  end.

(** How many rows bring no key. *)
Fixpoint continuations (views : list row_view) : nat :=
  match views with
  | [] => 0
  | (Some _, _) :: views' => continuations views'
  | (None, _) :: views' => S (continuations views')
  end.

(** The number of ticket options of a mapping. *)
Fixpoint total_options (d : Dict.t ticket_lists) : nat :=
  match d with
  | [] => 0
  | (_, g) :: d' => length (ticket_price_gbp g) + total_options d'
  end.

(** The streaming flags of a group are those of its venue types. *)
Definition flags_derived (g : ticket_lists) : Prop :=
  is_streaming g = map return_if_venue_has_streaming (venue_type g).


(** ** Dates as the listing page writes them *)


Definition month_abbreviations : list string :=
  ["Jan"; "Feb"; "Mar"; "Apr"; "May"; "Jun";
   "Jul"; "Aug"; "Sep"; "Oct"; "Nov"; "Dec"].

(** A date and time as the listing page writes it: "12 Oct 2021 19:30". *)
Definition written (t : Strptime.datetime) : string :=
  Str.of_nat_02 (Strptime.day t) +++ " "
  +++ nth (Strptime.month t - 1) month_abbreviations EmptyString +++ " "
  +++ Str.of_nat (Strptime.year t) +++ " "
  +++ Str.of_nat_02 (Strptime.hour t) +++ ":" +++ Str.of_nat_02 (Strptime.minute t).

(** A number below 100 is written with two digits that read as the number. *)
Definition two_digits (n : nat) : bool :=
  match Str.of_nat_02 n with
  | String a (String b EmptyString) =>
      Str.isdigit a && Str.isdigit b
      && (Strptime.int_text (String a (String b EmptyString)) =? n)
  | _ => false
  end.

(** A year from 1000 on is written with four digits that read as the year. *)
Definition four_digits (n : nat) : bool :=
  match Str.of_nat n with
  | String a (String b (String c (String d EmptyString))) =>
      Str.isdigit a && Str.isdigit b && Str.isdigit c && Str.isdigit d
      && (Strptime.int_text (String a (String b (String c (String d EmptyString)))) =? n)
  | _ => false
  end.

(** The text before the last segment of a split: every earlier segment,
    each followed by the separator. *)
Fixpoint segments_before (sep : ascii) (l : list string) : string :=
  match l with
  | [] => EmptyString
  | x :: l' => x +++ String sep (segments_before sep l')
  end.

(** ** The export frame

    From the merge on, [main] works on the frame by columns: it rewrites
    one column, renames another, and [generate_event_html_df] rewrites three
    and drops one.  Here a frame is its number of rows and its columns in
    order, each a name and the cells of the rows. *)

(** What a cell holds: text, an integer, a truth value, NaN (what [explode]
    leaves for an empty list), [None], or the list of tags that calling a
    tag returns. *)
Inductive cell : Type :=
| CStr (s : string)
| CInt (z : Z)
| CBool (b : bool)
| CNaN
| CNone
| CTags (tags : list node).

Record frame : Type := {
  num_rows : nat;
  column_data : Dict.t (list cell)
}.

Module Frame.

(** [df.columns] *)
Definition columns (df : frame) : list string := Dict.keys (column_data df).

(** [df[name]] *)
Definition getitem (name : string) (df : frame) : result (list cell) :=
  Dict.getitem name (column_data df).

(** [df[name] = column] *)
Definition setitem (name : string) (column : list cell) (df : frame) : frame :=
  {| num_rows := num_rows df; column_data := Dict.setitem name column (column_data df) |}.

(** [column.apply(f)] *)
Definition apply (f : cell -> result cell) (column : list cell) : result (list cell) :=
  comprehension f column.

(** [df.drop(name, axis=1)] *)
Definition drop (name : string) (df : frame) : result frame :=
  if Dict.contains name (column_data df)
  then Ok {| num_rows := num_rows df;
             column_data :=
               filter (fun kv => negb (String.eqb (fst kv) name)) (column_data df) |}
  else Raise (KeyError ("['" +++ name +++ "'] not found in axis")).

(** [df.rename(columns={old: new})]; a name that is no column is ignored. *)
Definition rename (old new : string) (df : frame) : frame :=
  {| num_rows := num_rows df;
     column_data :=
       map (fun kv => if String.eqb (fst kv) old then (new, snd kv) else kv)
           (column_data df) |}.

(** [df.shape] *)
Definition shape (df : frame) : nat * nat := (num_rows df, length (columns df)).

End Frame.

(** The cell of an event column. *)
Definition value_cell (v : option value) : cell :=
  match v with
  | None => CNone
  | Some (VStr s) => CStr s
  | Some (VInt z) => CInt z
  | Some (VResultSet tags) => CTags tags
  end.

(** The cell of a ticket column. *)
Definition option_cell {A : Type} (f : A -> cell) (x : option A) : cell :=
  match x with
  | Some a => f a
  | None => CNaN
  end.

(** The frame of the merged rows, with its columns in the order of
    [ALL_COLUMNS]. *)
Definition frame_of_merged (merged : list merged_row) : frame :=
  let event (c : Col.t) := map (fun r => value_cell (event_part r c)) merged in
  let ticket (f : ticket_record option -> cell) := map (fun r => f (ticket_part r)) merged in
  {| num_rows := length merged;
     column_data :=
       [("date", event Col.date); ("time", event Col.time); ("title", event Col.title);
        ("artists", event Col.artists); ("description", event Col.description);
        ("venue", event Col.venue);
        ("ticket_type", ticket (fun t => option_cell CStr (ticket_type t)));
        ("venue_type", ticket (fun t => option_cell CStr (venue_type t)));
        ("is_streaming", ticket (fun t => option_cell CBool (is_streaming t)));
        ("ticket_price_gbp", ticket (fun t => option_cell CInt (ticket_price_gbp t)));
        ("interested", event Col.interested); ("categories", event Col.categories);
        ("short_url", event Col.short_url); ("long_url", event Col.long_url)] |}.

(** The truth value of a cell in [1 if value else 0]: NaN is a non-zero
    float, and true. *)
Definition truthy (value : cell) : bool :=
  match value with
  | CStr s => negb (String.eqb s EmptyString)
  | CInt z => negb (Z.eqb z 0)
  | CBool b => b
  | CNaN => true
  | CNone => false
  | CTags tags => match tags with [] => false | _ => true end
  end.

(** [main], after the merge: the streaming flags become 1 and 0, and the
    time column is renamed. *)
Definition label_merged_df (merged_df : frame) : result frame :=
  flags <- Frame.getitem "is_streaming" merged_df ;;
  flags <- Frame.apply (fun value => Ok (if truthy value then CInt 1 else CInt 0)) flags ;;
  let merged_df := Frame.setitem "is_streaming" flags merged_df in
  Ok (Frame.rename "time" "time (UTC+1)" merged_df).

(** [text.replace("\n", "<br>")]: only text has a [replace]. *)
Definition replace_newlines (text : cell) : result cell :=
  match text with
  | CStr s => Ok (CStr (Str.replace Str.nl "<br>" s))
  | _ => Raise AttributeError
  end.

(** The body of [for field_name in ...] of [generate_event_html_df]. *)
Definition html_field (html_df : frame) (field_name : string) : result frame :=
  column <- Frame.getitem field_name html_df ;;
  column <- Frame.apply replace_newlines column ;;
  Ok (Frame.setitem field_name column html_df).

Fixpoint html_fields (field_names : list string) (html_df : frame) : result frame :=
  match field_names with
  | [] => Ok html_df
  | field_name :: rest => html_df <- html_field html_df field_name ;; html_fields rest html_df
  end.

(** [generate_event_html_df(merged_event_ticket_df)] *)
Definition generate_event_html_df (merged_event_ticket_df : frame) : result frame :=
  let html_df := merged_event_ticket_df in
  html_df <- html_fields ["artists"; "categories"; "description"] html_df ;;
  Frame.drop "interested" html_df.

(** A column of text. *)
Definition is_text (c : cell) : bool :=
  match c with CStr _ => true | _ => false end.

(** A text cell and what [replace_newlines] makes of it. *)
Definition with_breaks (c c' : cell) : Prop :=
  exists s, c = CStr s /\ c' = CStr (Str.replace Str.nl "<br>" s).

(** The columns of the exported table. *)
Definition EXPORT_COLUMNS : list string :=
  ["date"; "time (UTC+1)"; "title"; "artists"; "description"; "venue";
   "ticket_type"; "venue_type"; "is_streaming"; "ticket_price_gbp";
   "interested"; "categories"; "short_url"; "long_url"].

(** The flag of a merged row, as [1 if value else 0] leaves it. *)
Definition streaming_number (r : merged_row) : Z :=
  match is_streaming (ticket_part r) with
  | Some false => 0
  | _ => 1
  end.

(** ** The run of [main]

    What a run does to the outside is kept as a log: the pages it asks to
    open, the lines it prints, the files it has written.  The pages are given by what
    opening and parsing them yields; the text of the written files is not
    represented. *)

Inductive effect : Type :=
| Opened (path : string)
| Printed (line : string)
| Written (path : string).

(** What [open] and [BeautifulSoup(in_file, "lxml")] come to for a path. *)
Inductive loaded : Type :=
| Parsed (soup : Tag)
| Raised (e : exn).

Record world : Type := {
  read_html : string -> loaded;
  system : Exporter.os_model
}.

(** A computation that logs effects and may raise. *)
Definition io (A : Type) : Type := list effect * result A.

Definition io_bind {A B : Type} (m : io A) (k : A -> io B) : io B :=
  match snd m with
  | Ok a => (fst m ++ fst (k a), snd (k a))
  | Raise e => (fst m, Raise e)
  end.

Notation "x <~ m ;; k" := (io_bind m (fun x => k))
  (at level 61, m at next level, right associativity).

Definition lift {A : Type} (r : result A) : io A := ([], r).

Definition emit (e : effect) : io unit := ([e], Ok tt).

(** [load_html(html_file)]: an [OSError] is printed, and the function then
    returns [None]; any other exception goes on. *)
Definition load_html (w : world) (html_file : string) : io (option Tag) :=
  _ <~ emit (Opened html_file) ;;
  match read_html w html_file with
  | Parsed soup => lift (Ok (Some soup))
  | Raised (OSError e) => _ <~ emit (Printed e) ;; lift (Ok None)
  | Raised e => lift (Raise e)
  end.

(** The title a frame of event records is sorted by. *)
Definition title_of (r : event_record) : string :=
  match r Col.title with
  | Some (VStr s) => s
  | _ => EmptyString
  end.

(** The [try] statement of [main], with its effects.  The suite writes the
    CSV file, builds the frame of the page, and writes the page; only an
    [OSError] is caught. *)
Definition export_files (w : world) (merged_df : frame) : io unit :=
  let '(num_rows, num_cols) := Frame.shape merged_df in
  let export_csv := Exporter.EXPORT_FILE_BASE +++ ".csv" in
  let failed e := emit (Printed ("There was an error exporting " +++ export_csv +++ ": " +++ e)) in
  match Exporter.write_error (system w) export_csv with
  | Some e => failed e
  | None =>
      _ <~ emit (Written export_csv) ;;
      let export_html := Exporter.EXPORT_FILE_BASE +++ ".html" in
      _ <~ lift (generate_event_html_df merged_df) ;;
      match Exporter.write_error (system w) export_html with
      | Some e => failed e
      | None =>
          _ <~ emit (Written export_html) ;;
          let shape := " export succeeded [" +++ Str.of_nat num_rows +++ " rows, "
                       +++ Str.of_nat num_cols +++ " columns]:" in
          _ <~ emit (Printed (Str.join " " ["CSV" +++ shape;
                                            Exporter.abspath (system w) export_csv])) ;;
          emit (Printed (Str.join " " ["HTML" +++ shape;
                                       Exporter.abspath (system w) export_html]))
      end
  end.

Section Run.

Variable decode : node -> string.
Variable normalize_NFKC : string -> string.
Variable unquote : string -> string.

(** [sort_values(by=["title"])] on a frame with rows is left open: the
    order of rows with equal titles is the library's choice. *)
Variable sort_values : list event_record -> list event_record.

(** [pd.DataFrame(records).sort_values(by=["title"])]: the frame of no
    records has no columns, and no [title] to sort by. *)
Definition event_df_of (records : list event_record) : result (list event_record) :=
  match records with
  | [] => Raise (KeyError "title")
  | _ => Ok (sort_values records)
  end.

(** [main()] *)
Definition main (w : world) : io unit :=
  event_soup <~ load_html w "oxford_lieder_2021.html" ;;
  event_list <~ lift (match event_soup with
                      | Some soup => Ok (extract_all_event_items soup)
                      | None => Raise AttributeError
                      end) ;;
  ticket_soup <~ load_html w "oxford_lieder_2021_ticket_prices.html" ;;
  ticket_detail_list <~ lift (match ticket_soup with
                              | Some soup => extract_all_ticket_items soup
                              | None => Raise AttributeError
                              end) ;;
  records <~ lift (extract_event_metadata decode normalize_NFKC unquote event_list) ;;
  event_df <~ lift (event_df_of records) ;;
  ticket_details <~ lift (extract_ticket_price_options ticket_detail_list) ;;
  merged <~ lift (merged_df event_df ticket_details) ;;
  merged_df <~ lift (label_merged_df (frame_of_merged merged)) ;;
  export_files w merged_df.

End Run.

(** The lines of a log, and the files. *)
Definition printed_lines (log : list effect) : list string :=
  flat_map (fun e => match e with Printed line => [line] | _ => [] end) log.

Definition written_files (log : list effect) : list string :=
  flat_map (fun e => match e with Written path => [path] | _ => [] end) log.

(** The three columns of an event record that the page rewrites hold text. *)
Definition text_columns (r : event_record) : Prop :=
  forall c, In c [Col.artists; Col.categories; Col.description] ->
            exists s, r c = Some (VStr s).

(** A merged row with nothing missing: the event is one of the event frame,
    its key is a key of the mapping and an event link, and every ticket
    cell is filled, the flag being that of the venue type. *)
Definition complete_row (event_df : list event_record) (d : Dict.t ticket_lists)
  (m : merged_row) : Prop :=
  exists key ttype vtype price,
    In (event_part m) event_df
    /\ event_part m Col.short_url = Some (VStr key)
    /\ Dict.contains key d = true
    /\ Str.startswith "/event" key = true
    /\ ticket_part m
       = {| ticket_type := Some ttype; venue_type := Some vtype;
            is_streaming := Some (return_if_venue_has_streaming vtype);
            ticket_price_gbp := Some price |}.

(** ** Sample pages and frames *)

Module Sample.

(** The rows of [Example.rows], as read. *)
Definition views : list row_view :=
  [(Some "/event/1",
    {| ticket_type := "Standard";
       venue_type := "In-person & Streaming (Digital Concert Hall)";
       is_streaming := true; ticket_price_gbp := 10%Z |});
   (None,
    {| ticket_type := "Under 35"; venue_type := "In-person only";
       is_streaming := false; ticket_price_gbp := 5%Z |});
   (Some "/event/2",
    {| ticket_type := "Standard";
       venue_type := "In-person & Streaming (Digital Concert Hall)";
       is_streaming := true; ticket_price_gbp := 20%Z |})].

(** A row with two cells only. *)
Definition short_row : Tag :=
  root (Element "tr" [] [Example.cell "12 Oct"; Example.cell "Recital"]).

(** A block without a clock icon, and one whose category button has no
    link. *)
Definition no_icon : Tag := root (Element "div" [("class", "col-sm-9")] []).

Definition no_href : Tag :=
  root (Element "div" [("class", "col-sm-9")]
          [Element "a" [("class", "btn btn-xs btn-primary")] [NavigableString "Song"]]).

(** 12 October 2021, 19:30. *)
Definition evening : Strptime.datetime :=
  {| Strptime.year := 2021; Strptime.month := 10; Strptime.day := 12;
     Strptime.hour := 19; Strptime.minute := 30 |}.

(** A merged frame of one row, and a frame without the event columns. *)
Definition one_row : frame :=
  {| num_rows := 1;
     column_data :=
       [("title", [CStr "Recital A"]);
        ("artists", [CStr ("A Singer" +++ Str.nl +++ "A Pianist")]);
        ("description", [CStr "Songs by Schubert."]);
        ("interested", [CInt 0]);
        ("categories", [CStr "Evening concert"])] |}.

Definition no_columns : frame := {| num_rows := 0; column_data := [] |}.

(** The two pages: one event block, and a ticket table of three rows. *)
Definition event_page : Tag :=
  root (Element "[document]" []
          [Element "html" [] [Element "body" [] [self Example.recital_a]]]).

Definition ticket_page : Tag :=
  root (Element "[document]" []
          [Element "div" [("id", "single"); ("class", "ticketing-section")]
             [Element "table" []
                [Element "tbody" [] (map self Example.rows)]]]).

Definition empty_page : Tag := root (Element "[document]" [] []).

Definition empty_table : Tag :=
  root (Element "[document]" []
          [Element "div" [("id", "single"); ("class", "ticketing-section")]
             [Element "table" [] [Element "tbody" [] []]]]).

Definition writable : Exporter.os_model :=
  {| Exporter.getcwd := "/home/festival"; Exporter.write_error := fun _ => None |}.

(** Both pages are there. *)
Definition both_pages (events tickets : Tag) : world :=
  {| read_html :=
       fun path => if String.eqb path "oxford_lieder_2021.html" then Parsed events
                   else Parsed tickets;
     system := writable |}.

(** No page is there. *)
Definition no_pages : world :=
  {| read_html := fun path => Raised (OSError ("[Errno 2] No such file or directory: '"
                                               +++ path +++ "'"));
     system := writable |}.

(** Records stay in the order they have. *)
Definition keep_order (records : list event_record) : list event_record := records.

End Sample.


(** * Properties *)

(** ** Strings *)

Lemma append_assoc (a b c : string) : (a +++ b) +++ c = a +++ b +++ c.
Proof. induction a as [|x a IH]; simpl; [reflexivity | now rewrite IH]. Qed.

Lemma append_empty_r (a : string) : a +++ EmptyString = a.
Proof. induction a as [|x a IH]; simpl; [reflexivity | now rewrite IH]. Qed.

Lemma startswith_spec (p s : string) :
  Str.startswith p s = true <-> exists post, s = p +++ post.
Proof.
  unfold Str.startswith. revert s.
  induction p as [|c p IH]; intros s; simpl.
  - split; [intros _; now exists s | destruct s; reflexivity].
  - destruct s as [|c' s]; simpl.
    + split; [discriminate | intros [post H]; discriminate].
    + destruct (ascii_dec c c') as [->|Hne].
      * rewrite IH. split; intros [post H]; exists post.
        -- now rewrite H.
        -- now inversion H.
      * split; [discriminate | intros [post H]; congruence].
Qed.

Lemma contains_spec (p s : string) :
  Str.contains p s = true <-> exists pre post, s = pre +++ p +++ post.
Proof.
  induction s as [|c s IH]; cbn [Str.contains].
  - rewrite orb_false_r, startswith_spec. split.
    + intros [post H]. now exists EmptyString, post.
    + intros [pre [post H]]. destruct pre; simpl in H; [now exists post | discriminate].
  - rewrite orb_true_iff, IH, startswith_spec. split.
    + intros [[post H] | [pre [post H]]].
      * now exists EmptyString, post.
      * exists (String c pre), post. simpl. now rewrite H.
    + intros [pre [post H]]. destruct pre as [|c' pre]; simpl in H.
      * left. now exists post.
      * right. exists pre, post. now inversion H.
Qed.

Lemma lower_append (a b : string) : Str.lower (a +++ b) = Str.lower a +++ Str.lower b.
Proof. induction a as [|x a IH]; simpl; [reflexivity | now rewrite IH]. Qed.

(** A piece of the lowered text is the lowering of a piece of the text. *)
Lemma lower_split (s a b : string) :
  Str.lower s = a +++ b ->
  exists s1 s2, s = s1 +++ s2 /\ Str.lower s1 = a /\ Str.lower s2 = b.
Proof.
  revert s. induction a as [|x a IH]; intros s H; simpl in H.
  - exists EmptyString, s. auto.
  - destruct s as [|c s]; simpl in H; [discriminate|].
    inversion H as [[Hc Hs]]. destruct (IH _ Hs) as [s1 [s2 [-> [H1 H2]]]].
    exists (String c s1), s2. simpl. rewrite H1. auto.
Qed.

(** ** The streaming flag *)

(** C8.  A venue type has streaming exactly when the text, letter case
    ignored, contains "stream"; so it has for "In-person & Streaming (Digital
    Concert Hall)" and has not for "In-person only". *)
Theorem return_if_venue_has_streaming_iff :
  (forall venue_type : string,
      return_if_venue_has_streaming venue_type = true
      <-> exists pre mid post,
            venue_type = pre +++ mid +++ post /\ Str.lower mid = "stream")
  /\ return_if_venue_has_streaming "In-person & Streaming (Digital Concert Hall)" = true
  /\ return_if_venue_has_streaming "In-person only" = false.
Proof.
  split; [|split; reflexivity].
  intros v. unfold return_if_venue_has_streaming. simpl existsb.
  rewrite orb_false_r, contains_spec. split.
  - intros [pre [post H]].
    destruct (lower_split _ _ _ H) as [s1 [s2 [-> [_ H2]]]].
    destruct (lower_split _ _ _ H2) as [mid [s3 [-> [Hm _]]]].
    now exists s1, mid, s3.
  - intros [pre [mid [post [-> Hm]]]].
    exists (Str.lower pre), (Str.lower post).
    now rewrite !lower_append, Hm.
Qed.

(** ** Prices *)

Section Nearest.
Local Open Scope Z_scope.

Lemma round_half_even_bounds (n d : Z) :
  0 < d -> n / d <= PyFloat.round_half_even n d /\ 2 * PyFloat.round_half_even n d * d <= 2 * n + d.
Proof.
  intros Hd. unfold PyFloat.round_half_even.
  pose proof (Z.div_mod n d ltac:(lia)) as E.
  pose proof (Z.mod_pos_bound n d Hd) as B.
  destruct (Z.compare_spec (2 * (n mod d)) d) as [H|H|H].
  - destruct (Z.even (n / d)); nia.
  - nia.
  - nia.
Qed.

Lemma ilog2_ratio_lower (num den : Z) :
  0 < num -> 0 < den ->
  let l := PyFloat.ilog2_ratio num den in
  (0 <= l -> den * 2 ^ l <= num) /\ (l < 0 -> den <= num * 2 ^ (- l)).
Proof.
  intros Hn Hd. unfold PyFloat.ilog2_ratio.
  pose proof (Z.log2_spec num Hn) as [Ha1 Ha2].
  pose proof (Z.log2_spec den Hd) as [Hb1 Hb2].
  pose proof (Z.log2_nonneg num) as Ha0.
  pose proof (Z.log2_nonneg den) as Hb0.
  set (a := Z.log2 num) in *. set (b := Z.log2 den) in *.
  destruct (Z.leb_spec 0 (a - b)) as [Hl|Hl].
  - destruct (Z.ltb_spec num (den * 2 ^ (a - b))) as [Hlt|Hge].
    + split; intros Hs.
      * (* l - 1 >= 0 *)
        assert (E : 2 ^ a = 2 ^ (b + 1) * 2 ^ (a - b - 1))
          by (rewrite <- Z.pow_add_r by lia; f_equal; lia).
        replace (Z.succ b) with (b + 1) in Hb2 by lia.
        assert (0 < 2 ^ (a - b - 1)) by (apply Z.pow_pos_nonneg; lia).
        nia.
      * assert (a - b = 0) as E0 by lia.
        replace (- (a - b - 1)) with 1 by lia.
        replace a with b in * by lia.
        replace (Z.succ b) with (b + 1) in Hb2 by lia.
        rewrite Z.pow_add_r in Hb2 by lia. change (2 ^ 1) with 2 in *. lia.
    + split; intros Hs; [lia | lia].
  - destruct (Z.ltb_spec (num * 2 ^ (- (a - b))) den) as [Hlt|Hge].
    + split; intros Hs; [lia|].
      replace (- (a - b - 1)) with (b + 1 - a) by lia.
      assert (E : 2 ^ (b + 1) = 2 ^ a * 2 ^ (b + 1 - a))
        by (rewrite <- Z.pow_add_r by lia; f_equal; lia).
      replace (Z.succ b) with (b + 1) in Hb2 by lia.
      assert (0 < 2 ^ (b + 1 - a)) by (apply Z.pow_pos_nonneg; lia).
      nia.
    + split; intros Hs; [lia | lia].
Qed.

(** The rounded significand stays below the next whole number of units. *)
Lemma rounded_below_next (num den P : Z) :
  0 < num < 2 ^ 53 -> 0 < den -> 1 <= P ->
  (den < 2 * P \/ 2 ^ 53 <= P) ->
  let m := PyFloat.round_half_even (num * P) den in
  (num / den) * P <= m < (num / den + 1) * P.
Proof.
  intros Hn Hd HP Hcase m.
  destruct (round_half_even_bounds (num * P) den Hd) as [Hlo Hhi]. fold m in Hlo, Hhi.
  pose proof (Z.div_mod num den ltac:(lia)) as E.
  pose proof (Z.mod_pos_bound num den Hd) as B.
  set (n := num / den) in *. set (r := num mod den) in *.
  assert (0 <= n) by (apply Z.div_pos; lia).
  split.
  - apply Z.le_trans with (num * P / den); [|exact Hlo].
    apply Z.div_le_lower_bound; [lia|]. nia.
  - destruct (Z.lt_ge_cases m ((n + 1) * P)) as [|Hge]; [assumption|exfalso].
    destruct Hcase as [Hc|Hc].
    + (* 2 (n+1) P den <= 2 m den <= 2 num P + den, with num <= (n+1) den - 1 *)
      assert (2 * ((n + 1) * P) * den <= 2 * (num * P) + den) by nia.
      nia.
    + assert (2 * ((n + 1) * P) * den <= 2 * (num * P) + den) by nia.
      nia.
Qed.

Lemma to_int_of_ratio (neg : bool) (num den : Z) :
  0 <= num < 2 ^ 53 -> 0 < den ->
  PyFloat.to_int (PyFloat.of_ratio neg num den) = Ok (signed neg (num / den)).
Proof.
  intros Hn Hd. unfold PyFloat.of_ratio.
  destruct (Z.eqb_spec num 0) as [->|Hnz].
  - simpl. rewrite Z.div_0_l by lia. destruct neg; reflexivity.
  - cbv zeta. assert (Hpos : 0 < num) by lia.
    destruct (ilog2_ratio_lower num den Hpos Hd) as [HL1 HL2].
    set (L := PyFloat.ilog2_ratio num den) in *.
    assert (HL : L <= 52).
    { destruct (Z.le_gt_cases L 52) as [|Hgt]; [assumption|exfalso].
      specialize (HL1 ltac:(lia)).
      assert (2 ^ 53 <= 2 ^ L) by (apply Z.pow_le_mono_r; lia).
      nia. }
    set (e := Z.max (L - 52) (-1074)) in *.
    assert (He : e <= 0) by lia.
    set (P := 2 ^ (- e)).
    assert (HP : 1 <= P) by (unfold P; pose proof (Z.pow_pos_nonneg 2 (- e)); lia).
    assert (Hm : (if 0 <=? e
                  then PyFloat.round_half_even num (den * 2 ^ e)
                  else PyFloat.round_half_even (num * P) den)
                 = PyFloat.round_half_even (num * P) den).
    { destruct (Z.leb_spec 0 e).
      - assert (e = 0) as E0 by lia. unfold P. rewrite E0. simpl.
        now rewrite !Z.mul_1_r.
      - reflexivity. }
    rewrite Hm. clear Hm.
    assert (Hcase : den < 2 * P \/ 2 ^ 53 <= P).
    { destruct (Z.max_spec (L - 52) (-1074)) as [[Hlt Hmax]|[Hlt Hmax]]; fold e in Hmax.
      - right. unfold P. rewrite Hmax. apply Z.pow_le_mono_r; lia.
      - left. unfold P. rewrite Hmax.
        replace (- (L - 52)) with (52 - L) by lia.
        assert (E2 : 2 * 2 ^ (52 - L) = 2 ^ (53 - L)).
        { replace (53 - L) with (1 + (52 - L)) by lia.
          rewrite Z.pow_add_r by lia. reflexivity. }
        rewrite E2.
        destruct (Z.le_gt_cases 0 L) as [HL0|HL0].
        + specialize (HL1 HL0).
          assert (E3 : 2 ^ 53 = 2 ^ (53 - L) * 2 ^ L)
            by (rewrite <- Z.pow_add_r by lia; f_equal; lia).
          assert (0 < 2 ^ L) by (apply Z.pow_pos_nonneg; lia).
          assert (0 < 2 ^ (53 - L)) by (apply Z.pow_pos_nonneg; lia).
          nia.
        + specialize (HL2 HL0).
          assert (E3 : 2 ^ (53 - L) = 2 ^ 53 * 2 ^ (- L))
            by (rewrite <- Z.pow_add_r by lia; f_equal; lia).
          assert (0 < 2 ^ (- L)) by (apply Z.pow_pos_nonneg; lia).
          nia. }
    pose proof (rounded_below_next num den P ltac:(lia) Hd HP Hcase) as [Hlo Hhi].
    set (m := PyFloat.round_half_even (num * P) den) in *.
    set (n := num / den) in *.
    assert (Hn0 : 0 <= n) by (apply Z.div_pos; lia).
    assert (Hn53 : n < 2 ^ 53).
    { apply Z.le_lt_trans with num; [|lia]. unfold n. apply Z.div_le_upper_bound; nia. }
    assert (Hm0 : 0 <= m) by nia.
    (* no overflow *)
    assert (Hov : (1024 <=? e + Z.log2 m) = false).
    { apply Z.leb_gt.
      destruct (Z.eq_dec m 0) as [->|Hmz]; [simpl; lia|].
      assert (Z.log2 m < 53 - e); [|lia].
      apply Z.log2_lt_pow2; [lia|].
      replace (53 - e) with (53 + - e) by lia.
      rewrite Z.pow_add_r by lia. fold P. nia. }
    rewrite Hov. simpl PyFloat.to_int.
    assert (Hq : m / P = n).
    { symmetry. apply Z.div_unique with (m - n * P); [left; lia | lia]. }
    f_equal. unfold signed.
    destruct (Z.leb_spec 0 e).
    + assert (e = 0) as E0 by lia.
      assert (P = 1) as P1 by (unfold P; now rewrite E0).
      rewrite E0. simpl (2 ^ 0). rewrite Z.mul_1_r.
      rewrite P1 in Hq. rewrite Z.div_1_r in Hq. now rewrite Hq.
    + fold P. now rewrite Hq.
Qed.

Lemma to_int_of_decimal (neg : bool) (d k : Z) :
  0 <= d < 2 ^ 53 -> 0 <= k ->
  PyFloat.to_int (PyFloat.of_decimal neg d (- k)) = Ok (signed neg (d / 10 ^ k)).
Proof.
  intros Hd Hk. unfold PyFloat.of_decimal.
  destruct (Z.leb_spec 0 (- k)).
  - assert (k = 0) as -> by lia. simpl (- 0). simpl (10 ^ 0).
    rewrite Z.mul_1_r. apply to_int_of_ratio; lia.
  - rewrite Z.opp_involutive. apply to_int_of_ratio; [lia|].
    apply Z.pow_pos_nonneg; lia.
Qed.

End Nearest.

Lemma lstrip_id (s : string) c : Str.isspace c = false -> Str.lstrip (String c s) = String c s.
Proof. intros H. simpl. now rewrite H. Qed.

Lemma rstrip_id (s : string) :
  all_chars (fun c => negb (Str.isspace c)) s = true -> Str.rstrip s = s.
Proof.
  induction s as [|c s IH]; simpl; [reflexivity|].
  intros H. apply andb_true_iff in H as [Hc Hs]. rewrite (IH Hs).
  destruct s; [|reflexivity].
  apply negb_true_iff in Hc. now rewrite Hc.
Qed.

Lemma c_rstrip_id (s : string) :
  all_chars (fun c => negb (PyFloat.c_isspace c)) s = true -> PyFloat.c_rstrip s = s.
Proof.
  induction s as [|c s IH]; simpl; [reflexivity|].
  intros H. apply andb_true_iff in H as [Hc Hs]. rewrite (IH Hs).
  destruct s; [|reflexivity].
  apply negb_true_iff in Hc. now rewrite Hc.
Qed.

Lemma all_chars_impl (p q : ascii -> bool) (s : string) :
  (forall c, p c = true -> q c = true) -> all_chars p s = true -> all_chars q s = true.
Proof.
  intros Hpq. induction s as [|c s IH]; simpl; [reflexivity|].
  intros H. apply andb_true_iff in H as [Hc Hs]. now rewrite (Hpq _ Hc), IH.
Qed.

Lemma all_chars_app (p : ascii -> bool) (a b : string) :
  all_chars p (a +++ b) = all_chars p a && all_chars p b.
Proof. induction a as [|c a IH]; simpl; [reflexivity | now rewrite IH, andb_assoc]. Qed.

Lemma isdigit_range c : Str.isdigit c = true -> 48 <= nat_of_ascii c <= 57.
Proof.
  unfold Str.isdigit. intros H. apply andb_true_iff in H as [H1 H2].
  apply Nat.leb_le in H1, H2. lia.
Qed.

Lemma plain_char_range c :
  plain_char c = true -> 46 <= nat_of_ascii c <= 57.
Proof.
  unfold plain_char. intros H. apply orb_true_iff in H as [H|H].
  - apply isdigit_range in H. lia.
  - apply Ascii.eqb_eq in H. subst. change (nat_of_ascii ".") with 46. lia.
Qed.

Lemma plain_not_space c : plain_char c = true -> negb (Str.isspace c) = true.
Proof.
  intros H. apply plain_char_range in H. unfold Str.isspace.
  apply negb_true_iff, orb_false_iff. split; apply andb_false_iff.
  - right. apply Nat.leb_gt. lia.
  - right. apply Nat.leb_gt. lia.
Qed.

Lemma plain_not_c_space c : plain_char c = true -> negb (PyFloat.c_isspace c) = true.
Proof.
  intros H. apply plain_char_range in H. unfold PyFloat.c_isspace.
  apply negb_true_iff, orb_false_iff. split.
  - apply andb_false_iff. right. apply Nat.leb_gt. lia.
  - apply Nat.eqb_neq. lia.
Qed.

Lemma ascii_eqb_nat (a b : ascii) : nat_of_ascii a <> nat_of_ascii b -> Ascii.eqb a b = false.
Proof. intros H. apply Ascii.eqb_neq. congruence. Qed.

(** No pound sign in a plain decimal: [replace] leaves it as it is. *)
Lemma replace_plain (s : string) :
  all_chars plain_char s = true -> Str.replace_from 0 Str.pound EmptyString s = s.
Proof.
  induction s as [|c s IH]; [reflexivity|].
  cbn [all_chars Str.replace_from].
  intros H. apply andb_true_iff in H as [Hc Hs].
  destruct (Str.startswith Str.pound (String c s)) eqn:E.
  - apply startswith_spec in E as [post E]. inversion E; subst.
    apply plain_char_range in Hc. change (nat_of_ascii "194") with 194 in Hc. lia.
  - now rewrite IH.
Qed.

Lemma drop_underscores_plain (prev : bool) (s : string) :
  all_chars plain_char s = true -> PyFloat.drop_underscores prev s = Some s.
Proof.
  revert prev. induction s as [|c s IH]; intros prev; simpl; [reflexivity|].
  intros H. apply andb_true_iff in H as [Hc Hs].
  rewrite ascii_eqb_nat by (apply plain_char_range in Hc; change (nat_of_ascii "_") with 95; lia).
  now rewrite IH.
Qed.


Section PlainDecimals.

Lemma read_sign_digit (c : ascii) (r : string) :
  Str.isdigit c = true -> PyFloat.read_sign (String c r) = (false, String c r).
Proof.
  intros H. destruct c as [[] [] [] [] [] [] [] []]; try reflexivity; discriminate H.
Qed.

Lemma not_a_word (c : ascii) (r : string) :
  Str.isdigit c = true ->
  let w := Str.lower (String c r) in
  String.eqb w "inf" || String.eqb w "infinity" = false /\ String.eqb w "nan" = false.
Proof.
  intros H. destruct c as [[] [] [] [] [] [] [] []]; try discriminate H; split; reflexivity.
Qed.

Lemma decimal_value_from_app (a b : string) (acc : Z) :
  decimal_value_from acc (a +++ b) = decimal_value_from (decimal_value_from acc a) b.
Proof. revert acc. induction a as [|c a IH]; intros acc; simpl; [reflexivity | apply IH]. Qed.

Lemma isdigit_plain c : Str.isdigit c = true -> plain_char c = true.
Proof. unfold plain_char. now intros ->. Qed.

(** What remains of a price text once the pound sign is gone. *)
Lemma strip_replace_pound (rest : string) :
  all_chars plain_char rest = true ->
  Str.replace Str.pound EmptyString (Str.strip (Str.pound +++ rest)) = rest.
Proof.
  intros H. unfold Str.strip.
  change (Str.pound +++ rest) with (String "194" (String "163" rest)).
  rewrite lstrip_id by reflexivity.
  rewrite rstrip_id.
  - unfold Str.replace. cbn [Str.replace_from].
    assert (E : Str.startswith Str.pound (String "194" (String "163" rest)) = true)
      by (apply startswith_spec; now exists rest).
    rewrite E. cbn [String.length Str.pound Nat.sub String.append Str.replace_from].
    now apply replace_plain.
  - cbn [all_chars]. change (negb (Str.isspace "194")) with true.
    change (negb (Str.isspace "163")) with true. cbn [andb].
    revert H. apply all_chars_impl, plain_not_space.
Qed.


Local Open Scope Z_scope.

Lemma read_digits_app (ds rest : string) (acc n : Z) :
  all_chars Str.isdigit ds = true ->
  match rest with String c _ => Str.isdigit c = false | EmptyString => True end ->
  PyFloat.read_digits acc n (ds +++ rest)
  = (decimal_value_from acc ds, n + Z.of_nat (String.length ds), rest).
Proof.
  revert acc n. induction ds as [|c ds IH]; intros acc n H Hrest.
  - simpl. rewrite Z.add_0_r. destruct rest as [|c r]; [reflexivity|].
    simpl. now rewrite Hrest.
  - cbn [all_chars] in H. apply andb_true_iff in H as [Hc Hs].
    cbn [String.append PyFloat.read_digits decimal_value_from String.length].
    rewrite Hc, IH by assumption. f_equal. f_equal. lia.
Qed.

Lemma digit_value_range c : Str.isdigit c = true -> 0 <= Str.digit_value c <= 9.
Proof. intros H. apply isdigit_range in H. unfold Str.digit_value. lia. Qed.

Lemma decimal_value_from_eq (ds : string) (acc : Z) :
  all_chars Str.isdigit ds = true ->
  decimal_value_from acc ds = acc * 10 ^ Z.of_nat (String.length ds) + decimal_value ds
  /\ 0 <= decimal_value ds < 10 ^ Z.of_nat (String.length ds).
Proof.
  unfold decimal_value. revert acc. induction ds as [|c ds IH]; intros acc H.
  - simpl. lia.
  - cbn [all_chars] in H. apply andb_true_iff in H as [Hc Hs].
    cbn [decimal_value_from String.length].
    destruct (IH (10 * acc + Str.digit_value c) Hs) as [E1 B].
    destruct (IH (10 * 0 + Str.digit_value c) Hs) as [E2 _].
    rewrite E1, E2. apply digit_value_range in Hc.
    rewrite Nat2Z.inj_succ, Z.pow_succ_r by lia.
    split; nia.
Qed.

(** [float] of digits, a point and digits. *)
Lemma of_string_plain (pounds pence : string) :
  pounds <> EmptyString ->
  all_chars Str.isdigit pounds = true -> all_chars Str.isdigit pence = true ->
  PyFloat.of_string (pounds +++ "." +++ pence)
  = Ok (PyFloat.of_decimal false (decimal_value (pounds +++ pence))
          (- Z.of_nat (String.length pence))).
Proof.
  intros Hne Hp Hf.
  assert (Hall : all_chars plain_char (pounds +++ "." +++ pence) = true).
  { rewrite !all_chars_app. cbn [all_chars]. change (plain_char ".") with true.
    rewrite (all_chars_impl _ _ _ isdigit_plain Hp), (all_chars_impl _ _ _ isdigit_plain Hf).
    reflexivity. }
  destruct pounds as [|c pounds]; [contradiction|].
  cbn [all_chars] in Hp. apply andb_true_iff in Hp as [Hc Hp].
  unfold PyFloat.of_string.
  assert (Hl : PyFloat.c_lstrip (String c pounds +++ "." +++ pence)
               = String c pounds +++ "." +++ pence).
  { cbn [String.append PyFloat.c_lstrip].
    pose proof (plain_not_c_space c (isdigit_plain c Hc)) as Hs.
    apply negb_true_iff in Hs. now rewrite Hs. }
  rewrite Hl, c_rstrip_id by (revert Hall; apply all_chars_impl, plain_not_c_space).
  rewrite drop_underscores_plain by assumption.
  change (String c pounds +++ "." +++ pence) with (String c (pounds +++ "." +++ pence)).
  rewrite read_sign_digit by assumption.
  destruct (not_a_word c (pounds +++ "." +++ pence) Hc) as [W1 W2].
  cbv zeta in W1, W2. rewrite W1, W2.
  change (String c (pounds +++ "." +++ pence)) with (String c pounds +++ "." +++ pence).
  rewrite read_digits_app; [| cbn [all_chars]; now rewrite Hc, Hp | reflexivity].
  cbn [String.append].
  rewrite <- (append_empty_r pence) at 1.
  rewrite read_digits_app; [| assumption | exact I].
  assert (Hnz : (0 + Z.of_nat (String.length (String c pounds))
                 + (0 + Z.of_nat (String.length pence)) =? 0) = false).
  { apply Z.eqb_neq. cbn [String.length]. lia. }
  rewrite Hnz. cbn [PyFloat.read_exponent].
  replace (0 - (0 + Z.of_nat (String.length pence)))
    with (- Z.of_nat (String.length pence)) by lia.
  unfold decimal_value.
  change (String c (pounds +++ pence)) with (String c pounds +++ pence).
  now rewrite decimal_value_from_app.
Qed.

(** [float] of digits alone. *)
Lemma of_string_digits (pounds : string) :
  pounds <> EmptyString ->
  all_chars Str.isdigit pounds = true ->
  PyFloat.of_string pounds = Ok (PyFloat.of_decimal false (decimal_value pounds) (- 0)).
Proof.
  intros Hne Hp.
  assert (Hall : all_chars plain_char pounds = true)
    by (revert Hp; apply all_chars_impl, isdigit_plain).
  destruct pounds as [|c pounds]; [contradiction|].
  pose proof Hp as Hp'.
  cbn [all_chars] in Hp. apply andb_true_iff in Hp as [Hc Hp].
  unfold PyFloat.of_string.
  assert (Hl : PyFloat.c_lstrip (String c pounds) = String c pounds).
  { cbn [PyFloat.c_lstrip].
    pose proof (plain_not_c_space c (isdigit_plain c Hc)) as Hs.
    apply negb_true_iff in Hs. now rewrite Hs. }
  rewrite Hl, c_rstrip_id by (revert Hall; apply all_chars_impl, plain_not_c_space).
  rewrite drop_underscores_plain by assumption.
  rewrite read_sign_digit by assumption.
  destruct (not_a_word c pounds Hc) as [W1 W2].
  cbv zeta in W1, W2. rewrite W1, W2.
  rewrite <- (append_empty_r (String c pounds)) at 1.
  rewrite read_digits_app; [| assumption | exact I].
  assert (Hnz : (0 + Z.of_nat (String.length (String c pounds)) + 0 =? 0) = false).
  { apply Z.eqb_neq. cbn [String.length]. lia. }
  rewrite Hnz. cbn [PyFloat.read_exponent]. reflexivity.
Qed.


End PlainDecimals.

(** C6.  The price of a ticket is its text without the pound sign, read as a
    decimal number and cut to its whole pounds: 12 for "£12.50" and 9 for
    "£9"; and so for every price written with digits, with or without a
    point and more digits, of up to 53 bits. *)
Theorem parse_price_truncates :
  parse_price (Str.pound +++ "12.50") = Ok 12%Z
  /\ parse_price (Str.pound +++ "9") = Ok 9%Z
  /\ (forall pounds pence : string,
         pounds <> EmptyString ->
         all_chars Str.isdigit pounds = true ->
         all_chars Str.isdigit pence = true ->
         (decimal_value (pounds +++ pence) < 2 ^ 53)%Z ->
         parse_price (Str.pound +++ pounds +++ "." +++ pence)
         = Ok (decimal_value pounds))
  /\ (forall pounds : string,
         pounds <> EmptyString ->
         all_chars Str.isdigit pounds = true ->
         (decimal_value pounds < 2 ^ 53)%Z ->
         parse_price (Str.pound +++ pounds) = Ok (decimal_value pounds)).
Proof.
  split; [vm_compute; reflexivity|].
  split; [vm_compute; reflexivity|].
  split.
  - intros pounds pence Hne Hp Hf Hlt. unfold parse_price.
    assert (Hall : all_chars Str.isdigit (pounds +++ pence) = true)
      by (now rewrite all_chars_app, Hp, Hf).
    rewrite strip_replace_pound.
    + rewrite of_string_plain by assumption. cbn [bind].
      destruct (decimal_value_from_eq _ 0%Z Hall) as [_ B].
      rewrite to_int_of_decimal by lia.
      f_equal. unfold signed, decimal_value in *.
      rewrite decimal_value_from_app.
      destruct (decimal_value_from_eq pence (decimal_value_from 0 pounds) Hf) as [E Bf].
      rewrite E. symmetry.
      apply Z.div_unique with (decimal_value pence);
        [left; exact Bf | unfold decimal_value; lia].
    + rewrite !all_chars_app. cbn [all_chars]. change (plain_char ".") with true.
      rewrite (all_chars_impl _ _ _ isdigit_plain Hp),
        (all_chars_impl _ _ _ isdigit_plain Hf).
      reflexivity.
  - intros pounds Hne Hp Hlt. unfold parse_price.
    rewrite strip_replace_pound by (revert Hp; apply all_chars_impl, isdigit_plain).
    rewrite of_string_digits by assumption. cbn [bind].
    destruct (decimal_value_from_eq _ 0%Z Hp) as [_ B].
    rewrite to_int_of_decimal by lia.
    f_equal. unfold signed. simpl (10 ^ 0)%Z. now rewrite Z.div_1_r.
Qed.

Lemma parse_price_truncates_witness :
  parse_price (Str.pound +++ "19" +++ "." +++ "99") = Ok 19%Z
  /\ parse_price (Str.pound +++ "250") = Ok 250%Z.
Proof.
  split.
  - apply (proj1 (proj2 (proj2 parse_price_truncates)) "19" "99");
      [discriminate | reflexivity | reflexivity | vm_compute; reflexivity].
  - apply (proj2 (proj2 (proj2 parse_price_truncates)) "250");
      [discriminate | reflexivity | vm_compute; reflexivity].
Defined.

(** A float has 53 bits: a price written with more digits than that is first
    rounded to the nearest float, and can reach the next pound. *)
Example parse_price_long_fraction :
  parse_price (Str.pound +++ "0.99999999999999999") = Ok 1%Z.
Proof. vm_compute. reflexivity. Qed.

(** A price that is no number raises [ValueError]. *)
Example parse_price_not_a_number : parse_price "free" = Raise ValueError.
Proof. vm_compute. reflexivity. Qed.

(** ** The exporter *)

Lemma export_success (os : Exporter.os_model) (num_rows num_cols : nat) :
  Exporter.write_error os "oxford_lieder-2021-ticket_list.csv" = None ->
  Exporter.write_error os "oxford_lieder-2021-ticket_list.html" = None ->
  Exporter.export os num_rows num_cols
  = ["CSV export succeeded [" +++ Str.of_nat num_rows +++ " rows, "
       +++ Str.of_nat num_cols +++ " columns]: "
       +++ Exporter.abspath os "oxford_lieder-2021-ticket_list.csv";
     "HTML export succeeded [" +++ Str.of_nat num_rows +++ " rows, "
       +++ Str.of_nat num_cols +++ " columns]: "
       +++ Exporter.abspath os "oxford_lieder-2021-ticket_list.html"].
Proof.
  intros Hc Hh. unfold Exporter.export, Exporter.try_suite.
  change (Exporter.EXPORT_FILE_BASE +++ ".csv") with "oxford_lieder-2021-ticket_list.csv".
  change (Exporter.EXPORT_FILE_BASE +++ ".html") with "oxford_lieder-2021-ticket_list.html".
  rewrite Hc, Hh. cbn [Str.join].
  rewrite ?append_assoc. reflexivity.
Qed.

(** A failed write of either file prints one line and no success line; the
    line names the CSV file. *)
Lemma export_failure (os : Exporter.os_model) (num_rows num_cols : nat) (e : string) :
  Exporter.try_suite os "oxford_lieder-2021-ticket_list.csv"
    "oxford_lieder-2021-ticket_list.html" = Some e ->
  Exporter.export os num_rows num_cols
  = ["There was an error exporting oxford_lieder-2021-ticket_list.csv: " +++ e].
Proof.
  intros H. unfold Exporter.export.
  change (Exporter.EXPORT_FILE_BASE +++ ".csv") with "oxford_lieder-2021-ticket_list.csv".
  change (Exporter.EXPORT_FILE_BASE +++ ".html") with "oxford_lieder-2021-ticket_list.html".
  now rewrite H.
Qed.

(** C4.  When the CSV file is written and the write of the HTML page fails,
    the one line printed names the CSV file as the export in error, not the
    HTML page whose write failed; the path of the page appears only as far
    as the text of the operating system error holds it. *)
Theorem export_html_failure_names_csv :
  Exporter.write_error Example.html_write_fails "oxford_lieder-2021-ticket_list.csv" = None
  /\ Exporter.write_error Example.html_write_fails "oxford_lieder-2021-ticket_list.html"
     = Some "[Errno 13] Permission denied: 'oxford_lieder-2021-ticket_list.html'"
  /\ Exporter.export Example.html_write_fails 2 14
     = ["There was an error exporting oxford_lieder-2021-ticket_list.csv: "
        +++ "[Errno 13] Permission denied: 'oxford_lieder-2021-ticket_list.html'"].
Proof. repeat split. Qed.

(** ** Dates and times

    Every match of the regular expression splits the text into the groups of
    the format. *)

Module StrptimeFacts.

Import Strptime.

Lemma between_In (lo hi c : ascii) :
  between lo hi c = true ->
  In c (map ascii_of_nat (seq (nat_of_ascii lo) (S (nat_of_ascii hi) - nat_of_ascii lo))).
Proof.
  unfold between. intros H. apply andb_true_iff in H as [H1 H2].
  apply Nat.leb_le in H1, H2. apply in_map_iff.
  exists (nat_of_ascii c). split; [apply ascii_nat_embedding | apply in_seq; lia].
Qed.

Lemma isdigit_In (c : ascii) :
  Str.isdigit c = true -> In c (map ascii_of_nat (seq 48 10)).
Proof. intros H. exact (between_In "0" "9" c H). Qed.

Lemma is_char_eq (x c : ascii) : is_char x c = true -> c = x.
Proof. unfold is_char. intros H. apply Ascii.eqb_eq in H. congruence. Qed.

Lemma one_sound (p : ascii -> bool) (s m r : string) :
  In (m, r) (one p s) ->
  exists a, s = String a r /\ m = String a EmptyString /\ p a = true.
Proof.
  unfold one. destruct s as [|a s]; [intros []|].
  destruct (p a) eqn:E; [|intros []].
  intros [H|[]]. inversion H; subst. now exists a.
Qed.

Lemma two_sound (p q : ascii -> bool) (s m r : string) :
  In (m, r) (two p q s) ->
  exists a b, s = String a (String b r) /\ m = String a (String b EmptyString)
              /\ p a = true /\ q b = true.
Proof.
  unfold two. destruct s as [|a [|b s]]; try (intros []).
  destruct (p a && q b) eqn:E; [|intros []].
  apply andb_true_iff in E as [E1 E2].
  intros [H|[]]. inversion H; subst. now exists a, b.
Qed.

Ltac enumerate_chars :=
  repeat match goal with
         | H : is_char _ _ = true |- _ => apply is_char_eq in H; subst
         | H : between _ _ _ = true |- _ => apply between_In in H; simpl in H
         | H : Str.isdigit _ = true |- _ => apply isdigit_In in H; simpl in H
         | H : _ \/ _ |- _ => destruct H
         | H : False |- _ => destruct H
         | H : _ = _ |- _ => subst
         end.

Lemma re_d_sound (s m r : string) :
  In (m, r) (re_d s) -> s = m +++ r /\ day_text m = true.
Proof.
  unfold re_d. rewrite !in_app_iff.
  intros [H|[H|[H|[H|H]]]];
    first [ apply two_sound in H as (a & b & -> & -> & Ha & Hb)
          | apply one_sound in H as (a & -> & -> & Ha) ];
    (split; [reflexivity|]); enumerate_chars; reflexivity.
Qed.

Lemma re_H_sound (s m r : string) :
  In (m, r) (re_H s) -> s = m +++ r /\ hour_text m = true.
Proof.
  unfold re_H. rewrite !in_app_iff.
  intros [H|[H|H]];
    first [ apply two_sound in H as (a & b & -> & -> & Ha & Hb)
          | apply one_sound in H as (a & -> & -> & Ha) ];
    (split; [reflexivity|]); enumerate_chars; reflexivity.
Qed.

Lemma re_M_sound (s m r : string) :
  In (m, r) (re_M s) -> s = m +++ r /\ minute_text m = true.
Proof.
  unfold re_M. rewrite !in_app_iff.
  intros [H|H];
    first [ apply two_sound in H as (a & b & -> & -> & Ha & Hb)
          | apply one_sound in H as (a & -> & -> & Ha) ];
    (split; [reflexivity|]); enumerate_chars; reflexivity.
Qed.

Lemma re_Y_sound (s m r : string) :
  In (m, r) (re_Y s) -> s = m +++ r /\ year_text m = true.
Proof.
  unfold re_Y. destruct s as [|a [|b [|c [|d s]]]]; try (intros []).
  destruct (Str.isdigit a && Str.isdigit b && Str.isdigit c && Str.isdigit d) eqn:E;
    [|intros []].
  intros [H|[]]. inversion H; subst. split; [reflexivity|].
  unfold year_text. cbn [String.length all_chars Nat.eqb andb].
  apply andb_true_iff in E as [E Ed]. apply andb_true_iff in E as [E Ec].
  apply andb_true_iff in E as [Ea Eb]. now rewrite Ea, Eb, Ec, Ed.
Qed.

Lemma re_b_sound (s m r : string) :
  In (m, r) (re_b s) -> s = m +++ r /\ month_text m = true.
Proof.
  unfold re_b. destruct s as [|a [|b [|c s]]]; try (intros []).
  match goal with |- In _ (if ?t then _ else _) -> _ => destruct t eqn:E end; [|intros []].
  intros [H|[]]. inversion H; subst. split; [reflexivity|].
  unfold month_text. now rewrite E.
Qed.

Lemma re_spaces0_sound (s m r : string) :
  In (m, r) (re_spaces0 s) -> s = m +++ r /\ all_chars Str.isspace m = true.
Proof.
  revert m r. induction s as [|c s IH]; intros m r; cbn [re_spaces0].
  - intros [H|[]]. inversion H; subst. now split.
  - destruct (Str.isspace c) eqn:E.
    + rewrite in_app_iff, in_map_iff.
      intros [[[m' r'] [H Hin]]|[H|[]]].
      * inversion H; subst. cbn [fst snd] in *.
        destruct (IH _ _ Hin) as [-> Hm]. split; [reflexivity|].
        cbn [all_chars]. now rewrite E, Hm.
      * inversion H; subst. now split.
    + intros [H|[]]. inversion H; subst. now split.
Qed.

Lemma re_spaces_sound (s m r : string) :
  In (m, r) (re_spaces s) -> s = m +++ r /\ space_text m = true.
Proof.
  unfold re_spaces. destruct s as [|c s]; [intros []|].
  destruct (Str.isspace c) eqn:E; [|intros []].
  rewrite in_map_iff. intros [[m' r'] [H Hin]].
  inversion H; subst. cbn [fst snd] in *.
  destruct (re_spaces0_sound _ _ _ Hin) as [-> Hm]. split; [reflexivity|].
  unfold space_text. cbn [String.length all_chars Nat.leb andb]. now rewrite E, Hm.
Qed.

Lemma re_colon_sound (s m r : string) :
  In (m, r) (re_colon s) -> s = ":" +++ r.
Proof.
  unfold re_colon. intros H. apply one_sound in H as (a & -> & -> & Ha).
  apply is_char_eq in Ha. now subst.
Qed.

Lemma then_In {A : Type} (p : matcher) (k : string -> string -> list A) (s : string) (x : A) :
  In x (then_ p k s) -> exists m r, In (m, r) (p s) /\ In x (k m r).
Proof.
  unfold then_. rewrite in_flat_map. intros [[m r] [H1 H2]]. now exists m, r.
Qed.

Lemma re_format_sound (s rest : string) (g : groups) :
  In (g, rest) (re_format s) ->
  exists ws1 ws2 ws3,
    s = g_d g +++ ws1 +++ g_b g +++ ws2 +++ g_Y g +++ ws3 +++ g_H g +++ ":" +++ g_M g +++ rest
    /\ day_text (g_d g) = true /\ space_text ws1 = true
    /\ month_text (g_b g) = true /\ space_text ws2 = true
    /\ year_text (g_Y g) = true /\ space_text ws3 = true
    /\ hour_text (g_H g) = true /\ minute_text (g_M g) = true.
Proof.
  unfold re_format. intros H.
  apply then_In in H as (d & r1 & Hd & H). apply re_d_sound in Hd as [-> Hd].
  apply then_In in H as (w1 & r2 & Hw1 & H). apply re_spaces_sound in Hw1 as [-> Hw1].
  apply then_In in H as (b & r3 & Hb & H). apply re_b_sound in Hb as [-> Hb].
  apply then_In in H as (w2 & r4 & Hw2 & H). apply re_spaces_sound in Hw2 as [-> Hw2].
  apply then_In in H as (y & r5 & Hy & H). apply re_Y_sound in Hy as [-> Hy].
  apply then_In in H as (w3 & r6 & Hw3 & H). apply re_spaces_sound in Hw3 as [-> Hw3].
  apply then_In in H as (h & r7 & Hh & H). apply re_H_sound in Hh as [-> Hh].
  apply then_In in H as (c & r8 & Hc & H). apply re_colon_sound in Hc as ->.
  apply then_In in H as (m & r9 & Hm & H). apply re_M_sound in Hm as [-> Hm].
  destruct H as [H|[]]. inversion H; subst. cbn [g_d g_b g_Y g_H g_M].
  exists w1, w2, w3. repeat split; assumption.
Qed.

Lemma strptime_sound (s : string) (t : datetime) :
  strptime s = Ok t -> exists g, matches_format s g /\ t = of_groups g.
Proof.
  unfold strptime. destruct (re_format s) as [|[g rest] l] eqn:E; [discriminate|].
  destruct rest; [|discriminate].
  destruct (valid (of_groups g)) eqn:V; [|discriminate].
  intros H. inversion H; subst. exists g. split; [|reflexivity].
  assert (Hin : In (g, EmptyString) (re_format s)) by (rewrite E; now left).
  apply re_format_sound in Hin as (w1 & w2 & w3 & Hs & H1 & H2 & H3 & H4 & H5 & H6 & H7 & H8).
  exists w1, w2, w3. rewrite append_empty_r in Hs. repeat split; assumption.
Qed.


End StrptimeFacts.



(** No text is the empty text: a block whose icon is followed by nothing to
    read raises. *)
Example empty_text_matches_nothing (g : Strptime.groups) : ~ matches_format EmptyString g.
Proof.
  intros (w1 & w2 & w3 & H & Hd & _).
  destruct (Strptime.g_d g); [discriminate Hd | discriminate H].
Qed.

(** ** Dictionaries *)

Lemma string_eqb_sym (a b : string) : String.eqb a b = String.eqb b a.
Proof.
  destruct (String.eqb_spec a b) as [->|H].
  - now rewrite String.eqb_refl.
  - symmetry. apply String.eqb_neq. congruence.
Qed.

Lemma get_setitem {V : Type} (k k' : string) (v : V) (d : Dict.t V) :
  Dict.get k' (Dict.setitem k v d) = if String.eqb k' k then Some v else Dict.get k' d.
Proof.
  unfold Dict.get. induction d as [|[k0 v0] d IH]; cbn [Dict.setitem assoc].
  - reflexivity.
  - destruct (String.eqb_spec k k0) as [->|Hk]; cbn [assoc].
    + now destruct (String.eqb k' k0).
    + destruct (String.eqb_spec k' k0) as [->|Hk'].
      * destruct (String.eqb_spec k0 k); [congruence | reflexivity].
      * exact IH.
Qed.

Lemma get_In {V : Type} (k : string) (v : V) (d : Dict.t V) :
  Dict.get k d = Some v -> In (k, v) d.
Proof.
  unfold Dict.get. induction d as [|[k0 v0] d IH]; cbn [assoc]; [discriminate|].
  destruct (String.eqb_spec k k0) as [->|Hk].
  - intros H. inversion H. now left.
  - intros H. right. now apply IH.
Qed.

Lemma get_None_keys {V : Type} (k : string) (d : Dict.t V) :
  Dict.get k d = None <-> ~ In k (Dict.keys d).
Proof.
  unfold Dict.get, Dict.keys. induction d as [|[k0 v0] d IH]; cbn [assoc map fst In].
  - tauto.
  - destruct (String.eqb_spec k k0) as [->|Hk].
    + split; [discriminate | intros H; exfalso; apply H; now left].
    + rewrite IH. split; [intros H [E|E]; [congruence | now apply H] | tauto].
Qed.

Lemma In_get {V : Type} (k : string) (v : V) (d : Dict.t V) :
  NoDup (Dict.keys d) -> In (k, v) d -> Dict.get k d = Some v.
Proof.
  unfold Dict.get, Dict.keys. induction d as [|[k0 v0] d IH]; cbn [assoc map fst In].
  - intros _ [].
  - intros Hnd [H|H].
    + inversion H; subst. now rewrite String.eqb_refl.
    + inversion Hnd as [|? ? Hnotin Hnd']; subst.
      destruct (String.eqb_spec k k0) as [->|Hk].
      * exfalso. apply Hnotin. apply in_map_iff. now exists (k0, v).
      * now apply IH.
Qed.

Lemma keys_setitem {V : Type} (k : string) (v : V) (d : Dict.t V) :
  Dict.keys (Dict.setitem k v d)
  = if Dict.contains k d then Dict.keys d else Dict.keys d ++ [k].
Proof.
  unfold Dict.contains, Dict.get, Dict.keys.
  induction d as [|[k0 v0] d IH]; cbn [Dict.setitem assoc map fst app].
  - reflexivity.
  - destruct (String.eqb_spec k k0) as [->|Hk]; cbn [map fst].
    + reflexivity.
    + rewrite IH. now destruct (assoc k d).
Qed.

Lemma contains_keys {V : Type} (k : string) (d : Dict.t V) :
  Dict.contains k d = true <-> In k (Dict.keys d).
Proof.
  unfold Dict.contains. destruct (Dict.get k d) eqn:E.
  - split; [intros _|reflexivity]. apply get_In in E.
    apply in_map_iff. now exists (k, v).
  - apply get_None_keys in E. split; [discriminate | contradiction].
Qed.

Lemma NoDup_keys_setitem {V : Type} (k : string) (v : V) (d : Dict.t V) :
  NoDup (Dict.keys d) -> NoDup (Dict.keys (Dict.setitem k v d)).
Proof.
  intros H. rewrite keys_setitem. destruct (Dict.contains k d) eqn:E; [assumption|].
  apply NoDup_app; [assumption | constructor; [intros [] | constructor] |].
  intros x Hx [<-|[]]. apply contains_keys in Hx. congruence.
Qed.

Lemma In_setitem {V : Type} (k k' : string) (v v' : V) (d : Dict.t V) :
  In (k', v') (Dict.setitem k v d) -> (k' = k /\ v' = v) \/ In (k', v') d.
Proof.
  induction d as [|[k0 v0] d IH]; cbn [Dict.setitem In].
  - intros [H|[]]. inversion H. now left.
  - destruct (String.eqb_spec k k0) as [->|Hk]; cbn [In].
    + intros [H|H]; [inversion H; now left | right; now right].
    + intros [H|H]; [right; now left|].
      destruct (IH H) as [?|?]; [now left | right; now right].
Qed.

(** ** The event extractor *)

Section EventFacts.

Variable decode : node -> string.
Variable normalize_NFKC : string -> string.
Variable unquote : string -> string.

Lemma comprehension_Forall2 {A B : Type} (f : A -> result B) (l : list A) (ys : list B) :
  comprehension f l = Ok ys -> Forall2 (fun x y => f x = Ok y) l ys.
Proof.
  revert ys. induction l as [|x l IH]; intros ys; cbn [comprehension].
  - intros H. inversion H. constructor.
  - destruct (f x) as [y|e] eqn:E; [|discriminate]. cbn [bind].
    destruct (comprehension f l) as [ys'|e]; [|discriminate]. cbn [bind].
    intros H. inversion H. constructor; [assumption | now apply IH].
Qed.

Lemma comprehension_total {A B : Type} (f : A -> result B) (l : list A) :
  Forall (fun x => exists y, f x = Ok y) l -> exists ys, comprehension f l = Ok ys.
Proof.
  induction 1 as [|x l [y Hy] _ [ys IH]]; cbn [comprehension].
  - now exists [].
  - rewrite Hy, IH. cbn [bind]. now exists (y :: ys).
Qed.

Lemma event_loop_comprehension (event_list : list Tag) (acc : list event_record) :
  event_loop decode normalize_NFKC unquote event_list acc
  = (records <- comprehension (event_record_of decode normalize_NFKC unquote) event_list ;;
     Ok (acc ++ records)).
Proof.
  revert acc. induction event_list as [|event rest IH]; intros acc;
    cbn [event_loop comprehension bind].
  - now rewrite app_nil_r.
  - destruct (event_record_of decode normalize_NFKC unquote event) as [r|e];
      cbn [bind]; [|reflexivity].
    rewrite IH.
    destruct (comprehension _ rest) as [rs|e]; cbn [bind]; [|reflexivity].
    now rewrite <- app_assoc.
Qed.

(** The value lists of a parsed query are never empty. *)
Lemma parse_qs_nonempty (qs key : string) (values : list string) :
  Dict.get key (parse_qs unquote qs) = Some values -> values <> [].
Proof.
  unfold parse_qs.
  assert (G : forall (l : list (string * string)) (d : Dict.t (list string)),
             (forall k vs, Dict.get k d = Some vs -> vs <> []) ->
             forall k vs,
               Dict.get k
                 (fold_left
                    (fun parsed_result nv =>
                       match Dict.get (fst nv) parsed_result with
                       | Some l => Dict.setitem (fst nv) (l ++ [snd nv]) parsed_result
                       | None => Dict.setitem (fst nv) [snd nv] parsed_result
                       end) l d) = Some vs -> vs <> []).
  { induction l as [|[n v] l IH]; intros d Hd k vs; cbn [fold_left fst snd].
    - apply Hd.
    - apply IH. intros k' vs'.
      destruct (Dict.get n d) as [l0|]; rewrite get_setitem;
        destruct (String.eqb k' n); try apply Hd;
        intros H; inversion H; [now destruct l0 | discriminate]. }
  apply G. intros k vs. discriminate.
Qed.

Lemma event_record_of_populated (event : Tag) (r : event_record) :
  event_record_of decode normalize_NFKC unquote event = Ok r -> populated r.
Proof.
  unfold event_record_of.
  destruct (get_event_date_and_time decode event) as [[d t]|e]; [|discriminate].
  cbn [bind].
  destruct (get_event_title_and_urls event) as [[[ti su] lu]|e]; [|discriminate].
  cbn [bind].
  destruct (get_event_description_blurb decode normalize_NFKC event) as [b|e]; [|discriminate].
  cbn [bind].
  destruct (get_event_venue event) as [v|e]; [|discriminate].
  cbn [bind].
  destruct (get_event_artist_list event) as [al|e]; [|discriminate].
  cbn [bind].
  destruct (get_event_categories unquote event) as [cl|e]; [|discriminate].
  cbn [bind].
  intros H. inversion H; subst. split.
  - intros k. destruct k; cbv [set_field Col.eqb]; discriminate.
  - reflexivity.
Qed.

Lemma event_record_of_total (event : Tag) :
  well_formed_event decode unquote event ->
  exists r, event_record_of decode normalize_NFKC unquote event = Ok r.
Proof.
  intros ((s & t & Hs & Ht) & (h4 & a & href & Hh & Ha & Hhref)
          & (p & blurb & Hp & Hblurb) & (small & place & Hsm & Hplace)
          & (ul & Hul) & Hcat).
  unfold event_record_of.
  unfold get_event_date_and_time. rewrite Hs, Ht. cbn [bind].
  unfold get_event_title_and_urls, getitem_attr. rewrite Hh, Ha, Hhref. cbn [bind].
  unfold get_event_description_blurb. rewrite Hp. cbn [bind]. rewrite Hblurb. cbn [bind].
  unfold get_event_venue. rewrite Hsm, Hplace.
  assert (Hlast : exists last, getitem_last (Str.rsplit "|" place) = Ok last).
  { unfold getitem_last.
    assert (Hne : Str.rsplit "|" place <> []).
    { unfold Str.rsplit. destruct place as [|c place]; cbn [Str.split]; [discriminate|].
      destruct (Ascii.eqb c "|"); [discriminate|].
      destruct (Str.split "|" place); discriminate. }
    destruct (rev (Str.rsplit "|" place)) as [|x l] eqn:E.
    - exfalso. apply Hne. apply (f_equal (@rev string)) in E.
      now rewrite rev_involutive in E.
    - now exists x. }
  destruct Hlast as [last ->]. cbn [bind].
  unfold get_event_artist_list. rewrite Hul. cbn [bind].
  assert (Hc : exists cl, get_event_categories unquote event = Ok cl).
  { unfold get_event_categories. apply comprehension_total.
    eapply Forall_impl; [|exact Hcat].
    intros c (u & Hu & Hq). unfold getitem_attr. rewrite Hu. cbn [bind].
    unfold Dict.contains in Hq. unfold Dict.getitem.
    destruct (Dict.get "?category" (parse_qs unquote u)) as [vs|] eqn:E; [|discriminate].
    cbn [bind]. apply parse_qs_nonempty in E.
    destruct vs as [|v vs]; [contradiction|]. now exists v. }
  destruct Hc as [cl ->]. cbn [bind]. eauto.
Qed.

End EventFacts.

(** C7.  On a well-formed listing page [extract_event_metadata] returns
    one record for each event block, in order, and every column of every
    record is set (none is left at the [None] of [dict.fromkeys]), with
    [interested] set to 0. *)
Theorem extract_event_metadata_one_record_per_block
  (decode normalize_NFKC unquote : _) (event_list : list Tag) :
  Forall (well_formed_event decode unquote) event_list ->
  exists records,
    extract_event_metadata decode normalize_NFKC unquote event_list = Ok records
    /\ length records = length event_list
    /\ Forall2 (fun event r => event_record_of decode normalize_NFKC unquote event = Ok r)
         event_list records
    /\ Forall populated records.
Proof.
  intros Hwf. unfold extract_event_metadata. rewrite event_loop_comprehension.
  destruct (comprehension_total (event_record_of decode normalize_NFKC unquote) event_list)
    as [records E].
  { eapply Forall_impl; [|exact Hwf]. intros ev. apply event_record_of_total. }
  rewrite E. cbn [bind app]. exists records.
  pose proof (comprehension_Forall2 _ _ _ E) as F2.
  split; [reflexivity|]. split; [symmetry; exact (Forall2_length F2)|].
  split; [exact F2|].
  clear E Hwf. induction F2 as [|ev r evs rs H _ IH]; constructor; [|exact IH].
  exact (event_record_of_populated _ _ _ _ _ H).
Qed.

Lemma recital_a_well_formed :
  well_formed_event Example.no_tags Example.plain Example.recital_a.
Proof.
  repeat split.
  - eexists. eexists. split; reflexivity.
  - eexists. eexists. eexists. repeat split; reflexivity.
  - eexists. eexists. split; reflexivity.
  - eexists. eexists. split; reflexivity.
  - eexists. reflexivity.
  - repeat constructor. eexists. split; reflexivity.
Qed.

Lemma extract_event_metadata_one_record_per_block_witness :
  exists records,
    extract_event_metadata Example.no_tags Example.plain Example.plain [Example.recital_a]
    = Ok records
    /\ length records = 1
    /\ Forall2 (fun event r =>
                  event_record_of Example.no_tags Example.plain Example.plain event = Ok r)
         [Example.recital_a] records
    /\ Forall populated records.
Proof.
  apply (extract_event_metadata_one_record_per_block
           Example.no_tags Example.plain Example.plain [Example.recital_a]).
  constructor; [exact recital_a_well_formed | constructor].
Defined.

(** ** The ticket extractor *)

Lemma aligned_seed (ticket_data : ticket_data) : aligned (seed ticket_data).
Proof. unfold aligned, seed, for_each_field. cbn. repeat split; auto. Qed.

Lemma aligned_append_row (g : ticket_lists) (ticket_data : ticket_data) :
  aligned g -> aligned (append_row g ticket_data).
Proof.
  destruct g as [types venues streams prices].
  unfold aligned, append_row, for_each_field2.
  cbn [ticket_type venue_type is_streaming ticket_price_gbp].
  rewrite !length_app. cbn [length]. lia.
Qed.

Lemma ticket_mapping_empty : ticket_mapping Dict.empty.
Proof. split; [constructor | intros key g []]. Qed.

Lemma ticket_mapping_setitem (d : Dict.t ticket_lists) (key : string) (g : ticket_lists) :
  ticket_mapping d -> aligned g -> ticket_mapping (Dict.setitem key g d).
Proof.
  intros [Hnd Hal] Hg. split.
  - now apply NoDup_keys_setitem.
  - intros k' g' Hin. apply In_setitem in Hin as [[_ ->]|Hin]; [assumption|].
    exact (Hal _ _ Hin).
Qed.

Lemma ticket_step_mapping (st st' : ticket_state) (row : Tag) :
  ticket_mapping (fst st) -> ticket_step st row = Ok st' -> ticket_mapping (fst st').
Proof.
  destruct st as [d last]. cbn [fst]. intros Hd. unfold ticket_step.
  destruct (row_ticket_data row) as [td|e]; [|discriminate]. cbn [bind].
  destruct (select_one_a_href_prefix "/event" row) as [a|].
  - destruct (getitem_attr "href" a) as [key|e]; [|discriminate]. cbn [bind].
    destruct (Dict.contains key d); cbn [negb]; intros H; inversion H; subst; cbn [fst].
    + assumption.
    + apply ticket_mapping_setitem; [assumption | apply aligned_seed].
  - unfold Dict.getitem. destruct (Dict.get last d) as [g|] eqn:E; [|discriminate].
    cbn [bind]. intros H. inversion H; subst. cbn [fst].
    apply ticket_mapping_setitem; [assumption|].
    apply aligned_append_row. destruct Hd as [_ Hal]. apply (Hal last). now apply get_In.
Qed.

Lemma ticket_loop_mapping (rows : list Tag) (st st' : ticket_state) :
  ticket_mapping (fst st) -> ticket_loop rows st = Ok st' -> ticket_mapping (fst st').
Proof.
  revert st. induction rows as [|row rows IH]; intros st Hd; cbn [ticket_loop].
  - intros H. now inversion H; subst.
  - destruct (ticket_step st row) as [st1|e] eqn:E; [|discriminate]. cbn [bind].
    apply IH. exact (ticket_step_mapping _ _ _ Hd E).
Qed.

(** C9.  Whenever [extract_ticket_price_options] returns, the four lists
    under every key of the mapping have one length, at least 1; seeding a
    new key, skipping a key that is there, and appending a continuation row
    each keep it so. *)
Theorem ticket_lists_stay_aligned :
  (forall rows d,
      extract_ticket_price_options rows = Ok d ->
      ticket_mapping d /\ forall key g, Dict.get key d = Some g -> aligned g)
  /\ (forall d key ticket_data,
         ticket_mapping d -> ticket_mapping (Dict.setitem key (seed ticket_data) d))
  /\ (forall d key g ticket_data,
         ticket_mapping d -> Dict.get key d = Some g ->
         ticket_mapping (Dict.setitem key (append_row g ticket_data) d))
  /\ (forall st row st',
         ticket_mapping (fst st) -> ticket_step st row = Ok st' ->
         ticket_mapping (fst st')).
Proof.
  split; [|split; [|split]].
  - intros rows d. unfold extract_ticket_price_options.
    destruct (ticket_loop rows (Dict.empty, EmptyString)) as [st|e] eqn:E; [|discriminate].
    cbn [bind]. intros H. inversion H; subst.
    pose proof (ticket_loop_mapping rows (Dict.empty, EmptyString) st ticket_mapping_empty E) as Hm.
    split; [assumption|]. intros key g Hg. destruct Hm as [_ Hal].
    apply (Hal key). now apply get_In.
  - intros d key td Hd. apply ticket_mapping_setitem; [assumption | apply aligned_seed].
  - intros d key g td Hd Hg. apply ticket_mapping_setitem; [assumption|].
    apply aligned_append_row. destruct Hd as [_ Hal]. apply (Hal key). now apply get_In.
  - intros st row st'. apply ticket_step_mapping.
Qed.

(** A row without the anchor cannot come first. *)

(** C10, as amended.  A row list whose first row has no anchor to an event
    never yields a mapping: if the fields of that row can be read, the
    lookup of the empty key raises [KeyError]; if not, the error of reading
    them is raised. *)
Theorem first_row_continuation_raises (row : Tag) (rows : list Tag) :
  select_one_a_href_prefix "/event" row = None ->
  (exists e, extract_ticket_price_options (row :: rows) = Raise e)
  /\ (forall ticket_data,
         row_ticket_data row = Ok ticket_data ->
         extract_ticket_price_options (row :: rows) = Raise (KeyError EmptyString))
  /\ (forall e,
         row_ticket_data row = Raise e ->
         extract_ticket_price_options (row :: rows) = Raise e).
Proof.
  intros Hrow.
  assert (Hstep : ticket_step (Dict.empty, EmptyString) row
                  = (ticket_data <- row_ticket_data row ;; Raise (KeyError EmptyString))).
  { unfold ticket_step. rewrite Hrow. now destruct (row_ticket_data row). }
  unfold extract_ticket_price_options. cbn [ticket_loop]. rewrite Hstep.
  destruct (row_ticket_data row) as [td|e]; cbn [bind].
  - split; [eauto|]. split; [reflexivity | discriminate].
  - split; [eauto|]. split; [discriminate|]. intros e' H. now inversion H.
Qed.

(** C10, as stated, fails: a first row without the anchor whose price is no
    number raises [ValueError], which is no lookup error. *)
Lemma first_row_continuation_not_always_lookup_error :
  ~ (forall rows : list Tag,
        rows <> [] ->
        (forall row, hd_error rows = Some row ->
                     select_one_a_href_prefix "/event" row = None) ->
        exists e, extract_ticket_price_options rows = Raise e
                  /\ is_lookup_error e = true).
Proof.
  intros H.
  destruct (H [Example.continuation_row Example.under_35 "free"]) as [e [He Hl]].
  - discriminate.
  - intros row Hr. inversion Hr. reflexivity.
  - vm_compute in He. inversion He; subst. discriminate Hl.
Qed.

(** ** Grouping *)

Lemma select_one_href (p : string) (row a : Tag) :
  select_one_a_href_prefix p row = Some a ->
  exists h, get_attr "href" a = Some h /\ Str.startswith p h = true.
Proof.
  unfold select_one_a_href_prefix. intros H.
  match type of H with hd_error (filter ?f ?l) = _ =>
    assert (Hin : In a (filter f l)) by (destruct (filter f l); inversion H; now left)
  end.
  apply filter_In in Hin as [_ Hf]. apply andb_true_iff in Hf as [_ Hf].
  destruct (get_attr "href" a) as [h|]; [now exists h | discriminate].
Qed.

Lemma row_key_starts_with_event (row : Tag) (key : string) :
  row_key row = Some key -> Str.startswith "/event" key = true.
Proof.
  unfold row_key. destruct (select_one_a_href_prefix "/event" row) as [a|] eqn:E; [|discriminate].
  destruct (select_one_href _ _ _ E) as [h [Hh Hs]]. rewrite Hh. intros H. now inversion H; subst.
Qed.

Lemma contains_setitem {V : Type} (k k' : string) (v : V) (d : Dict.t V) :
  Dict.contains k' (Dict.setitem k v d) = String.eqb k' k || Dict.contains k' d.
Proof.
  unfold Dict.contains. rewrite get_setitem. now destruct (String.eqb k' k).
Qed.

Lemma ticket_step_refines (d : Dict.t ticket_lists) (last : string) (cur : option string)
  (row : Tag) (view : row_view) :
  same_position d last cur -> view_row row = Ok view ->
  match group_step (d, cur) view with
  | Some (d', cur') =>
      exists last', ticket_step (d, last) row = Ok (d', last') /\ same_position d' last' cur'
  | None => ticket_step (d, last) row = Raise (KeyError EmptyString)
  end.
Proof.
  intros Hpos Hview. unfold view_row in Hview.
  destruct (row_ticket_data row) as [td|e] eqn:Etd; [|discriminate].
  cbn [bind] in Hview. inversion Hview; subst. clear Hview.
  unfold group_step, ticket_step, row_key. cbn [fst snd]. rewrite Etd. cbn [bind].
  destruct (select_one_a_href_prefix "/event" row) as [a|] eqn:Ea.
  - destruct (select_one_href _ _ _ Ea) as [h [Hh _]].
    unfold getitem_attr. rewrite Hh. cbn [bind].
    destruct (Dict.contains h d) eqn:Ec; cbn [negb].
    + exists h. split; [reflexivity|]. right. now split.
    + exists h. split; [reflexivity|]. right. split; [reflexivity|].
      now rewrite contains_setitem, String.eqb_refl.
  - destruct Hpos as [(-> & -> & ->)|[-> Hc]].
    + reflexivity.
    + unfold Dict.getitem. unfold Dict.contains in Hc.
      destruct (Dict.get last d) as [g|] eqn:Eg; [|discriminate]. cbn [bind].
      exists last. split; [reflexivity|]. right. split; [reflexivity|].
      now rewrite contains_setitem, String.eqb_refl.
Qed.

Lemma ticket_loop_refines (rows : list Tag) (views : list row_view)
  (d : Dict.t ticket_lists) (last : string) (cur : option string) :
  same_position d last cur -> comprehension view_row rows = Ok views ->
  (st <- ticket_loop rows (d, last) ;; Ok (fst st))
  = match group_rows_from (d, cur) views with
    | Some d' => Ok d'
    | None => Raise (KeyError EmptyString)
    end.
Proof.
  revert views d last cur. induction rows as [|row rows IH]; intros views d last cur Hpos;
    cbn [comprehension].
  - intros H. inversion H; subst. reflexivity.
  - destruct (view_row row) as [view|e] eqn:Ev; [|discriminate]. cbn [bind].
    destruct (comprehension view_row rows) as [views'|e] eqn:Evs; [|discriminate].
    cbn [bind]. intros H. inversion H; subst. clear H.
    cbn [ticket_loop group_rows_from].
    pose proof (ticket_step_refines d last cur row view Hpos Ev) as Hstep.
    destruct (group_step (d, cur) view) as [[d' cur']|].
    + destruct Hstep as [last' [-> Hpos']]. cbn [bind]. now apply IH.
    + now rewrite Hstep.
Qed.

(** A row whose fields cannot be read stops the loop with an exception. *)
Lemma ticket_loop_unreadable (rows : list Tag) (st : ticket_state) (e : exn) :
  comprehension view_row rows = Raise e -> exists e', ticket_loop rows st = Raise e'.
Proof.
  revert st. induction rows as [|row rows IH]; intros st; cbn [comprehension ticket_loop];
    [discriminate|].
  unfold view_row at 1.
  destruct (row_ticket_data row) as [td|e0] eqn:Etd; cbn [bind].
  - destruct (comprehension view_row rows) as [views|e1]; cbn [bind]; [discriminate|].
    intros H. destruct (ticket_step st row) as [st'|e2]; cbn [bind]; [|now exists e2].
    apply IH. exact H.
  - intros _. exists e0. destruct st as [d last]. unfold ticket_step.
    now rewrite Etd.
Qed.

(** C1.  On rows whose fields can be read, [extract_ticket_price_options]
    is the grouping of the specification: a row with an anchor to an event
    starts the group of that key, or is skipped when the key is there, and a
    row without one goes to the group of the most recently seen key; a row
    whose fields cannot be read makes it raise.  So the
    rows R1 (key K1, price 10), R2 (no key, price 5), R3 (key K2, price 20)
    give the keys K1 and K2, the prices 10 and 5 under K1, and 20 under K2. *)
Theorem extract_ticket_price_options_groups :
  (forall rows views,
      comprehension view_row rows = Ok views ->
      extract_ticket_price_options rows
      = match group_rows views with
        | Some d => Ok d
        | None => Raise (KeyError EmptyString)
        end)
  /\ (forall rows e,
         comprehension view_row rows = Raise e ->
         exists e', extract_ticket_price_options rows = Raise e')
  /\ (forall (R1 R2 R3 : Tag) (K1 K2 : string) (d1 d2 d3 : ticket_data),
         K1 <> K2 ->
         view_row R1 = Ok (Some K1, d1) ->
         view_row R2 = Ok (None, d2) ->
         view_row R3 = Ok (Some K2, d3) ->
         ticket_price_gbp d1 = 10%Z -> ticket_price_gbp d2 = 5%Z ->
         ticket_price_gbp d3 = 20%Z ->
         exists d g1 g2,
           extract_ticket_price_options [R1; R2; R3] = Ok d
           /\ Dict.keys d = [K1; K2]
           /\ Dict.get K1 d = Some g1 /\ ticket_price_gbp g1 = [10%Z; 5%Z]
           /\ Dict.get K2 d = Some g2 /\ ticket_price_gbp g2 = [20%Z]).
Proof.
  assert (R : forall rows views,
             comprehension view_row rows = Ok views ->
             extract_ticket_price_options rows
             = match group_rows views with
               | Some d => Ok d
               | None => Raise (KeyError EmptyString)
               end).
  { intros rows views H. unfold extract_ticket_price_options, group_rows.
    apply ticket_loop_refines; [|assumption]. left. auto. }
  split; [exact R|].
  split.
  { intros rows e H. unfold extract_ticket_price_options.
    destruct (ticket_loop_unreadable rows (Dict.empty, EmptyString) e H) as [e' ->].
    now exists e'. }
  intros R1 R2 R3 K1 K2 d1 d2 d3 Hne H1 H2 H3 P1 P2 P3.
  rewrite (R [R1; R2; R3] [(Some K1, d1); (None, d2); (Some K2, d3)])
    by (cbn [comprehension]; rewrite H1, H2, H3; reflexivity).
  assert (E21 : String.eqb K2 K1 = false) by (apply String.eqb_neq; congruence).
  assert (E12 : String.eqb K1 K2 = false) by (apply String.eqb_neq; congruence).
  unfold group_rows.
  repeat (progress (unfold Dict.contains, Dict.get;
                    cbn [group_rows_from group_step fst snd Dict.empty assoc Dict.setitem];
                    rewrite ?String.eqb_refl, ?E21, ?E12)).
  do 3 eexists. split; [reflexivity|].
  unfold Dict.get. cbn [Dict.keys map fst assoc]. rewrite ?String.eqb_refl, ?E21, ?E12.
  repeat split; cbn; now rewrite ?P1, ?P2, ?P3.
Qed.

Lemma example_rows_mapping :
  extract_ticket_price_options Example.rows = Ok Example.mapping.
Proof. vm_compute. reflexivity. Qed.

Lemma ticket_lists_stay_aligned_witness :
  ticket_mapping Example.mapping
  /\ forall key g, Dict.get key Example.mapping = Some g -> aligned g.
Proof.
  apply (proj1 ticket_lists_stay_aligned Example.rows Example.mapping).
  vm_compute. reflexivity.
Defined.

Lemma first_row_continuation_raises_witness :
  (exists e,
      extract_ticket_price_options
        (Example.continuation_row Example.under_35 (Str.pound +++ "5") :: Example.rows)
      = Raise e)
  /\ (forall ticket_data,
         row_ticket_data (Example.continuation_row Example.under_35 (Str.pound +++ "5"))
         = Ok ticket_data ->
         extract_ticket_price_options
           (Example.continuation_row Example.under_35 (Str.pound +++ "5") :: Example.rows)
         = Raise (KeyError EmptyString))
  /\ (forall e,
         row_ticket_data (Example.continuation_row Example.under_35 (Str.pound +++ "5"))
         = Raise e ->
         extract_ticket_price_options
           (Example.continuation_row Example.under_35 (Str.pound +++ "5") :: Example.rows)
         = Raise e).
Proof.
  apply (first_row_continuation_raises
           (Example.continuation_row Example.under_35 (Str.pound +++ "5")) Example.rows).
  reflexivity.
Defined.

Lemma extract_ticket_price_options_groups_witness :
  exists d g1 g2,
    extract_ticket_price_options Example.rows = Ok d
    /\ Dict.keys d = ["/event/1"; "/event/2"]
    /\ Dict.get "/event/1" d = Some g1 /\ ticket_price_gbp g1 = [10%Z; 5%Z]
    /\ Dict.get "/event/2" d = Some g2 /\ ticket_price_gbp g2 = [20%Z].
Proof.
  apply (proj2 (proj2 extract_ticket_price_options_groups)
           (Example.keyed_row "/event/1" Example.standard (Str.pound +++ "10.00"))
           (Example.continuation_row Example.under_35 (Str.pound +++ "5"))
           (Example.keyed_row "/event/2" Example.standard (Str.pound +++ "20"))
           "/event/1" "/event/2"
           {| ticket_type := "Standard";
              venue_type := "In-person & Streaming (Digital Concert Hall)";
              is_streaming := true; ticket_price_gbp := 10%Z |}
           {| ticket_type := "Under 35"; venue_type := "In-person only";
              is_streaming := false; ticket_price_gbp := 5%Z |}
           {| ticket_type := "Standard";
              venue_type := "In-person & Streaming (Digital Concert Hall)";
              is_streaming := true; ticket_price_gbp := 20%Z |});
    try (vm_compute; reflexivity).
  discriminate.
Defined.

(** ** Exploding *)

Lemma combine_app {A B : Type} (a a' : list A) (b b' : list B) :
  length a = length b -> combine (a ++ a') (b ++ b') = combine a b ++ combine a' b'.
Proof.
  revert b. induction a as [|x a IH]; intros [|y b] H; try discriminate; cbn.
  - reflexivity.
  - f_equal. apply IH. now inversion H.
Qed.

Lemma combine_flat_map {X A B : Type} (f : X -> list A) (g : X -> list B) (l : list X) :
  (forall x, In x l -> length (f x) = length (g x)) ->
  combine (flat_map f l) (flat_map g l) = flat_map (fun x => combine (f x) (g x)) l.
Proof.
  induction l as [|x l IH]; intros H; cbn [flat_map]; [reflexivity|].
  rewrite combine_app by (apply H; now left).
  f_equal. apply IH. intros y Hy. apply H. now right.
Qed.

Lemma map_flat_map {X A B : Type} (h : A -> B) (f : X -> list A) (l : list X) :
  map h (flat_map f l) = flat_map (fun x => map h (f x)) l.
Proof.
  induction l as [|x l IH]; cbn [flat_map map]; [reflexivity|].
  now rewrite map_app, IH.
Qed.

Lemma flat_map_ext_in {X A : Type} (f g : X -> list A) (l : list X) :
  (forall x, In x l -> f x = g x) -> flat_map f l = flat_map g l.
Proof.
  induction l as [|x l IH]; intros H; cbn [flat_map]; [reflexivity|].
  rewrite (H x) by now left. f_equal. apply IH. intros y Hy. apply H. now right.
Qed.

Lemma series_explode_cons {A : Type} (kv : string * list A) (s : series (list A)) :
  series_explode (kv :: s)
  = match snd kv with
    | [] => [(fst kv, None)]
    | l => map (fun x => (fst kv, Some x)) l
    end ++ series_explode s.
Proof. reflexivity. Qed.

(** A column of non-empty lists explodes to its elements, label by label. *)
Lemma series_explode_column {A : Type} (f : ticket_lists -> list A) (d : Dict.t ticket_lists) :
  (forall kv, In kv d -> f (snd kv) <> []) ->
  series_explode (map (fun kv => (fst kv, f (snd kv))) d)
  = flat_map (fun kv => map (fun x => (fst kv, Some x)) (f (snd kv))) d.
Proof.
  induction d as [|kv d IH]; intros H; cbn [map flat_map]; [reflexivity|].
  rewrite series_explode_cons, IH by (intros y Hy; apply H; now right).
  cbn [fst snd]. f_equal.
  destruct (f (snd kv)) eqn:E; [|reflexivity].
  exfalso. apply (H kv); [now left | assumption].
Qed.

Lemma index_exploded_column {A : Type} (f : ticket_lists -> list A) (d : Dict.t ticket_lists) :
  index (flat_map (fun kv => map (fun x => (fst kv, Some x)) (f (snd kv))) d)
  = flat_map (fun kv => repeat (fst kv) (length (f (snd kv)))) d.
Proof.
  unfold index. rewrite map_flat_map. apply flat_map_ext_in. intros kv _.
  rewrite map_map. cbn [fst]. induction (f (snd kv)) as [|x l IH]; cbn; [reflexivity|].
  now rewrite IH.
Qed.

Lemma same_index_refl (a : list string) : same_index a a = true.
Proof. unfold same_index. destruct (list_eq_dec string_dec a a); [reflexivity | contradiction]. Qed.

(** The rows of one group, from its four exploded columns. *)
Lemma exploded_group_zip (key : string) (types venues : list string)
  (streams : list bool) (prices : list Z) :
  length types = length prices -> length venues = length prices ->
  length streams = length prices ->
  map (fun q : (string * option string) * (string * option string)
               * (string * option bool) * (string * option Z) =>
         match q with
         | (((a, b), c), d) =>
             (fst a, {| ticket_type := snd a; venue_type := snd b;
                        is_streaming := snd c; ticket_price_gbp := snd d |})
         end)
      (combine (combine (combine (map (fun x => (key, Some x)) types)
                                 (map (fun x => (key, Some x)) venues))
                        (map (fun x => (key, Some x)) streams))
               (map (fun x => (key, Some x)) prices))
  = exploded_group key {| ticket_type := types; venue_type := venues;
                          is_streaming := streams; ticket_price_gbp := prices |}.
Proof.
  unfold exploded_group, options_of. cbn [ticket_type venue_type is_streaming ticket_price_gbp].
  revert venues streams prices.
  induction types as [|t types IH]; intros [|v venues] [|s streams] [|p prices] H1 H2 H3;
    try discriminate; cbn [map combine length seq]; [reflexivity|].
  cbn [fst snd nth_error]. f_equal.
  rewrite <- seq_shift, map_map. cbn [nth_error].
  cbn [length] in H1, H2, H3. apply IH; lia.
Qed.

Lemma filter_exploded_same (key : string) (g : ticket_lists) :
  filter (fun r : ticket_row => String.eqb (fst r) key) (exploded_group key g)
  = exploded_group key g.
Proof.
  unfold exploded_group. induction (seq 0 (length (ticket_price_gbp g))) as [|i l IH];
    cbn [map filter fst]; [reflexivity|].
  now rewrite String.eqb_refl, IH.
Qed.

Lemma filter_exploded_other (key key' : string) (g : ticket_lists) :
  key' <> key ->
  filter (fun r : ticket_row => String.eqb (fst r) key) (exploded_group key' g) = [].
Proof.
  intros Hne. unfold exploded_group.
  induction (seq 0 (length (ticket_price_gbp g))) as [|i l IH];
    cbn [map filter fst]; [reflexivity|].
  destruct (String.eqb_spec key' key); [contradiction | exact IH].
Qed.

Lemma filter_exploded_absent (key : string) (d : Dict.t ticket_lists) :
  ~ In key (Dict.keys d) ->
  filter (fun r : ticket_row => String.eqb (fst r) key)
         (flat_map (fun kv => exploded_group (fst kv) (snd kv)) d) = [].
Proof.
  induction d as [|[k g] d IH]; cbn [flat_map Dict.keys map fst snd In]; [reflexivity|].
  intros H. rewrite filter_app, filter_exploded_other, IH; [reflexivity | tauto | ].
  intros ->. apply H. now left.
Qed.

Lemma filter_exploded_key (key : string) (g : ticket_lists) (d : Dict.t ticket_lists) :
  NoDup (Dict.keys d) -> Dict.get key d = Some g ->
  filter (fun r : ticket_row => String.eqb (fst r) key)
         (flat_map (fun kv => exploded_group (fst kv) (snd kv)) d)
  = exploded_group key g.
Proof.
  unfold Dict.get.
  induction d as [|[k g0] d IH]; cbn [flat_map Dict.keys map fst snd assoc]; [discriminate|].
  intros Hnd Hg. inversion Hnd as [|? ? Hnotin Hnd']; subst. rewrite filter_app.
  destruct (String.eqb_spec key k) as [->|Hk].
  - inversion Hg; subst. rewrite filter_exploded_same, filter_exploded_absent by assumption.
    apply app_nil_r.
  - rewrite filter_exploded_other by congruence. cbn [app]. now apply IH.
Qed.

(** The exploded frame of a ticket mapping: group after group. *)
Lemma ticket_df_of_mapping (d : Dict.t ticket_lists) :
  ticket_mapping d ->
  ticket_df_of d = Ok (flat_map (fun kv => exploded_group (fst kv) (snd kv)) d).
Proof.
  intros [_ Hal]. unfold ticket_df_of, apply_explode, ticket_columns.
  cbn [ticket_type venue_type is_streaming ticket_price_gbp].
  assert (Hkv : forall k types venues streams prices,
             In (k, {| ticket_type := types; venue_type := venues;
                       is_streaming := streams; ticket_price_gbp := prices |}) d ->
             length types = length prices /\ length venues = length prices
             /\ length streams = length prices /\ 1 <= length prices).
  { intros k types venues streams prices Hin. exact (Hal _ _ Hin). }
  rewrite !series_explode_column;
    try (intros [k [types venues streams prices]] Hin E;
         destruct (Hkv _ _ _ _ _ Hin) as (H1 & H2 & H3 & H4);
         cbn [snd ticket_type venue_type is_streaming ticket_price_gbp] in E;
         subst; cbn [length] in *; lia).
  rewrite !index_exploded_column.
  assert (I : forall A (f : ticket_lists -> list A),
             (forall k types venues streams prices,
                 In (k, {| ticket_type := types; venue_type := venues;
                           is_streaming := streams; ticket_price_gbp := prices |}) d ->
                 length (f {| ticket_type := types; venue_type := venues;
                              is_streaming := streams; ticket_price_gbp := prices |})
                 = length prices) ->
             flat_map (fun kv => repeat (fst kv) (length (f (snd kv)))) d
             = flat_map (fun kv => repeat (fst kv) (length (ticket_price_gbp (snd kv)))) d).
  { intros A f Hf. apply flat_map_ext_in.
    intros [k [types venues streams prices]] Hin. cbn [fst snd ticket_price_gbp].
    f_equal. now apply (Hf k). }
  rewrite (I _ (fun g => ticket_type g)), (I _ (fun g => venue_type g)),
    (I _ (fun g => is_streaming g));
    try (intros k types venues streams prices Hin;
         destruct (Hkv _ _ _ _ _ Hin) as (H1 & H2 & H3 & H4);
         cbn [ticket_type venue_type is_streaming]; assumption).
  rewrite !same_index_refl. cbn [andb]. f_equal.
  rewrite !combine_flat_map.
  - rewrite map_flat_map. apply flat_map_ext_in.
    intros [k [types venues streams prices]] Hin.
    destruct (Hkv _ _ _ _ _ Hin) as (H1 & H2 & H3 & H4).
    cbn [fst snd ticket_type venue_type is_streaming ticket_price_gbp].
    now apply exploded_group_zip.
  - intros [k [types venues streams prices]] Hin.
    destruct (Hkv _ _ _ _ _ Hin) as (H1 & H2 & H3 & H4).
    cbn [fst snd ticket_type venue_type is_streaming ticket_price_gbp].
    rewrite !length_combine, !length_map. lia.
  - intros [k [types venues streams prices]] Hin.
    destruct (Hkv _ _ _ _ _ Hin) as (H1 & H2 & H3 & H4).
    cbn [fst snd ticket_type venue_type is_streaming ticket_price_gbp].
    rewrite !length_combine, !length_map. lia.
  - intros [k [types venues streams prices]] Hin.
    destruct (Hkv _ _ _ _ _ Hin) as (H1 & H2 & H3 & H4).
    cbn [fst snd ticket_type venue_type is_streaming ticket_price_gbp].
    rewrite !length_map. lia.
Qed.

Lemma length_exploded_group (key : string) (g : ticket_lists) :
  length (exploded_group key g) = length (ticket_price_gbp g).
Proof. unfold exploded_group. now rewrite length_map, length_seq. Qed.

Lemma nth_error_exploded_group (key : string) (g : ticket_lists) (i : nat) :
  i < length (ticket_price_gbp g) ->
  nth_error (exploded_group key g) i = Some (key, options_of g i).
Proof.
  intros Hi. unfold exploded_group.
  rewrite nth_error_map, nth_error_seq.
  destruct (Nat.ltb_spec i (length (ticket_price_gbp g))); [reflexivity | lia].
Qed.

Lemma nth_error_Some_lt {A : Type} (l : list A) (i : nat) :
  i < length l -> exists x, nth_error l i = Some x.
Proof.
  intros Hi. destruct (nth_error l i) as [x|] eqn:E; [now exists x|].
  apply nth_error_None in E. lia.
Qed.

(** C3.  Exploding a ticket mapping gives, for every key K whose lists have
    N entries, exactly N rows under K, and the row of index i holds entry i
    of each of the four lists. *)
Theorem exploding_aligns_by_index (d : Dict.t ticket_lists) :
  ticket_mapping d ->
  exists ticket_df,
    ticket_df_of d = Ok ticket_df
    /\ forall K g N,
        Dict.get K d = Some g -> length (ticket_price_gbp g) = N ->
        let rows_K := filter (fun r : ticket_row => String.eqb (fst r) K) ticket_df in
        length rows_K = N
        /\ Forall (fun r => fst r = K) rows_K
        /\ forall i, i < N ->
             exists t v s p,
               nth_error (ticket_type g) i = Some t
               /\ nth_error (venue_type g) i = Some v
               /\ nth_error (is_streaming g) i = Some s
               /\ nth_error (ticket_price_gbp g) i = Some p
               /\ nth_error rows_K i
                  = Some (K, {| ticket_type := Some t; venue_type := Some v;
                                is_streaming := Some s; ticket_price_gbp := Some p |}).
Proof.
  intros Hd. eexists. split; [now apply ticket_df_of_mapping|].
  intros K g N Hg HN rows_K. subst rows_K.
  destruct Hd as [Hnd Hal].
  rewrite (filter_exploded_key K g d Hnd Hg).
  pose proof (Hal K g (get_In _ _ _ Hg)) as Hag.
  destruct g as [types venues streams prices]. unfold aligned in Hag.
  cbn [ticket_type venue_type is_streaming ticket_price_gbp] in *.
  destruct Hag as (H1 & H2 & H3 & H4).
  split; [now rewrite length_exploded_group|]. split.
  - unfold exploded_group. apply Forall_forall. intros r Hr.
    apply in_map_iff in Hr as [i [<- _]]. reflexivity.
  - intros i Hi.
    destruct (nth_error_Some_lt types i ltac:(lia)) as [t Ht].
    destruct (nth_error_Some_lt venues i ltac:(lia)) as [v Hv].
    destruct (nth_error_Some_lt streams i ltac:(lia)) as [s Hs].
    destruct (nth_error_Some_lt prices i ltac:(lia)) as [p Hp].
    exists t, v, s, p. repeat (split; [assumption|]).
    rewrite nth_error_exploded_group by (cbn [ticket_price_gbp]; lia).
    unfold options_of. cbn [ticket_type venue_type is_streaming ticket_price_gbp].
    now rewrite Ht, Hv, Hs, Hp.
Qed.

(** ** Joining *)

Lemma In_enumerate_from {A : Type} (l : list A) (n i : nat) (x : A) :
  In (i, x) (enumerate_from n l) <-> n <= i /\ nth_error l (i - n) = Some x.
Proof.
  revert n. induction l as [|y l IH]; intros n; cbn [enumerate_from In].
  - split; [intros [] | intros [_ H]; now destruct (i - n)].
  - rewrite IH. split.
    + intros [H|[Hle H]].
      * inversion H; subst. rewrite Nat.sub_diag. split; [lia | reflexivity].
      * split; [lia|]. replace (i - n) with (S (i - S n)) by lia. exact H.
    + intros [Hle H]. destruct (Nat.eq_dec i n) as [->|Hne].
      * rewrite Nat.sub_diag in H. cbn in H. inversion H. now left.
      * right. split; [lia|]. replace (i - n) with (S (i - S n)) in H by lia. exact H.
Qed.

Lemma In_enumerate {A : Type} (l : list A) (i : nat) (x : A) :
  In (i, x) (enumerate l) <-> nth_error l i = Some x.
Proof.
  unfold enumerate. rewrite In_enumerate_from, Nat.sub_0_r.
  split; [now intros [_ H] | intros H; split; [lia | exact H]].
Qed.

Lemma map_snd_filter_enumerate_from {A : Type} (f : A -> bool) (l : list A) (n : nat) :
  map snd (filter (fun jr => f (snd jr)) (enumerate_from n l)) = filter f l.
Proof.
  revert n. induction l as [|x l IH]; intros n; cbn [enumerate_from filter map snd];
    [reflexivity|].
  destruct (f x); cbn [map snd]; now rewrite IH.
Qed.

Lemma filter_left_position (ticket_df : list ticket_row) (event_df : list event_record)
  (n i : nat) :
  filter (fun p : (nat * event_record) * (nat * ticket_row) => fst (fst p) =? i)
         (flat_map (pairs_of ticket_df) (enumerate_from n event_df))
  = match nth_error event_df (i - n) with
    | Some e => if n <=? i then pairs_of ticket_df (i, e) else []
    | None => []
    end.
Proof.
  revert n. induction event_df as [|e0 event_df IH]; intros n;
    cbn [enumerate_from flat_map filter].
  - now destruct (i - n).
  - rewrite filter_app, IH.
    assert (Hhead : filter (fun p : (nat * event_record) * (nat * ticket_row) =>
                              fst (fst p) =? i) (pairs_of ticket_df (n, e0))
                    = if n =? i then pairs_of ticket_df (n, e0) else []).
    { unfold pairs_of. cbn [snd].
      induction (filter (fun jr => key_matches e0 (snd jr)) (enumerate ticket_df))
        as [|jr l IHl]; cbn [map filter fst]; [now destruct (n =? i)|].
      rewrite IHl. now destruct (n =? i). }
    rewrite Hhead.
    destruct (Nat.eqb_spec n i) as [E|Hne].
    + subst i. rewrite Nat.sub_diag. cbn [nth_error]. rewrite Nat.leb_refl.
      replace (n - S n) with 0 by lia.
      destruct (nth_error event_df 0); [|apply app_nil_r].
      destruct (Nat.leb_spec (S n) n); [lia | apply app_nil_r].
    + cbn [app]. destruct (Nat.leb_spec n i) as [Hle|Hgt].
      * replace (i - n) with (S (i - S n)) by lia. cbn [nth_error].
        destruct (nth_error event_df (i - S n)); [|reflexivity].
        destruct (Nat.leb_spec (S n) i); [reflexivity | lia].
      * destruct (nth_error event_df (i - S n)), (nth_error (e0 :: event_df) (i - n));
          try reflexivity; destruct (Nat.leb_spec (S n) i); try reflexivity; lia.
Qed.

Lemma join_pairs_of_position (event_df : list event_record) (ticket_df : list ticket_row)
  (i : nat) (e : event_record) :
  nth_error event_df i = Some e ->
  filter (fun p : (nat * event_record) * (nat * ticket_row) => fst (fst p) =? i)
         (join_pairs event_df ticket_df)
  = pairs_of ticket_df (i, e).
Proof.
  intros H. unfold join_pairs, enumerate.
  change (fun ie : nat * event_record =>
            map (fun jr => (ie, jr))
                (filter (fun jr => key_matches (snd ie) (snd jr)) (enumerate_from 0 ticket_df)))
    with (pairs_of ticket_df).
  rewrite filter_left_position, Nat.sub_0_r, H. reflexivity.
Qed.

Lemma merge_pairs_of (ticket_df : list ticket_row) (i : nat) (e : event_record) :
  map merge_pair (pairs_of ticket_df (i, e))
  = map (fun r : ticket_row => {| event_part := e; ticket_part := snd r |})
        (filter (key_matches e) ticket_df).
Proof.
  unfold pairs_of, enumerate. cbn [snd].
  rewrite <- (map_snd_filter_enumerate_from (key_matches e) ticket_df 0).
  rewrite !map_map. reflexivity.
Qed.

Lemma key_matches_key (e : event_record) (K : string) (r : ticket_row) :
  e Col.short_url = Some (VStr K) -> key_matches e r = String.eqb (fst r) K.
Proof. intros H. unfold key_matches. rewrite H. apply string_eqb_sym. Qed.

Lemma In_join_pairs (event_df : list event_record) (ticket_df : list ticket_row)
  (p : (nat * event_record) * (nat * ticket_row)) :
  In p (join_pairs event_df ticket_df) ->
  nth_error event_df (fst (fst p)) = Some (snd (fst p))
  /\ nth_error ticket_df (fst (snd p)) = Some (snd (snd p))
  /\ key_matches (snd (fst p)) (snd (snd p)) = true.
Proof.
  unfold join_pairs. rewrite in_flat_map. intros [[i e] [Hi Hp]].
  apply in_map_iff in Hp as [[j r] [<- Hj]]. apply filter_In in Hj as [Hj Hk].
  cbn [fst snd] in *. apply In_enumerate in Hi, Hj. auto.
Qed.

(** C2.  The merge is an inner join on [short_url]: an event whose key is
    that of a ticket group with N options gives exactly N merged rows, the
    event's columns beside each option of the group; an event whose key is
    no group's gives none; and no merged row comes from a ticket row whose
    key is no event's. *)
Theorem merge_is_inner_join (event_df : list event_record) (d : Dict.t ticket_lists) :
  ticket_mapping d -> d <> Dict.empty ->
  exists ticket_df,
    ticket_df_of d = Ok ticket_df
    /\ merged_df event_df d = Ok (map merge_pair (join_pairs event_df ticket_df))
    /\ (forall i e K g,
           nth_error event_df i = Some e ->
           e Col.short_url = Some (VStr K) ->
           Dict.get K d = Some g ->
           let from_e := filter (fun p => fst (fst p) =? i) (join_pairs event_df ticket_df) in
           length from_e = length (ticket_price_gbp g)
           /\ map merge_pair from_e
              = map (fun r : ticket_row => {| event_part := e; ticket_part := snd r |})
                    (exploded_group K g))
    /\ (forall i e,
           nth_error event_df i = Some e ->
           (forall K, e Col.short_url = Some (VStr K) -> Dict.get K d = None) ->
           filter (fun p => fst (fst p) =? i) (join_pairs event_df ticket_df) = [])
    /\ (forall K,
           Dict.contains K d = true ->
           (forall e, In e event_df -> e Col.short_url <> Some (VStr K)) ->
           forall p, In p (join_pairs event_df ticket_df) -> fst (snd (snd p)) <> K).
Proof.
  intros Hd Hne. eexists. split; [now apply ticket_df_of_mapping|].
  set (ticket_df := flat_map (fun kv => exploded_group (fst kv) (snd kv)) d).
  split.
  { unfold merged_df. rewrite (ticket_df_of_mapping d Hd). cbn [bind].
    destruct d; [contradiction | reflexivity]. }
  destruct Hd as [Hnd Hal].
  split; [|split].
  - intros i e K g Hi HK Hg from_e. subst from_e.
    rewrite (join_pairs_of_position _ _ _ _ Hi).
    assert (E : filter (key_matches e) ticket_df = exploded_group K g).
    { rewrite <- (filter_exploded_key K g d Hnd Hg). apply filter_ext.
      intros r. now apply key_matches_key. }
    split.
    + rewrite <- (length_map merge_pair), merge_pairs_of, E, length_map.
      apply length_exploded_group.
    + now rewrite merge_pairs_of, E.
  - intros i e Hi Hno. rewrite (join_pairs_of_position _ _ _ _ Hi).
    unfold pairs_of. cbn [snd].
    assert (E : filter (fun jr : nat * ticket_row => key_matches e (snd jr)) (enumerate ticket_df) = []).
    { destruct (filter _ (enumerate ticket_df)) as [|[j r] l] eqn:F; [reflexivity|exfalso].
      assert (Hin : In (j, r) (filter (fun jr : nat * ticket_row => key_matches e (snd jr))
                                      (enumerate ticket_df))) by (rewrite F; now left).
      apply filter_In in Hin as [Hj Hk]. cbn [snd] in Hk.
      unfold key_matches in Hk.
      destruct (e Col.short_url) as [[u| |]|] eqn:Eu; try discriminate.
      apply String.eqb_eq in Hk. subst u.
      specialize (Hno _ eq_refl). apply get_None_keys in Hno. apply Hno.
      apply In_enumerate in Hj. apply nth_error_In in Hj.
      unfold ticket_df in Hj. apply in_flat_map in Hj as [[k g] [Hkg Hr]].
      unfold exploded_group in Hr. apply in_map_iff in Hr as [n [<- _]].
      cbn [fst]. apply in_map_iff. now exists (k, g). }
    now rewrite E.
  - intros K _ Hno p Hp HK.
    apply In_join_pairs in Hp as (He & _ & Hk).
    unfold key_matches in Hk.
    destruct (snd (fst p) Col.short_url) as [[u| |]|] eqn:Eu; try discriminate.
    apply String.eqb_eq in Hk. subst u.
    apply (Hno (snd (fst p))); [exact (nth_error_In _ _ He)|].
    now rewrite Eu, HK.
Qed.

Lemma exploding_aligns_by_index_witness :
  exists ticket_df,
    ticket_df_of Example.mapping = Ok ticket_df
    /\ forall K g N,
        Dict.get K Example.mapping = Some g -> length (ticket_price_gbp g) = N ->
        let rows_K := filter (fun r : ticket_row => String.eqb (fst r) K) ticket_df in
        length rows_K = N
        /\ Forall (fun r => fst r = K) rows_K
        /\ forall i, i < N ->
             exists t v s p,
               nth_error (ticket_type g) i = Some t
               /\ nth_error (venue_type g) i = Some v
               /\ nth_error (is_streaming g) i = Some s
               /\ nth_error (ticket_price_gbp g) i = Some p
               /\ nth_error rows_K i
                  = Some (K, {| ticket_type := Some t; venue_type := Some v;
                                is_streaming := Some s; ticket_price_gbp := Some p |}).
Proof.
  apply (exploding_aligns_by_index Example.mapping).
  split.
  - repeat constructor; cbn; intuition discriminate.
  - intros key g [H|[H|[]]]; inversion H; subst; unfold aligned; cbn; lia.
Defined.

Lemma merge_is_inner_join_witness :
  exists ticket_df,
    ticket_df_of Example.mapping = Ok ticket_df
    /\ merged_df [Example.event_a] Example.mapping
       = Ok (map merge_pair (join_pairs [Example.event_a] ticket_df))
    /\ (forall i e K g,
           nth_error [Example.event_a] i = Some e ->
           e Col.short_url = Some (VStr K) ->
           Dict.get K Example.mapping = Some g ->
           let from_e := filter (fun p => fst (fst p) =? i)
                                (join_pairs [Example.event_a] ticket_df) in
           length from_e = length (ticket_price_gbp g)
           /\ map merge_pair from_e
              = map (fun r : ticket_row => {| event_part := e; ticket_part := snd r |})
                    (exploded_group K g))
    /\ (forall i e,
           nth_error [Example.event_a] i = Some e ->
           (forall K, e Col.short_url = Some (VStr K) -> Dict.get K Example.mapping = None) ->
           filter (fun p => fst (fst p) =? i) (join_pairs [Example.event_a] ticket_df) = [])
    /\ (forall K,
           Dict.contains K Example.mapping = true ->
           (forall e, In e [Example.event_a] -> e Col.short_url <> Some (VStr K)) ->
           forall p, In p (join_pairs [Example.event_a] ticket_df) ->
                     fst (snd (snd p)) <> K).
Proof.
  apply (merge_is_inner_join [Example.event_a] Example.mapping).
  - split.
    + repeat constructor; cbn; intuition discriminate.
    + intros key g [H|[H|[]]]; inversion H; subst; unfold aligned; cbn; lia.
  - discriminate.
Defined.

(** A mapping without keys: the column selection of the merge raises. *)
Example merged_df_of_no_tickets (event_df : list event_record) :
  merged_df event_df Dict.empty
  = Raise (KeyError
             "['ticket_type', 'venue_type', 'is_streaming', 'ticket_price_gbp'] not in index").
Proof. reflexivity. Qed.

(** An empty list explodes to one row without a value. *)
Example explode_empty_list :
  series_explode [("/event/1", @nil Z)] = [("/event/1", None)].
Proof. reflexivity. Qed.

(** The whole way for one event and its two ticket rows: two merged rows,
    both of the event, with the prices 10 and 5. *)
Example merged_rows_of_recital_a :
  (events <- extract_event_metadata Example.no_tags Example.plain Example.plain
               [Example.recital_a] ;;
   ticket_details <- extract_ticket_price_options Example.rows ;;
   merged <- merged_df events ticket_details ;;
   Ok (map (fun m => (event_part m Col.title, ticket_price_gbp (ticket_part m))) merged))
  = Ok [(Some (VStr "Recital A"), Some 10%Z); (Some (VStr "Recital A"), Some 5%Z)].
Proof. vm_compute. reflexivity. Qed.

(** * Further properties *)

(** ** Reading one row *)

Lemma split_no_sep (sep : ascii) (s : string) :
  lacks sep s = true -> Str.split sep s = [s].
Proof.
  induction s as [|c s IH]; cbn [lacks all_chars Str.split]; [reflexivity|].
  intros H. apply andb_true_iff in H as [Hc Hs]. apply negb_true_iff in Hc.
  rewrite Hc. unfold lacks in IH. now rewrite IH.
Qed.

Lemma split_line (sep : ascii) (line rest : string) :
  lacks sep line = true ->
  Str.split sep (line +++ String sep rest) = line :: Str.split sep rest.
Proof.
  induction line as [|c line IH]; cbn [lacks all_chars String.append Str.split].
  - intros _. now rewrite Ascii.eqb_refl.
  - intros H. apply andb_true_iff in H as [Hc Hs]. apply negb_true_iff in Hc.
    rewrite Hc. unfold lacks in IH. now rewrite IH.
Qed.

Lemma split_nonempty (sep : ascii) (s : string) : Str.split sep s <> [].
Proof.
  destruct s as [|c s]; cbn [Str.split]; [discriminate|].
  destruct (Ascii.eqb c sep); [discriminate|].
  destruct (Str.split sep s); discriminate.
Qed.

Lemma getitem_nth_error {A : Type} (l : list A) (i : nat) (x : A) :
  nth_error l i = Some x -> getitem l i = Ok x.
Proof. unfold getitem. now intros ->. Qed.

Lemma nth_error_slice {A : Type} (l : list A) (a b i : nat) :
  i < b - a -> nth_error (slice a b l) i = nth_error l (a + i).
Proof.
  intros Hi. unfold slice. rewrite nth_error_firstn.
  destruct (Nat.ltb_spec i (b - a)); [|lia]. apply nth_error_skipn.
Qed.

Lemma row_ticket_data_lines (row : Tag) (c2 c3 : Tag) (line1 line2 more : string) :
  nth_error (find_all "td" row) 2 = Some c2 ->
  nth_error (find_all "td" row) 3 = Some c3 ->
  lacks Str.newline line1 = true ->
  lacks Str.newline line2 = true ->
  (Str.strip (text c2) = line1 +++ Str.nl +++ line2
   \/ Str.strip (text c2) = line1 +++ Str.nl +++ line2 +++ Str.nl +++ more) ->
  row_ticket_data row
  = (price <- parse_price (text c3) ;;
     Ok ({| ticket_type := line1; venue_type := line2;
            is_streaming := return_if_venue_has_streaming line2;
            ticket_price_gbp := price |} : ticket_data)).
Proof.
  intros H2 H3 L1 L2 Hs. unfold row_ticket_data.
  rewrite (getitem_nth_error _ 0 c2) by (rewrite nth_error_slice by lia; exact H2).
  cbn [bind].
  assert (E : slice 0 2 (Str.split Str.newline (Str.strip (text c2))) = [line1; line2]).
  { destruct Hs as [-> | ->]; unfold Str.nl; cbn [String.append];
      rewrite split_line by assumption.
    - rewrite split_no_sep by assumption. reflexivity.
    - rewrite split_line by assumption.
      destruct (Str.split Str.newline more) eqn:E; [now apply split_nonempty in E|].
      reflexivity. }
  rewrite E. cbn [unpack2 bind].
  rewrite (getitem_nth_error _ 1 c3) by (rewrite nth_error_slice by lia; exact H3).
  cbn [bind]. reflexivity.
Qed.

(** X1.  What a row gives is read from its third and fourth cells alone, and
    from the first two lines of the third: the ticket type, the venue type
    and its streaming flag, and the price of the fourth cell; other cells
    and further lines do not count. *)
Theorem row_ticket_data_reads (row : Tag) (c2 c3 : Tag) (line1 line2 more : string) :
  nth_error (find_all "td" row) 2 = Some c2 ->
  nth_error (find_all "td" row) 3 = Some c3 ->
  lacks Str.newline line1 = true ->
  lacks Str.newline line2 = true ->
  (Str.strip (text c2) = line1 +++ Str.nl +++ line2
   \/ Str.strip (text c2) = line1 +++ Str.nl +++ line2 +++ Str.nl +++ more) ->
  row_ticket_data row
  = (price <- parse_price (text c3) ;;
     Ok ({| ticket_type := line1; venue_type := line2;
            is_streaming := return_if_venue_has_streaming line2;
            ticket_price_gbp := price |} : ticket_data)).
Proof. apply row_ticket_data_lines. Qed.

(** X2.  Reading a row fails with [IndexError] when the row has fewer than
    three cells, or three cells and a third that reads well; with
    [ValueError] when the text of the third cell has no line break; and with
    the error of the price when the price cannot be read. *)
Theorem row_ticket_data_raises (row : Tag) :
  (length (find_all "td" row) <= 2 -> row_ticket_data row = Raise IndexError)
  /\ (forall c2, nth_error (find_all "td" row) 2 = Some c2 ->
                 lacks Str.newline (Str.strip (text c2)) = true ->
                 row_ticket_data row = Raise ValueError)
  /\ (forall c2 line1 line2,
         nth_error (find_all "td" row) 2 = Some c2 ->
         length (find_all "td" row) = 3 ->
         lacks Str.newline line1 = true -> lacks Str.newline line2 = true ->
         Str.strip (text c2) = line1 +++ Str.nl +++ line2 ->
         row_ticket_data row = Raise IndexError)
  /\ (forall c2 c3 line1 line2 e,
         nth_error (find_all "td" row) 2 = Some c2 ->
         nth_error (find_all "td" row) 3 = Some c3 ->
         lacks Str.newline line1 = true -> lacks Str.newline line2 = true ->
         Str.strip (text c2) = line1 +++ Str.nl +++ line2 ->
         parse_price (text c3) = Raise e ->
         row_ticket_data row = Raise e).
Proof.
  split; [|split; [|split]].
  - intros H. unfold row_ticket_data, getitem.
    assert (E : nth_error (slice 2 4 (find_all "td" row)) 0 = None).
    { apply nth_error_None. unfold slice. rewrite length_firstn, length_skipn. lia. }
    now rewrite E.
  - intros c2 H2 Hl. unfold row_ticket_data.
    rewrite (getitem_nth_error _ 0 c2) by (rewrite nth_error_slice by lia; exact H2).
    cbn [bind]. rewrite split_no_sep by assumption. reflexivity.
  - intros c2 line1 line2 H2 Hlen L1 L2 Hs. unfold row_ticket_data.
    rewrite (getitem_nth_error _ 0 c2) by (rewrite nth_error_slice by lia; exact H2).
    cbn [bind]. rewrite Hs. unfold Str.nl. cbn [String.append].
    rewrite split_line, split_no_sep by assumption.
    change (slice 0 2 [line1; line2]) with [line1; line2]. cbn [unpack2 bind].
    unfold getitem.
    assert (E : nth_error (slice 2 4 (find_all "td" row)) 1 = None).
    { apply nth_error_None. unfold slice. rewrite length_firstn, length_skipn. lia. }
    now rewrite E.
  - intros c2 c3 line1 line2 e H2 H3 L1 L2 Hs He.
    rewrite (row_ticket_data_lines row c2 c3 line1 line2 EmptyString H2 H3 L1 L2 (or_introl Hs)).
    now rewrite He.
Qed.

(** ** Streaming flags *)

Lemma row_ticket_data_flag (row : Tag) (ticket_data : ticket_data) :
  row_ticket_data row = Ok ticket_data ->
  is_streaming ticket_data = return_if_venue_has_streaming (venue_type ticket_data).
Proof.
  unfold row_ticket_data.
  destruct (getitem (slice 2 4 (find_all "td" row)) 0) as [c0|e]; [|discriminate].
  cbn [bind].
  destruct (unpack2 _) as [[ttype vtype]|e]; [|discriminate]. cbn [bind].
  destruct (getitem (slice 2 4 (find_all "td" row)) 1) as [c1|e]; [|discriminate].
  cbn [bind].
  destruct (parse_price (text c1)) as [price|e]; [|discriminate]. cbn [bind].
  intros H. inversion H. reflexivity.
Qed.

Lemma flags_derived_seed (ticket_data : ticket_data) :
  is_streaming ticket_data = return_if_venue_has_streaming (venue_type ticket_data) ->
  flags_derived (seed ticket_data).
Proof.
  destruct ticket_data as [ty ve st pr]. unfold flags_derived, seed, for_each_field.
  cbn [ticket_type venue_type is_streaming ticket_price_gbp map]. now intros ->.
Qed.

Lemma flags_derived_append_row (g : ticket_lists) (ticket_data : ticket_data) :
  is_streaming ticket_data = return_if_venue_has_streaming (venue_type ticket_data) ->
  flags_derived g -> flags_derived (append_row g ticket_data).
Proof.
  destruct ticket_data as [ty ve st pr]. destruct g as [tys ves sts prs].
  unfold flags_derived, append_row, for_each_field2.
  cbn [ticket_type venue_type is_streaming ticket_price_gbp].
  intros -> ->. now rewrite map_app.
Qed.

Lemma ticket_step_flags (st st' : ticket_state) (row : Tag) :
  (forall key g, In (key, g) (fst st) -> flags_derived g) ->
  ticket_step st row = Ok st' ->
  forall key g, In (key, g) (fst st') -> flags_derived g.
Proof.
  destruct st as [d last]. cbn [fst]. intros Hd. unfold ticket_step.
  destruct (row_ticket_data row) as [td|e] eqn:Etd; [|discriminate]. cbn [bind].
  pose proof (row_ticket_data_flag _ _ Etd) as Hf.
  destruct (select_one_a_href_prefix "/event" row) as [a|].
  - destruct (getitem_attr "href" a) as [key|e]; [|discriminate]. cbn [bind].
    destruct (Dict.contains key d); cbn [negb]; intros H; inversion H; subst; cbn [fst].
    + assumption.
    + intros k g Hin. apply In_setitem in Hin as [[_ ->]|Hin];
        [now apply flags_derived_seed | exact (Hd _ _ Hin)].
  - unfold Dict.getitem. destruct (Dict.get last d) as [g0|] eqn:E; [|discriminate].
    cbn [bind]. intros H. inversion H; subst. cbn [fst].
    intros k g Hin. apply In_setitem in Hin as [[_ ->]|Hin]; [|exact (Hd _ _ Hin)].
    apply flags_derived_append_row; [assumption|]. apply (Hd last). now apply get_In.
Qed.

Lemma ticket_loop_flags (rows : list Tag) (st st' : ticket_state) :
  (forall key g, In (key, g) (fst st) -> flags_derived g) ->
  ticket_loop rows st = Ok st' ->
  forall key g, In (key, g) (fst st') -> flags_derived g.
Proof.
  revert st. induction rows as [|row rows IH]; intros st Hd; cbn [ticket_loop].
  - intros H. now inversion H; subst.
  - destruct (ticket_step st row) as [st1|e] eqn:E; [|discriminate]. cbn [bind].
    apply IH. exact (ticket_step_flags _ _ _ Hd E).
Qed.

(** X3.  In every mapping the extractor returns, each streaming flag is the
    flag of the venue type at the same place of the same group. *)
Theorem streaming_flags_follow_venue_types (rows : list Tag) (d : Dict.t ticket_lists) :
  extract_ticket_price_options rows = Ok d ->
  forall key g, Dict.get key d = Some g ->
    is_streaming g = map return_if_venue_has_streaming (venue_type g).
Proof.
  unfold extract_ticket_price_options.
  destruct (ticket_loop rows (Dict.empty, EmptyString)) as [st|e] eqn:E; [|discriminate].
  cbn [bind]. intros H. inversion H; subst. intros key g Hg.
  apply (ticket_loop_flags rows (Dict.empty, EmptyString) st) with (key := key);
    [intros k g' [] | exact E | now apply get_In].
Qed.

(** ** Keys and counts *)

Lemma existsb_eqb_In (x : string) (l : list string) :
  existsb (String.eqb x) l = true <-> In x l.
Proof.
  rewrite existsb_exists. split.
  - intros [y [Hy E]]. apply String.eqb_eq in E. now subst.
  - intros H. exists x. split; [assumption | apply String.eqb_refl].
Qed.

Lemma contains_existsb {V : Type} (k : string) (d : Dict.t V) :
  Dict.contains k d = existsb (String.eqb k) (Dict.keys d).
Proof.
  destruct (Dict.contains k d) eqn:E; symmetry.
  - apply existsb_eqb_In. now apply contains_keys.
  - destruct (existsb (String.eqb k) (Dict.keys d)) eqn:E'; [|reflexivity].
    apply existsb_eqb_In, contains_keys in E'. congruence.
Qed.

Lemma first_appearances_ext (seen seen' l : list string) :
  (forall x, In x seen <-> In x seen') ->
  first_appearances seen l = first_appearances seen' l.
Proof.
  revert seen seen'. induction l as [|x l IH]; intros seen seen' H; cbn [first_appearances];
    [reflexivity|].
  assert (E : existsb (String.eqb x) seen = existsb (String.eqb x) seen').
  { destruct (existsb (String.eqb x) seen) eqn:E1; symmetry.
    - apply existsb_eqb_In. apply H. now apply existsb_eqb_In.
    - destruct (existsb (String.eqb x) seen') eqn:E2; [|reflexivity].
      apply existsb_eqb_In, H, existsb_eqb_In in E2. congruence. }
  rewrite E. destruct (existsb (String.eqb x) seen'); [now apply IH|].
  f_equal. apply IH. intros y. cbn [In]. now rewrite H.
Qed.

Lemma total_options_setitem_new (key : string) (g : ticket_lists) (d : Dict.t ticket_lists) :
  Dict.contains key d = false ->
  total_options (Dict.setitem key g d) = total_options d + length (ticket_price_gbp g).
Proof.
  unfold Dict.contains, Dict.get.
  induction d as [|[k0 g0] d IH]; cbn [Dict.setitem assoc total_options]; [lia|].
  destruct (String.eqb key k0); [discriminate|]. intros H.
  cbn [total_options]. rewrite IH by assumption. lia.
Qed.

Lemma total_options_setitem_old (key : string) (g g0 : ticket_lists) (d : Dict.t ticket_lists) :
  Dict.get key d = Some g0 ->
  total_options (Dict.setitem key g d) + length (ticket_price_gbp g0)
  = total_options d + length (ticket_price_gbp g).
Proof.
  unfold Dict.get.
  induction d as [|[k1 g1] d IH]; cbn [Dict.setitem assoc total_options]; [discriminate|].
  destruct (String.eqb key k1).
  - intros H. inversion H; subst. cbn [total_options]. lia.
  - intros H. cbn [total_options]. specialize (IH H). lia.
Qed.

Lemma length_append_row (g : ticket_lists) (ticket_data : ticket_data) :
  length (ticket_price_gbp (append_row g ticket_data)) = S (length (ticket_price_gbp g)).
Proof.
  destruct g as [tys ves sts prs]. unfold append_row, for_each_field2.
  cbn [ticket_price_gbp]. rewrite length_app. cbn [length]. lia.
Qed.

(** The fold of the specification, from any accumulator whose last key, if
    set, is a key of the mapping. *)
Lemma group_rows_from_keys_total (views : list row_view)
  (d d' : Dict.t ticket_lists) (cur : option string) :
  (forall key, cur = Some key -> Dict.contains key d = true) ->
  group_rows_from (d, cur) views = Some d' ->
  Dict.keys d' = Dict.keys d ++ first_appearances (Dict.keys d) (keys_of_views views)
  /\ total_options d' = total_options d + continuations views
                        + length (first_appearances (Dict.keys d) (keys_of_views views)).
Proof.
  revert d cur. induction views as [|[[key|] td] views IH]; intros d cur Hcur;
    cbn [group_rows_from group_step fst snd keys_of_views continuations first_appearances].
  - intros H. inversion H; subst. rewrite app_nil_r. cbn [length]. split; [reflexivity | lia].
  - rewrite <- contains_existsb. destruct (Dict.contains key d) eqn:Ec.
    + intros H. apply IH in H; [exact H|]. intros k E. now inversion E; subst.
    + intros H. apply IH in H.
      2:{ intros k E. inversion E; subst. unfold Dict.contains. rewrite get_setitem.
          now rewrite String.eqb_refl. }
      rewrite keys_setitem, Ec in H. rewrite total_options_setitem_new in H by assumption.
      destruct H as [H1 H2]. rewrite <- app_assoc in H1. cbn [app] in H1.
      assert (E : first_appearances (Dict.keys d ++ [key]) (keys_of_views views)
                  = first_appearances (key :: Dict.keys d) (keys_of_views views)).
      { apply first_appearances_ext. intros x. rewrite in_app_iff. cbn [In]. tauto. }
      rewrite E in H1, H2. split; [exact H1|].
      rewrite H2. unfold seed, for_each_field. cbn [ticket_price_gbp length]. lia.
  - destruct cur as [key|]; [|discriminate].
    pose proof (Hcur key eq_refl) as Hc. unfold Dict.contains in Hc.
    destruct (Dict.get key d) as [g|] eqn:Eg; [|discriminate].
    intros H. apply IH in H.
    2:{ intros k E. inversion E; subst. unfold Dict.contains. rewrite get_setitem.
        now rewrite String.eqb_refl. }
    assert (Hin : Dict.contains key d = true) by (unfold Dict.contains; now rewrite Eg).
    rewrite keys_setitem, Hin in H. destruct H as [H1 H2]. split; [exact H1|].
    pose proof (total_options_setitem_old key (append_row g td) g d Eg) as T.
    rewrite length_append_row in T. lia.
Qed.

Lemma length_ticket_frame (d : Dict.t ticket_lists) :
  length (flat_map (fun kv => exploded_group (fst kv) (snd kv)) d) = total_options d.
Proof.
  induction d as [|[k g] d IH]; cbn [flat_map total_options fst snd]; [reflexivity|].
  now rewrite length_app, length_exploded_group, IH.
Qed.

Lemma keys_of_views_start_with_event (rows : list Tag) (views : list row_view) :
  comprehension view_row rows = Ok views ->
  Forall (fun key => Str.startswith "/event" key = true) (keys_of_views views).
Proof.
  revert views. induction rows as [|row rows IH]; intros views; cbn [comprehension].
  - intros H. inversion H. constructor.
  - destruct (view_row row) as [[key td]|e] eqn:Ev; [|discriminate]. cbn [bind].
    destruct (comprehension view_row rows) as [views'|e]; [|discriminate]. cbn [bind].
    intros H. inversion H; subst. unfold view_row in Ev.
    destruct (row_ticket_data row); [|discriminate]. cbn [bind] in Ev. inversion Ev; subst.
    destruct (row_key row) as [k|] eqn:Ek; cbn [keys_of_views]; [|now apply IH].
    constructor; [now apply (row_key_starts_with_event row) | now apply IH].
Qed.

Lemma first_appearances_incl (seen l : list string) (x : string) :
  In x (first_appearances seen l) -> In x l.
Proof.
  revert seen. induction l as [|y l IH]; intros seen; cbn [first_appearances]; [intros []|].
  destruct (existsb (String.eqb y) seen).
  - intros H. right. now apply (IH seen).
  - intros [->|H]; [now left | right; now apply (IH (y :: seen))].
Qed.

(** The extractor against the grouping of the specification, and along a
    row list put together from two. *)
Lemma extract_groups (rows : list Tag) (views : list row_view) (d : Dict.t ticket_lists) :
  comprehension view_row rows = Ok views ->
  extract_ticket_price_options rows = Ok d ->
  group_rows views = Some d.
Proof.
  intros Hv. unfold extract_ticket_price_options.
  rewrite (ticket_loop_refines rows views Dict.empty EmptyString None) by (auto; now left).
  fold (group_rows views). destruct (group_rows views); [|discriminate].
  intros H. now inversion H.
Qed.

Lemma extract_mapping (rows : list Tag) (d : Dict.t ticket_lists) :
  extract_ticket_price_options rows = Ok d -> ticket_mapping d.
Proof.
  unfold extract_ticket_price_options.
  destruct (ticket_loop rows (Dict.empty, EmptyString)) as [st|e] eqn:E; [|discriminate].
  cbn [bind]. intros H. inversion H; subst.
  exact (ticket_loop_mapping rows (Dict.empty, EmptyString) st ticket_mapping_empty E).
Qed.

Lemma ticket_loop_app (rows rows' : list Tag) (st : ticket_state) :
  ticket_loop (rows ++ rows') st = (st' <- ticket_loop rows st ;; ticket_loop rows' st').
Proof.
  revert st. induction rows as [|row rows IH]; intros st; cbn [app ticket_loop bind];
    [reflexivity|].
  destruct (ticket_step st row) as [st1|e]; cbn [bind]; [apply IH | reflexivity].
Qed.

Lemma extract_state (rows : list Tag) (d : Dict.t ticket_lists) :
  extract_ticket_price_options rows = Ok d ->
  exists last, ticket_loop rows (Dict.empty, EmptyString) = Ok (d, last).
Proof.
  unfold extract_ticket_price_options.
  destruct (ticket_loop rows (Dict.empty, EmptyString)) as [[d' last]|e]; [|discriminate].
  cbn [bind fst]. intros H. inversion H; subst. now exists last.
Qed.

(** X4.  The keys of the mapping are the event links of the rows in the
    order in which the page first shows them, each once, and each starts
    with "/event". *)
Theorem group_keys_in_page_order (rows : list Tag) (views : list row_view)
  (d : Dict.t ticket_lists) :
  comprehension view_row rows = Ok views ->
  extract_ticket_price_options rows = Ok d ->
  Dict.keys d = first_appearances [] (keys_of_views views)
  /\ NoDup (Dict.keys d)
  /\ Forall (fun key => Str.startswith "/event" key = true) (Dict.keys d).
Proof.
  intros Hv He. pose proof (extract_groups _ _ _ Hv He) as Hg.
  unfold group_rows in Hg.
  apply group_rows_from_keys_total in Hg; [|discriminate].
  destruct Hg as [Hk _]. cbn [Dict.keys Dict.empty map app] in Hk.
  split; [exact Hk|]. split; [exact (proj1 (extract_mapping _ _ He))|].
  fold (Dict.keys d). rewrite Hk. apply Forall_forall. intros key Hin.
  apply first_appearances_incl in Hin.
  pose proof (keys_of_views_start_with_event _ _ Hv) as F.
  rewrite Forall_forall in F. now apply F.
Qed.

(** X5.  The mapping holds one ticket option for every row without an event
    link and one for every key: of the rows that bring a key, only the first
    of each key counts.  The exploded ticket frame has as many rows. *)
Theorem ticket_options_counted (rows : list Tag) (views : list row_view)
  (d : Dict.t ticket_lists) :
  comprehension view_row rows = Ok views ->
  extract_ticket_price_options rows = Ok d ->
  total_options d = continuations views + length (Dict.keys d)
  /\ exists ticket_df, ticket_df_of d = Ok ticket_df /\ length ticket_df = total_options d.
Proof.
  intros Hv He. pose proof (extract_groups _ _ _ Hv He) as Hg.
  unfold group_rows in Hg.
  apply group_rows_from_keys_total in Hg; [|discriminate].
  destruct Hg as [Hk Ht]. cbn [Dict.keys Dict.empty map app total_options] in Hk, Ht.
  split.
  - fold (Dict.keys d). rewrite Hk, Ht. lia.
  - eexists. split; [apply ticket_df_of_mapping; exact (extract_mapping _ _ He)|].
    apply length_ticket_frame.
Qed.

(** X6.  A row that brings a key the mapping has already leaves the mapping
    as it is: its own values are dropped.  A row without an event link that
    comes next goes to the group of that key. *)
Theorem repeated_key_row_is_dropped (pre : list Tag) (row next : Tag)
  (d : Dict.t ticket_lists) (key : string) (g : ticket_lists)
  (ticket_data ticket_data' : ticket_data) :
  extract_ticket_price_options pre = Ok d ->
  Dict.get key d = Some g ->
  view_row row = Ok (Some key, ticket_data) ->
  view_row next = Ok (None, ticket_data') ->
  extract_ticket_price_options (pre ++ [row]) = Ok d
  /\ extract_ticket_price_options (pre ++ [row; next])
     = Ok (Dict.setitem key (append_row g ticket_data') d).
Proof.
  intros He Hg Hrow Hnext. destruct (extract_state _ _ He) as [last Hl].
  assert (Hc : Dict.contains key d = true) by (unfold Dict.contains; now rewrite Hg).
  assert (Hs : ticket_step (d, last) row = Ok (d, key)).
  { unfold view_row in Hrow.
    destruct (row_ticket_data row) as [td|e] eqn:Etd; [|discriminate].
    cbn [bind] in Hrow. inversion Hrow as [[Hk Htd]].
    unfold ticket_step. rewrite Etd. cbn [bind]. unfold row_key in Hk.
    destruct (select_one_a_href_prefix "/event" row) as [a|]; [|discriminate].
    unfold getitem_attr. rewrite Hk. cbn [bind]. now rewrite Hc. }
  assert (Hn : ticket_step (d, key) next
               = Ok (Dict.setitem key (append_row g ticket_data') d, key)).
  { unfold view_row in Hnext.
    destruct (row_ticket_data next) as [td|e] eqn:Etd; [|discriminate].
    cbn [bind] in Hnext. inversion Hnext as [[Hk Htd]].
    unfold ticket_step. rewrite Etd. cbn [bind]. unfold row_key in Hk.
    destruct (select_one_a_href_prefix "/event" next) as [a|] eqn:Ea.
    - destruct (select_one_href _ _ _ Ea) as [h [Hh _]]. congruence.
    - unfold Dict.getitem. rewrite Hg. cbn [bind]. now subst. }
  unfold extract_ticket_price_options. rewrite !ticket_loop_app, Hl. cbn [bind ticket_loop].
  rewrite Hs. cbn [bind]. rewrite Hn. cbn [bind fst]. now split.
Qed.

(** X7.  After rows that were grouped, a row whose fields cannot be read
    makes the extractor raise the error of reading it, whatever follows. *)
Theorem unreadable_row_raises_its_error (pre post : list Tag) (bad : Tag)
  (d : Dict.t ticket_lists) (e : exn) :
  extract_ticket_price_options pre = Ok d ->
  row_ticket_data bad = Raise e ->
  extract_ticket_price_options (pre ++ bad :: post) = Raise e.
Proof.
  intros He Hbad. destruct (extract_state _ _ He) as [last Hl].
  unfold extract_ticket_price_options. rewrite ticket_loop_app, Hl. cbn [bind ticket_loop].
  unfold ticket_step. now rewrite Hbad.
Qed.

(** ** Dates, written and read back *)

Module StrptimeWritten.
Import Strptime.

Lemma two_digits_below_100 (n : nat) : n < 100 -> two_digits n = true.
Proof.
  intros H.
  assert (A : forallb two_digits (seq 0 100) = true) by (vm_compute; reflexivity).
  rewrite forallb_forall in A. apply A. apply in_seq. lia.
Qed.

Lemma four_digits_year (n : nat) : 1000 <= n < 10 * 1000 -> four_digits n = true.
Proof.
  intros H.
  assert (A : forallb four_digits (seq 1000 (9 * 1000)) = true) by (vm_compute; reflexivity).
  rewrite forallb_forall in A. apply A. apply in_seq. lia.
Qed.

Lemma isdigit_not_space (c : ascii) : Str.isdigit c = true -> Str.isspace c = false.
Proof.
  unfold Str.isdigit, Str.isspace. intros H. apply andb_true_iff in H as [H1 H2].
  apply Nat.leb_le in H1, H2. apply orb_false_iff. split; apply andb_false_iff; right;
    apply Nat.leb_gt; lia.
Qed.

Lemma hd_then {A : Type} (p : matcher) (k : string -> string -> list A) (s m r : string)
  (l : list (string * string)) (y : A) :
  p s = (m, r) :: l -> hd_error (k m r) = Some y -> hd_error (then_ p k s) = Some y.
Proof.
  intros Hp Hk. unfold then_. rewrite Hp. cbn [flat_map fst snd].
  destruct (k m r) as [|y' l']; [discriminate|]. exact Hk.
Qed.

Lemma re_d_head (n : nat) (rest : string) :
  1 <= n <= 31 -> exists l, re_d (Str.of_nat_02 n +++ rest) = (Str.of_nat_02 n, rest) :: l.
Proof.
  intros H. destruct n as [|n]; [lia|].
  do 31 (destruct n as [|n]; [eexists; reflexivity|]). lia.
Qed.

Lemma re_H_head (n : nat) (rest : string) :
  n <= 23 -> exists l, re_H (Str.of_nat_02 n +++ rest) = (Str.of_nat_02 n, rest) :: l.
Proof.
  intros H. do 24 (destruct n as [|n]; [eexists; reflexivity|]). lia.
Qed.

Lemma re_M_head (n : nat) :
  n <= 59 -> exists l, re_M (Str.of_nat_02 n) = (Str.of_nat_02 n, EmptyString) :: l.
Proof.
  intros H. do 60 (destruct n as [|n]; [eexists; reflexivity|]). lia.
Qed.

Lemma re_b_head (m : nat) (rest : string) :
  1 <= m <= 12 ->
  re_b (nth (m - 1) month_abbreviations EmptyString +++ rest)
  = [(nth (m - 1) month_abbreviations EmptyString, rest)]
  /\ month_number (nth (m - 1) month_abbreviations EmptyString) = m
  /\ exists c b, nth (m - 1) month_abbreviations EmptyString = String c b
                 /\ Str.isspace c = false.
Proof.
  intros H. destruct m as [|m]; [lia|].
  do 12 (destruct m as [|m]; [repeat split; eexists; eexists; split; reflexivity|]). lia.
Qed.

Lemma re_spaces_one (c : ascii) (rest : string) :
  Str.isspace c = false ->
  re_spaces (" " +++ String c rest) = [(" ", String c rest)].
Proof. intros H. cbn. now rewrite H. Qed.

Lemma strptime_head (s : string) (g : groups) :
  hd_error (re_format s) = Some (g, EmptyString) -> valid (of_groups g) = true ->
  strptime s = Ok (of_groups g).
Proof.
  unfold strptime. destruct (re_format s) as [|[g' rest] l]; [discriminate|].
  cbn [hd_error]. intros H V. inversion H; subst. now rewrite V.
Qed.

Lemma strptime_written (t : datetime) :
  1000 <= year t < 10 * 1000 -> 1 <= month t <= 12 ->
  1 <= day t <= days_in_month (year t) (month t) ->
  hour t <= 23 -> minute t <= 59 ->
  strptime (written t) = Ok t.
Proof.
  destruct t as [y mo d h mi]. cbn [year month day hour minute]. intros Hy Hmo Hd Hh Hmi.
  assert (Hd31 : d <= 31).
  { unfold days_in_month in Hd.
    destruct mo as [|[|[|[|[|[|[|[|[|[|[|[|?]]]]]]]]]]]]; try lia;
      destruct (is_leap y); lia. }
  unfold written. cbn [year month day hour minute].
  (* the year *)
  pose proof (four_digits_year y Hy) as Fy. unfold four_digits in Fy.
  destruct (Str.of_nat y) as [|ya [|yb [|yc [|yd [|? ?]]]]]; try discriminate.
  apply andb_true_iff in Fy as [Fy Ey]. apply Nat.eqb_eq in Ey.
  pose proof Fy as Fy'.
  apply andb_true_iff in Fy as [Fy Dd]. apply andb_true_iff in Fy as [Fy Dc].
  apply andb_true_iff in Fy as [Da Db].
  (* the numbers of two digits *)
  pose proof (two_digits_below_100 d ltac:(lia)) as Fd. unfold two_digits in Fd.
  pose proof (two_digits_below_100 h ltac:(lia)) as Fh. unfold two_digits in Fh.
  pose proof (two_digits_below_100 mi ltac:(lia)) as Fm. unfold two_digits in Fm.
  destruct (re_d_head d (" " +++ nth (mo - 1) month_abbreviations EmptyString +++ " "
                         +++ String ya (String yb (String yc (String yd EmptyString))) +++ " "
                         +++ Str.of_nat_02 h +++ ":" +++ Str.of_nat_02 mi) ltac:(lia))
    as [ld Hrd].
  destruct (re_H_head h (":" +++ Str.of_nat_02 mi) Hh) as [lh Hrh].
  destruct (re_M_head mi Hmi) as [lm Hrm].
  destruct (Str.of_nat_02 d) as [|da [|db [|? ?]]] eqn:Ed; try discriminate.
  destruct (Str.of_nat_02 h) as [|ha [|hb [|? ?]]] eqn:Eh; try discriminate.
  destruct (Str.of_nat_02 mi) as [|ma [|mb [|? ?]]] eqn:Em; try discriminate.
  apply andb_true_iff in Fd as [Fd Vd]. apply Nat.eqb_eq in Vd.
  apply andb_true_iff in Fh as [Fh Vh]. apply Nat.eqb_eq in Vh.
  apply andb_true_iff in Fh as [Dha Dhb].
  apply andb_true_iff in Fm as [Fm Vm]. apply Nat.eqb_eq in Vm.
  destruct (re_b_head mo (" " +++ String ya (String yb (String yc (String yd EmptyString)))
                          +++ " " +++ String ha (String hb EmptyString) +++ ":"
                          +++ String ma (String mb EmptyString)) Hmo)
    as (Hrb & Vmo & cb & bb & Eb & Sb).
  rewrite Eb in *.
  set (g := {| g_d := String da (String db EmptyString);
               g_b := String cb bb;
               g_Y := String ya (String yb (String yc (String yd EmptyString)));
               g_H := String ha (String hb EmptyString);
               g_M := String ma (String mb EmptyString) |}).
  assert (G : of_groups g = {| year := y; month := mo; day := d; hour := h; minute := mi |}).
  { unfold of_groups, g. cbn [g_d g_b g_Y g_H g_M]. now rewrite Ey, Vmo, Vd, Vh, Vm. }
  rewrite <- G. apply strptime_head.
  2:{ rewrite G. unfold valid. cbn [year month day].
      apply andb_true_iff. split; apply Nat.leb_le; lia. }
  unfold re_format.
  eapply hd_then; [exact Hrd|].
  eapply hd_then; [apply re_spaces_one; exact Sb|].
  eapply hd_then; [exact Hrb|].
  eapply hd_then; [apply re_spaces_one; now apply isdigit_not_space|].
  eapply hd_then.
  { change (String ya (String yb (String yc (String yd EmptyString))) +++ " "
            +++ String ha (String hb EmptyString) +++ ":" +++ String ma (String mb EmptyString))
      with (String ya (String yb (String yc (String yd
              (" " +++ String ha (String hb EmptyString) +++ ":"
               +++ String ma (String mb EmptyString)))))).
    unfold re_Y. rewrite Fy'. reflexivity. }
  eapply hd_then; [apply re_spaces_one; now apply isdigit_not_space|].
  eapply hd_then; [exact Hrh|].
  eapply hd_then; [reflexivity|].
  eapply hd_then; [exact Hrm|].
  reflexivity.
Qed.

End StrptimeWritten.

Module StrptimeRange.
Import Strptime.

Lemma length_append (a b : string) :
  String.length (a +++ b) = String.length a + String.length b.
Proof. induction a as [|c a IH]; cbn [String.append String.length]; [reflexivity | now rewrite IH]. Qed.

Lemma length_of_nat_02 (n : nat) : n < 100 -> String.length (Str.of_nat_02 n) = 2.
Proof.
  intros H. pose proof (StrptimeWritten.two_digits_below_100 n H) as F.
  unfold two_digits in F.
  destruct (Str.of_nat_02 n) as [|a [|b [|? ?]]]; try discriminate. reflexivity.
Qed.

Lemma length_of_nat_year (n : nat) : 1000 <= n < 10 * 1000 -> String.length (Str.of_nat n) = 4.
Proof.
  intros H. pose proof (StrptimeWritten.four_digits_year n H) as F.
  unfold four_digits in F.
  destruct (Str.of_nat n) as [|a [|b [|c [|d [|? ?]]]]]; try discriminate. reflexivity.
Qed.

Lemma index_of_lt (w : string) (l : list string) :
  existsb (String.eqb w) l = true -> index_of w l < length l.
Proof.
  induction l as [|x l IH]; cbn [existsb index_of length]; [discriminate|].
  destruct (String.eqb w x); cbn [orb]; [lia|]. intros H. specialize (IH H). lia.
Qed.

Lemma digit_value_le (c : ascii) : Str.isdigit c = true -> nat_of_ascii c - 48 <= 9.
Proof.
  unfold Str.isdigit. intros H. apply andb_true_iff in H as [H1 H2].
  apply Nat.leb_le in H2. lia.
Qed.

Lemma year_text_range (s : string) : year_text s = true -> int_text s < 10 * 1000.
Proof.
  unfold year_text. intros H. apply andb_true_iff in H as [Hl Hd].
  destruct s as [|a [|b [|c [|d [|? ?]]]]]; try discriminate.
  cbn [all_chars] in Hd.
  apply andb_true_iff in Hd as [Da Hd]. apply andb_true_iff in Hd as [Db Hd].
  apply andb_true_iff in Hd as [Dc Hd]. apply andb_true_iff in Hd as [Dd _].
  unfold int_text. cbn [int_text_from]. rewrite Da, Db, Dc, Dd.
  apply digit_value_le in Da, Db, Dc, Dd.
  generalize dependent (nat_of_ascii a - 48). generalize dependent (nat_of_ascii b - 48).
  generalize dependent (nat_of_ascii c - 48). generalize dependent (nat_of_ascii d - 48).
  intros. lia.
Qed.

(** What [strptime] returns is a date of the calendar and a time of the day. *)
Lemma strptime_range (s : string) (t : datetime) :
  strptime s = Ok t ->
  1 <= year t < 10 * 1000 /\ 1 <= month t <= 12
  /\ 1 <= day t <= days_in_month (year t) (month t)
  /\ hour t <= 23 /\ minute t <= 59.
Proof.
  intros H. destruct (StrptimeFacts.strptime_sound _ _ H) as [g [M ->]].
  destruct M as (w1 & w2 & w3 & _ & Hd & _ & Hb & _ & Hy & _ & Hh & Hm & V).
  unfold of_groups in *. cbn [year month day hour minute] in *.
  unfold valid in V. cbn [year month day] in V.
  apply andb_true_iff in V as [V1 V2]. apply Nat.leb_le in V1, V2.
  unfold day_text in Hd. apply andb_true_iff in Hd as [Hd Hd2].
  apply andb_true_iff in Hd as [_ Hd1]. apply Nat.leb_le in Hd1, Hd2.
  unfold hour_text in Hh. apply andb_true_iff in Hh as [_ Hh]. apply Nat.leb_le in Hh.
  unfold minute_text in Hm. apply andb_true_iff in Hm as [_ Hm]. apply Nat.leb_le in Hm.
  apply year_text_range in Hy.
  unfold month_text in Hb. apply andb_true_iff in Hb as [_ Hb].
  apply index_of_lt in Hb. change (length month_names) with 12 in Hb.
  unfold month_number in *. repeat split; lia.
Qed.

End StrptimeRange.

Section DateAndTime.

Variable decode : node -> string.

(** X10.  A block without a clock icon makes [get_event_date_and_time]
    raise [AttributeError].  A clock icon with nothing after it in the
    document gives the text "None" to the parser, which raises
    [ValueError]. *)
Theorem event_date_and_time_errors (event_item : Tag) :
  (find_class "i" "glyphicon glyphicon-time" event_item = None ->
   get_event_date_and_time decode event_item = Raise AttributeError)
  /\ (forall i, find_class "i" "glyphicon glyphicon-time" event_item = Some i ->
                next_element i = None ->
                get_event_date_and_time decode event_item = Raise ValueError).
Proof.
  unfold get_event_date_and_time, icon_adjacent_text. split.
  - now intros ->.
  - intros i -> ->. reflexivity.
Qed.

(** X8.  The date and the time that [get_event_date_and_time] returns are
    those of a day of the calendar and a minute of the day: a month from 1
    to 12, a day the month has, an hour up to 23, a minute up to 59.  The
    time has five characters, and the date ten when the year has four
    digits. *)
Theorem event_date_and_time_shape (event_item : Tag) (event_date event_time : string) :
  get_event_date_and_time decode event_item = Ok (event_date, event_time) ->
  exists t,
    event_date = Strptime.strftime_date t /\ event_time = Strptime.strftime_time t
    /\ 1 <= Strptime.year t < 10 * 1000 /\ 1 <= Strptime.month t <= 12
    /\ 1 <= Strptime.day t <= Strptime.days_in_month (Strptime.year t) (Strptime.month t)
    /\ Strptime.hour t <= 23 /\ Strptime.minute t <= 59
    /\ String.length event_time = 5
    /\ (1000 <= Strptime.year t -> String.length event_date = 10).
Proof.
  unfold get_event_date_and_time.
  destruct (icon_adjacent_text decode event_item) as [s|]; [|discriminate].
  destruct (Strptime.strptime s) as [t|e] eqn:E; [|discriminate]. cbn [bind].
  intros H. inversion H; subst. exists t.
  destruct (StrptimeRange.strptime_range _ _ E) as (Hy & Hm & Hd & Hh & Hmi).
  assert (Hd31 : Strptime.day t <= 31).
  { unfold Strptime.days_in_month in Hd.
    destruct (Strptime.month t) as [|[|[|[|[|[|[|[|[|[|[|[|?]]]]]]]]]]]]; try lia;
      destruct (Strptime.is_leap (Strptime.year t)); lia. }
  repeat (split; [assumption || reflexivity|]). split.
  - unfold Strptime.strftime_time.
    rewrite !StrptimeRange.length_append, !StrptimeRange.length_of_nat_02 by lia.
    reflexivity.
  - intros Hy'. unfold Strptime.strftime_date.
    rewrite !StrptimeRange.length_append, !StrptimeRange.length_of_nat_02 by lia.
    rewrite StrptimeRange.length_of_nat_year by lia. reflexivity.
Qed.

(** X9.  A date and time of the years 1000 to 9999, written after the clock
    icon as day, month abbreviation, year, hour and minute, with any white
    space around it, is read back as that date and that time. *)
Theorem event_date_and_time_of_written (event_item i : Tag) (s : string)
  (t : Strptime.datetime) :
  find_class "i" "glyphicon glyphicon-time" event_item = Some i ->
  next_element i = Some (NavigableString s) ->
  Str.strip s = written t ->
  1000 <= Strptime.year t < 10 * 1000 -> 1 <= Strptime.month t <= 12 ->
  1 <= Strptime.day t <= Strptime.days_in_month (Strptime.year t) (Strptime.month t) ->
  Strptime.hour t <= 23 -> Strptime.minute t <= 59 ->
  get_event_date_and_time decode event_item
  = Ok (Strptime.strftime_date t, Strptime.strftime_time t).
Proof.
  intros Hi Hn Hs Hy Hm Hd Hh Hmi.
  unfold get_event_date_and_time, icon_adjacent_text. rewrite Hi, Hn.
  cbn [str_of]. rewrite Hs, StrptimeWritten.strptime_written by assumption.
  reflexivity.
Qed.

End DateAndTime.

(** ** Trimmed text *)

Lemma lstrip_head (s : string) :
  match Str.lstrip s with
  | EmptyString => True
  | String c _ => Str.isspace c = false
  end.
Proof.
  induction s as [|c s IH]; cbn [Str.lstrip]; [exact I|].
  destruct (Str.isspace c) eqn:E; [exact IH | exact E].
Qed.

Lemma rstrip_head (c : ascii) (s : string) :
  Str.isspace c = false -> exists r, Str.rstrip (String c s) = String c r.
Proof.
  intros H. cbn [Str.rstrip]. rewrite H. destruct (Str.rstrip s); eauto.
Qed.

Lemma rstrip_idempotent (s : string) : Str.rstrip (Str.rstrip s) = Str.rstrip s.
Proof.
  induction s as [|c s IH]; [reflexivity|]. cbn [Str.rstrip].
  destruct (Str.rstrip s) as [|d r] eqn:E.
  - destruct (Str.isspace c) eqn:Ec; [reflexivity|]. cbn [Str.rstrip]. now rewrite Ec.
  - change (Str.rstrip (String c (String d r))) with
      (match Str.rstrip (String d r) with
       | EmptyString => if Str.isspace c then EmptyString else String c EmptyString
       | String x y => String c (String x y)
       end).
    now rewrite IH.
Qed.

Lemma lstrip_fixed (s : string) :
  match s with EmptyString => True | String c _ => Str.isspace c = false end ->
  Str.lstrip s = s.
Proof. destruct s as [|c s]; [reflexivity|]. cbn [Str.lstrip]. now intros ->. Qed.

(** Trimming trimmed text changes nothing. *)
Lemma strip_idempotent (s : string) : Str.strip (Str.strip s) = Str.strip s.
Proof.
  unfold Str.strip. rewrite lstrip_fixed; [apply rstrip_idempotent|].
  pose proof (lstrip_head s) as H. destruct (Str.lstrip s) as [|c r]; [exact I|].
  destruct (rstrip_head c r H) as [r' ->]. exact H.
Qed.

(** ** The last segment of a split *)

Lemma getitem_last_app {A : Type} (l : list A) (x : A) : getitem_last (l ++ [x]) = Ok x.
Proof. unfold getitem_last. now rewrite rev_app_distr. Qed.

Lemma split_last (sep : ascii) (s : string) :
  exists init seg,
    Str.split sep s = init ++ [seg] /\ lacks sep seg = true
    /\ s = segments_before sep init +++ seg.
Proof.
  induction s as [|c s (init & seg & Hs & Hl & Hj)].
  - exists [], EmptyString. repeat split.
  - cbn [Str.split]. destruct (Ascii.eqb c sep) eqn:E.
    + apply Ascii.eqb_eq in E. subst c.
      exists (EmptyString :: init), seg. rewrite Hs. repeat split; [assumption|].
      cbn [segments_before String.append]. now rewrite <- Hj.
    + rewrite Hs. destruct init as [|h t]; cbn [app].
      * exists [], (String c seg). cbn [segments_before String.append app] in *.
        repeat split; [|now rewrite <- Hj].
        unfold lacks in *. cbn [all_chars]. now rewrite E, Hl.
      * exists (String c h :: t), seg. repeat split; [assumption|].
        cbn [segments_before String.append] in *. now rewrite <- Hj.
Qed.

Lemma segments_before_end (sep : ascii) (init : list string) :
  init = [] \/ exists b, segments_before sep init = b +++ String sep EmptyString.
Proof.
  induction init as [|x init IH]; [now left|]. right. cbn [segments_before].
  destruct IH as [-> | [b Hb]].
  - exists x. reflexivity.
  - exists (x +++ String sep b). rewrite Hb.
    rewrite append_assoc. reflexivity.
Qed.

(** ** The event getters *)

Section GetterFacts.

Variable decode : node -> string.
Variable normalize_NFKC : string -> string.
Variable unquote : string -> string.

(** X11.  When text follows the muted label, the venue is the trimmed text
    after the last "|" of it, the whole text when it has none: the venue
    holds no "|", and what stands before it is empty or ends with "|". *)
Theorem event_venue_is_last_segment (event_item small : Tag) (s : string) :
  find_class "small" "text-muted" event_item = Some small ->
  next_sibling small = Some (NavigableString s) ->
  exists before seg,
    get_event_venue event_item = Ok (VStr (Str.strip seg))
    /\ s = before +++ seg
    /\ lacks "|" seg = true
    /\ (before = EmptyString \/ exists b, before = b +++ "|").
Proof.
  intros Hsm Hs. unfold get_event_venue. rewrite Hsm, Hs. unfold Str.rsplit.
  destruct (split_last "|" s) as (init & seg & Hsplit & Hl & Hj).
  exists (segments_before "|" init), seg. rewrite Hsplit, getitem_last_app.
  cbn [bind]. repeat split; try assumption.
  destruct (segments_before_end "|" init) as [-> | H]; [now left | now right].
Qed.

Lemma split_once_category (X : string) :
  split_once "=" ("?category=" +++ X) = ["?category"; X].
Proof. reflexivity. Qed.

Lemma parse_qs_category (X : string) :
  X <> EmptyString -> lacks "&" X = true ->
  unquote "?category" = "?category" ->
  Dict.getitem "?category" (parse_qs unquote ("?category=" +++ X))
  = Ok [unquote (Str.replace "+" " " X)].
Proof.
  intros Hne Hl Hu. unfold parse_qs, parse_qsl.
  change ("?category=" +++ X) with (String "?" ("category=" +++ X)) at 1.
  cbv beta iota.
  rewrite split_no_sep.
  2:{ unfold lacks in *. rewrite all_chars_app, Hl. reflexivity. }
  cbn [flat_map app]. rewrite split_once_category.
  destruct X as [|c X]; [contradiction|].
  change (Str.replace "+" " " "?category") with "?category". rewrite Hu.
  cbn [fold_left fst snd]. unfold Dict.getitem, Dict.get, Dict.empty.
  cbn [assoc Dict.setitem]. reflexivity.
Qed.

(** X12.  When every category button links to "?category=" followed by a
    value without "&", and unquoting leaves the name "?category" as it is,
    the categories are the values in document order, each with "+" read
    as a space and then unquoted. *)
Theorem event_categories_read (event_item : Tag) (queries : list string) :
  unquote "?category" = "?category" ->
  Forall2 (fun category X =>
             get_attr "href" category = Some ("?category=" +++ X)
             /\ X <> EmptyString /\ lacks "&" X = true)
          (find_all_class "a" "btn btn-xs btn-primary" event_item) queries ->
  get_event_categories unquote event_item
  = Ok (map (fun X => unquote (Str.replace "+" " " X)) queries).
Proof.
  intros Hu. unfold get_event_categories.
  generalize (find_all_class "a" "btn btn-xs btn-primary" event_item).
  intros anchors F. induction F as [|a X anchors queries (Hh & Hne & Hl) _ IH];
    cbn [comprehension map]; [reflexivity|].
  unfold getitem_attr at 1. rewrite Hh. cbn [bind].
  rewrite parse_qs_category by assumption. cbn [bind getitem nth_error].
  now rewrite IH.
Qed.

(** X13.  [get_event_categories] raises nothing but [KeyError]: for the
    missing [href] of a button, or for a link whose query has no
    "?category" name.  The value list of a name is never empty, so taking
    its first value cannot fail. *)
Theorem event_categories_errors (event_item : Tag) (e : exn) :
  get_event_categories unquote event_item = Raise e ->
  e = KeyError "href" \/ e = KeyError "?category".
Proof.
  unfold get_event_categories.
  generalize (find_all_class "a" "btn btn-xs btn-primary" event_item).
  intros anchors. induction anchors as [|a anchors IH]; cbn [comprehension]; [discriminate|].
  unfold getitem_attr at 1. destruct (get_attr "href" a) as [href|]; cbn [bind].
  2:{ intros H. inversion H. now left. }
  unfold Dict.getitem at 1.
  destruct (Dict.get "?category" (parse_qs unquote href)) as [vs|] eqn:E; cbn [bind].
  2:{ intros H. inversion H. now right. }
  apply parse_qs_nonempty in E. destruct vs as [|v vs]; [contradiction|].
  cbn [getitem nth_error bind].
  destruct (comprehension _ anchors) as [ys|e']; cbn [bind]; [discriminate|].
  intros H. inversion H; subst. now apply IH.
Qed.

(** X14.  The columns of the record of a block: the date and time are what
    [get_event_date_and_time] returns, the title and every artist are
    trimmed, the long URL is the site address followed by the short URL,
    the description went through the normalisation, artists and categories
    are joined by line breaks, and [interested] is 0. *)
Theorem event_record_columns (event : Tag) (r : event_record) :
  event_record_of decode normalize_NFKC unquote event = Ok r ->
  exists event_date event_time event_title event_short_url blurb artist_list category_list,
    get_event_date_and_time decode event = Ok (event_date, event_time)
    /\ r Col.date = Some (VStr event_date) /\ r Col.time = Some (VStr event_time)
    /\ r Col.title = Some (VStr event_title) /\ Str.strip event_title = event_title
    /\ r Col.short_url = Some (VStr event_short_url)
    /\ r Col.long_url = Some (VStr ("https://www.oxfordlieder.co.uk" +++ event_short_url))
    /\ r Col.description = Some (VStr (normalize_NFKC blurb))
    /\ r Col.artists = Some (VStr (Str.join Str.nl artist_list))
    /\ Forall (fun artist => Str.strip artist = artist) artist_list
    /\ r Col.categories = Some (VStr (Str.join Str.nl category_list))
    /\ r Col.interested = Some (VInt 0).
Proof.
  unfold event_record_of.
  destruct (get_event_date_and_time decode event) as [[d t]|e]; [|discriminate].
  cbn [bind].
  destruct (get_event_title_and_urls event) as [[[ti su] lu]|e] eqn:Et; [|discriminate].
  cbn [bind].
  destruct (get_event_description_blurb decode normalize_NFKC event) as [b|e] eqn:Eb;
    [|discriminate].
  cbn [bind].
  destruct (get_event_venue event) as [v|e]; [|discriminate].
  cbn [bind].
  destruct (get_event_artist_list event) as [al|e] eqn:Ea; [|discriminate].
  cbn [bind].
  destruct (get_event_categories unquote event) as [cl|e]; [|discriminate].
  cbn [bind].
  intros H. inversion H; subst. clear H.
  assert (Hb : exists blurb, b = normalize_NFKC blurb).
  { unfold get_event_description_blurb in Eb.
    destruct (getitem_last (find_all "p" event)) as [p|]; [|discriminate].
    cbn [bind] in Eb. destruct (next_sibling p) as [[s|nm at_ cs]|]; [| |discriminate].
    - inversion Eb. eauto.
    - destruct (find "strip" _); [|discriminate]. inversion Eb. eauto. }
  destruct Hb as [blurb ->].
  unfold get_event_title_and_urls in Et.
  destruct (find "h4" event) as [h4|]; [|discriminate].
  destruct (find "a" h4) as [a|]; [|discriminate].
  destruct (getitem_attr "href" a) as [href|]; [|discriminate].
  cbn [bind] in Et. inversion Et; subst. clear Et.
  unfold get_event_artist_list in Ea.
  destruct (find_class "ul" "artistlist" event) as [ul|]; [|discriminate].
  inversion Ea; subst. clear Ea.
  exists d, t, (Str.strip (text h4)), su, blurb,
    (map (fun artist => Str.strip (text artist)) (find_all "li" ul)), cl.
  repeat split; try reflexivity.
  - apply strip_idempotent.
  - apply Forall_forall. intros x Hx. apply in_map_iff in Hx as [y [<- _]].
    apply strip_idempotent.
Qed.

(** X15.  [extract_event_metadata] stops at the first block that cannot be
    read: it raises the error of that block, and returns no record of the
    blocks before it. *)
Theorem extract_event_metadata_stops_at_first_error
  (before after : list Tag) (event : Tag) (e : exn) :
  Forall (fun ev => exists r, event_record_of decode normalize_NFKC unquote ev = Ok r) before ->
  event_record_of decode normalize_NFKC unquote event = Raise e ->
  extract_event_metadata decode normalize_NFKC unquote (before ++ event :: after) = Raise e.
Proof.
  intros Hb He. unfold extract_event_metadata. generalize (@nil event_record).
  induction Hb as [|ev before [r Hr] _ IH]; intros acc; cbn [app event_loop].
  - now rewrite He.
  - rewrite Hr. cbn [bind]. apply IH.
Qed.

End GetterFacts.

(** ** The export frame *)

Lemma replace_newline_lacks (new s : string) :
  lacks Str.newline new = true ->
  lacks Str.newline (Str.replace Str.nl new s) = true.
Proof.
  intros Hn. unfold Str.replace. induction s as [|c s IH]; [reflexivity|].
  cbn [Str.replace_from].
  change (Str.startswith Str.nl (String c s))
    with (if ascii_dec Str.newline c then String.prefix EmptyString s else false).
  change (String.length Str.nl - 1) with 0.
  destruct (ascii_dec Str.newline c) as [<-|Hc].
  - replace (String.prefix EmptyString s) with true by (now destruct s).
    unfold lacks in *. rewrite all_chars_app, Hn. exact IH.
  - unfold lacks in *. cbn [all_chars]. rewrite IH, andb_true_r.
    apply negb_true_iff. apply Ascii.eqb_neq. congruence.
Qed.

Lemma apply_replace_newlines (column column' : list cell) :
  Frame.apply replace_newlines column = Ok column' <-> Forall2 with_breaks column column'.
Proof.
  unfold Frame.apply. split.
  - intros H. apply comprehension_Forall2 in H.
    induction H as [|c c' l l' H _ IH]; constructor; [|exact IH].
    destruct c; try discriminate. inversion H. now exists s.
  - induction 1 as [|c c' l l' (s & -> & ->) _ IH]; cbn [comprehension]; [reflexivity|].
    cbn [replace_newlines bind]. now rewrite IH.
Qed.

Lemma apply_replace_newlines_text (column : list cell) :
  forallb is_text column = true <-> exists column', Frame.apply replace_newlines column = Ok column'.
Proof.
  unfold Frame.apply. induction column as [|c l IH]; cbn [forallb comprehension].
  - split; [now exists [] | reflexivity].
  - destruct c; cbn [is_text replace_newlines bind andb];
      try (split; [discriminate | intros [? H]; discriminate]).
    rewrite IH. split.
    + intros [l' ->]. cbn [bind]. eauto.
    + destruct (comprehension replace_newlines l) as [l'|e]; [eauto|].
      intros [? H]. discriminate.
Qed.

Lemma html_field_ok (df df' : frame) (field_name : string) :
  html_field df field_name = Ok df' <->
  exists column column',
    Dict.get field_name (column_data df) = Some column
    /\ Forall2 with_breaks column column'
    /\ df' = Frame.setitem field_name column' df.
Proof.
  unfold html_field, Frame.getitem, Dict.getitem.
  destruct (Dict.get field_name (column_data df)) as [column|]; cbn [bind].
  - destruct (Frame.apply replace_newlines column) as [column'|e] eqn:E; cbn [bind].
    + apply apply_replace_newlines in E. split.
      * intros H. inversion H. eauto.
      * intros (c & c' & Hc & HF & ->). inversion Hc; subst c.
        apply apply_replace_newlines in HF. apply apply_replace_newlines in E.
        rewrite E in HF. now inversion HF.
    + split; [discriminate|]. intros (c & c' & Hc & HF & _). inversion Hc; subst c.
      apply apply_replace_newlines in HF. rewrite E in HF. discriminate.
  - split; [discriminate|]. intros (c & c' & Hc & _). discriminate.
Qed.

Lemma get_filter_other {V : Type} (k name : string) (d : Dict.t V) :
  Dict.get name (filter (fun kv => negb (String.eqb (fst kv) k)) d)
  = if String.eqb name k then None else Dict.get name d.
Proof.
  unfold Dict.get. induction d as [|[k0 v0] d IH]; cbn [filter assoc fst].
  - now destruct (String.eqb name k).
  - destruct (String.eqb_spec k0 k) as [->|Hk]; cbn [negb assoc].
    + rewrite IH. destruct (String.eqb_spec name k) as [->|Hn]; [reflexivity|].
      now destruct (String.eqb_spec name k).
    + rewrite IH. destruct (String.eqb_spec name k0) as [->|Hn]; [|reflexivity].
      destruct (String.eqb_spec k0 k); [contradiction | reflexivity].
Qed.

Lemma keys_filter {V : Type} (p : string -> bool) (d : Dict.t V) :
  Dict.keys (filter (fun kv => p (fst kv)) d) = filter p (Dict.keys d).
Proof.
  unfold Dict.keys. induction d as [|[k0 v0] d IH]; cbn [filter map fst]; [reflexivity|].
  destruct (p k0); cbn [map fst]; now rewrite IH.
Qed.

Lemma contains_get {V : Type} (k : string) (d : Dict.t V) :
  Dict.contains k d = true <-> exists v, Dict.get k d = Some v.
Proof.
  unfold Dict.contains. destruct (Dict.get k d); split; eauto; try discriminate.
  intros [v H]. discriminate.
Qed.

(** What the three rewrites and the drop make of a frame. *)
Lemma generate_event_html_df_ok (df html_df : frame) :
  generate_event_html_df df = Ok html_df <->
  exists a a' c c' d d',
    Dict.get "artists" (column_data df) = Some a /\ Forall2 with_breaks a a'
    /\ Dict.get "categories" (column_data df) = Some c /\ Forall2 with_breaks c c'
    /\ Dict.get "description" (column_data df) = Some d /\ Forall2 with_breaks d d'
    /\ Dict.contains "interested" (column_data df) = true
    /\ html_df =
       {| num_rows := num_rows df;
          column_data :=
            filter (fun kv => negb (String.eqb (fst kv) "interested"))
              (Dict.setitem "description" d'
                 (Dict.setitem "categories" c'
                    (Dict.setitem "artists" a' (column_data df)))) |}.
Proof.
  unfold generate_event_html_df. cbn [html_fields]. split.
  - destruct (html_field df "artists") as [df1|] eqn:E1; [|discriminate]. cbn [bind].
    destruct (html_field df1 "categories") as [df2|] eqn:E2; [|discriminate]. cbn [bind].
    destruct (html_field df2 "description") as [df3|] eqn:E3; [|discriminate]. cbn [bind].
    apply html_field_ok in E1 as (a & a' & Ha & Fa & ->).
    apply html_field_ok in E2 as (c & c' & Hc & Fc & ->).
    apply html_field_ok in E3 as (d & d' & Hd & Fd & ->).
    cbn [Frame.setitem column_data num_rows] in *.
    rewrite !get_setitem in Hd. cbn [String.eqb Ascii.eqb Bool.eqb] in Hd.
    rewrite get_setitem in Hc. cbn [String.eqb Ascii.eqb Bool.eqb] in Hc.
    unfold Frame.drop. cbn [Frame.setitem column_data num_rows].
    destruct (Dict.contains "interested" _) eqn:Ei; [|discriminate].
    intros H. inversion H. exists a, a', c, c', d, d'.
    repeat (split; [assumption|]). split; [|reflexivity].
    apply contains_get in Ei as [v Hv]. apply contains_get. exists v.
    rewrite !get_setitem in Hv. exact Hv.
  - intros (a & a' & c & c' & d & d' & Ha & Fa & Hc & Fc & Hd & Fd & Hi & ->).
    assert (E1 : html_field df "artists" = Ok (Frame.setitem "artists" a' df)).
    { apply html_field_ok. eauto. }
    rewrite E1. cbn [bind].
    assert (E2 : html_field (Frame.setitem "artists" a' df) "categories"
                 = Ok (Frame.setitem "categories" c' (Frame.setitem "artists" a' df))).
    { apply html_field_ok. exists c, c'. repeat split; [|assumption].
      cbn [Frame.setitem column_data]. rewrite get_setitem. exact Hc. }
    rewrite E2. cbn [bind].
    assert (E3 : html_field (Frame.setitem "categories" c' (Frame.setitem "artists" a' df))
                   "description"
                 = Ok (Frame.setitem "description" d'
                         (Frame.setitem "categories" c' (Frame.setitem "artists" a' df)))).
    { apply html_field_ok. exists d, d'. repeat split; [|assumption].
      cbn [Frame.setitem column_data]. rewrite !get_setitem. exact Hd. }
    rewrite E3. cbn [bind]. unfold Frame.drop. cbn [Frame.setitem column_data num_rows].
    replace (Dict.contains "interested" _) with true; [reflexivity|].
    symmetry. apply contains_get in Hi as [v Hv]. apply contains_get. exists v.
    rewrite !get_setitem. exact Hv.
Qed.

(** X16.  [generate_event_html_df] returns a frame exactly when the frame it
    is given has the column [interested] and the columns [artists],
    [categories] and [description], those three holding text in every
    row. *)
Theorem generate_event_html_df_succeeds_iff (df : frame) :
  (exists html_df, generate_event_html_df df = Ok html_df) <->
  (Dict.contains "interested" (column_data df) = true
   /\ forall field_name, In field_name ["artists"; "categories"; "description"] ->
        exists column, Dict.get field_name (column_data df) = Some column
                       /\ forallb is_text column = true).
Proof.
  split.
  - intros [html_df H].
    apply generate_event_html_df_ok in H
      as (a & a' & c & c' & d & d' & Ha & Fa & Hc & Fc & Hd & Fd & Hi & _).
    split; [exact Hi|]. intros f [<-|[<-|[<-|[]]]]; eexists; (split; [eassumption|]);
      apply apply_replace_newlines_text; eexists; apply apply_replace_newlines; eassumption.
  - intros [Hi H].
    destruct (H "artists") as (a & Ha & Ta); [cbn; tauto|].
    destruct (H "categories") as (c & Hc & Tc); [cbn; tauto|].
    destruct (H "description") as (d & Hd & Td); [cbn; tauto|].
    apply apply_replace_newlines_text in Ta as [a' Fa], Tc as [c' Fc], Td as [d' Fd].
    apply apply_replace_newlines in Fa, Fc, Fd.
    eexists. apply generate_event_html_df_ok. exists a, a', c, c', d, d'.
    repeat (split; [eassumption|]). reflexivity.
Qed.

(** X17.  The frame for the page has the rows of the frame it is made
    from, and its columns in their order without [interested]; the cells
    of [artists], [categories] and [description] have their line breaks
    replaced, and every other column is unchanged. *)
Theorem generate_event_html_df_keeps_the_rest (df html_df : frame) :
  generate_event_html_df df = Ok html_df ->
  num_rows html_df = num_rows df
  /\ Frame.columns html_df
     = filter (fun name => negb (String.eqb name "interested")) (Frame.columns df)
  /\ Dict.get "interested" (column_data html_df) = None
  /\ (forall name, ~ In name ["artists"; "categories"; "description"; "interested"] ->
        Dict.get name (column_data html_df) = Dict.get name (column_data df))
  /\ (forall name, In name ["artists"; "categories"; "description"] ->
        exists column column',
          Dict.get name (column_data df) = Some column
          /\ Dict.get name (column_data html_df) = Some column'
          /\ Forall2 with_breaks column column').
Proof.
  intros H. apply generate_event_html_df_ok in H
    as (a & a' & c & c' & d & d' & Ha & Fa & Hc & Fc & Hd & Fd & Hi & ->).
  cbn [num_rows column_data]. unfold Frame.columns. cbn [column_data].
  split; [reflexivity|]. split.
  { rewrite (keys_filter (fun name => negb (String.eqb name "interested"))).
    rewrite !keys_setitem.
    assert (Ca : Dict.contains "artists" (column_data df) = true)
      by (apply contains_get; eauto).
    rewrite Ca.
    assert (Cc : Dict.contains "categories" (Dict.setitem "artists" a' (column_data df)) = true).
    { apply contains_get. rewrite get_setitem. eauto. }
    rewrite Cc.
    assert (Cd : Dict.contains "description"
                   (Dict.setitem "categories" c'
                      (Dict.setitem "artists" a' (column_data df))) = true).
    { apply contains_get. rewrite !get_setitem. eauto. }
    rewrite Cd. reflexivity. }
  split; [now rewrite get_filter_other|]. split.
  - intros name Hn. rewrite get_filter_other, !get_setitem.
    cbn [In] in Hn.
    destruct (String.eqb_spec name "interested"); [exfalso; intuition congruence|].
    destruct (String.eqb_spec name "description"); [exfalso; intuition congruence|].
    destruct (String.eqb_spec name "categories"); [exfalso; intuition congruence|].
    destruct (String.eqb_spec name "artists"); [exfalso; intuition congruence|].
    reflexivity.
  - intros name [<-|[<-|[<-|[]]]]; rewrite get_filter_other, !get_setitem;
      cbn [String.eqb Ascii.eqb Bool.eqb]; eauto.
Qed.

(** X18.  No cell of [artists], [categories] or [description] in the frame
    for the page holds a line break character. *)
Theorem html_cells_hold_no_line_break (df html_df : frame) (name : string)
  (column : list cell) :
  generate_event_html_df df = Ok html_df ->
  In name ["artists"; "categories"; "description"] ->
  Dict.get name (column_data html_df) = Some column ->
  Forall (fun c => exists s, c = CStr s /\ lacks Str.newline s = true) column.
Proof.
  intros H Hn Hc. apply generate_event_html_df_ok in H
    as (a & a' & c & c' & d & d' & Ha & Fa & Hc0 & Fc & Hd & Fd & Hi & ->).
  cbn [column_data] in Hc. rewrite get_filter_other, !get_setitem in Hc.
  assert (F : exists column0, Forall2 with_breaks column0 column).
  { destruct Hn as [<-|[<-|[<-|[]]]]; cbn [String.eqb Ascii.eqb Bool.eqb] in Hc;
      inversion Hc; subst; eauto. }
  destruct F as [column0 F]. clear - F.
  induction F as [|c c' l l' (s & -> & ->) _ IH]; constructor; [|exact IH].
  eexists. split; [reflexivity|]. now apply replace_newline_lacks.
Qed.

Lemma comprehension_map {A B : Type} (g : A -> B) (l : list A) :
  comprehension (fun x => Ok (g x)) l = Ok (map g l).
Proof.
  induction l as [|x l IH]; cbn [comprehension map bind]; [reflexivity|].
  now rewrite IH.
Qed.

Lemma label_frame_of_merged (merged : list merged_row) :
  exists df,
    label_merged_df (frame_of_merged merged) = Ok df
    /\ num_rows df = length merged
    /\ Frame.columns df = EXPORT_COLUMNS
    /\ Dict.get "is_streaming" (column_data df)
       = Some (map (fun r => CInt (streaming_number r)) merged)
    /\ Dict.get "artists" (column_data df)
       = Some (map (fun r => value_cell (event_part r Col.artists)) merged)
    /\ Dict.get "categories" (column_data df)
       = Some (map (fun r => value_cell (event_part r Col.categories)) merged)
    /\ Dict.get "description" (column_data df)
       = Some (map (fun r => value_cell (event_part r Col.description)) merged)
    /\ Dict.contains "interested" (column_data df) = true.
Proof.
  unfold label_merged_df, Frame.getitem, Frame.apply.
  cbn [frame_of_merged column_data Dict.getitem Dict.get assoc String.eqb Ascii.eqb Bool.eqb bind].
  rewrite comprehension_map. cbn [bind]. eexists. split; [reflexivity|].
  cbn. repeat split; try reflexivity.
  f_equal. rewrite map_map. apply map_ext. intros r. unfold streaming_number.
  destruct (is_streaming (ticket_part r)) as [[|]|]; reflexivity.
Qed.

(** ** The run of [main] *)

Lemma html_df_of_text_columns (df : frame) (a c d : list cell) :
  Dict.get "artists" (column_data df) = Some a -> forallb is_text a = true ->
  Dict.get "categories" (column_data df) = Some c -> forallb is_text c = true ->
  Dict.get "description" (column_data df) = Some d -> forallb is_text d = true ->
  Dict.contains "interested" (column_data df) = true ->
  exists html_df, generate_event_html_df df = Ok html_df.
Proof.
  intros Ha Ta Hc Tc Hd Td Hi.
  apply apply_replace_newlines_text in Ta as [a' Fa], Tc as [c' Fc], Td as [d' Fd].
  apply apply_replace_newlines in Fa, Fc, Fd.
  eexists. apply generate_event_html_df_ok. exists a, a', c, c', d, d'.
  repeat (split; [eassumption|]). reflexivity.
Qed.

Lemma text_column_cells (merged : list merged_row) (c : Col.t) :
  In c [Col.artists; Col.categories; Col.description] ->
  Forall (fun m => text_columns (event_part m)) merged ->
  forallb is_text (map (fun r => value_cell (event_part r c)) merged) = true.
Proof.
  intros Hc. induction 1 as [|m merged Hm _ IH]; cbn [map forallb]; [reflexivity|].
  destruct (Hm c Hc) as [s ->]. cbn [value_cell is_text andb]. exact IH.
Qed.

Lemma html_df_of_merged (merged : list merged_row) (df : frame) :
  Forall (fun m => text_columns (event_part m)) merged ->
  label_merged_df (frame_of_merged merged) = Ok df ->
  exists html_df, generate_event_html_df df = Ok html_df.
Proof.
  intros Ht H.
  destruct (label_frame_of_merged merged) as (df' & H' & _ & _ & _ & Ha & Hc & Hd & Hi).
  rewrite H in H'. inversion H'; subst df'.
  eapply html_df_of_text_columns; try eassumption;
    apply text_column_cells; cbn [In]; auto.
Qed.

Lemma export_files_of_html_df (w : world) (df html_df : frame) :
  generate_event_html_df df = Ok html_df ->
  exists log,
    export_files w df = (log, Ok tt)
    /\ printed_lines log = Exporter.export (system w) (num_rows df) (length (Frame.columns df))
    /\ written_files log
       = match Exporter.write_error (system w) "oxford_lieder-2021-ticket_list.csv" with
         | Some _ => []
         | None =>
             "oxford_lieder-2021-ticket_list.csv"
             :: match Exporter.write_error (system w) "oxford_lieder-2021-ticket_list.html" with
                | Some _ => []
                | None => ["oxford_lieder-2021-ticket_list.html"]
                end
         end.
Proof.
  intros H. unfold export_files, Exporter.export, Exporter.try_suite, Frame.shape.
  change (Exporter.EXPORT_FILE_BASE +++ ".csv") with "oxford_lieder-2021-ticket_list.csv".
  change (Exporter.EXPORT_FILE_BASE +++ ".html") with "oxford_lieder-2021-ticket_list.html".
  rewrite H.
  destruct (Exporter.write_error (system w) "oxford_lieder-2021-ticket_list.csv").
  - eexists. repeat split.
  - destruct (Exporter.write_error (system w) "oxford_lieder-2021-ticket_list.html");
      eexists; repeat split.
Qed.

Section RunFacts.

Variable decode : node -> string.
Variable normalize_NFKC : string -> string.
Variable unquote : string -> string.
Variable sort_values : list event_record -> list event_record.

Hypothesis sort_values_permutation : forall records, Permutation (sort_values records) records.

Lemma event_record_of_text (event : Tag) (r : event_record) :
  event_record_of decode normalize_NFKC unquote event = Ok r -> text_columns r.
Proof.
  unfold event_record_of.
  destruct (get_event_date_and_time decode event) as [[d t]|e]; [|discriminate].
  cbn [bind].
  destruct (get_event_title_and_urls event) as [[[ti su] lu]|e]; [|discriminate].
  cbn [bind].
  destruct (get_event_description_blurb decode normalize_NFKC event) as [b|e]; [|discriminate].
  cbn [bind].
  destruct (get_event_venue event) as [v|e]; [|discriminate].
  cbn [bind].
  destruct (get_event_artist_list event) as [al|e]; [|discriminate].
  cbn [bind].
  destruct (get_event_categories unquote event) as [cl|e]; [|discriminate].
  cbn [bind].
  intros H. inversion H; subst. intros c [<-|[<-|[<-|[]]]]; eexists; reflexivity.
Qed.

Lemma extracted_records_text (event_list : list Tag) (records : list event_record) :
  extract_event_metadata decode normalize_NFKC unquote event_list = Ok records ->
  Forall text_columns records.
Proof.
  unfold extract_event_metadata. rewrite event_loop_comprehension.
  destruct (comprehension _ event_list) as [rs|e] eqn:E; [|discriminate].
  cbn [bind app]. intros H. inversion H; subst records. clear H.
  apply comprehension_Forall2 in E.
  induction E as [|ev r evs rs0 Hr _ IH].
  - constructor.
  - constructor; [exact (event_record_of_text _ _ Hr) | exact IH].
Qed.

Lemma merged_event_parts (event_df : list event_record) (ticket_df : list ticket_row)
  (m : merged_row) :
  In m (pd_merge_inner event_df ticket_df) -> In (event_part m) event_df.
Proof.
  unfold pd_merge_inner. intros H. apply in_map_iff in H as [p [<- Hp]].
  apply In_join_pairs in Hp as (He & _ & _). cbn [merge_pair event_part].
  exact (nth_error_In _ _ He).
Qed.

Lemma merged_df_text (records event_df : list event_record) (d : Dict.t ticket_lists)
  (merged : list merged_row) :
  Forall text_columns records -> event_df_of sort_values records = Ok event_df ->
  merged_df event_df d = Ok merged ->
  Forall (fun m => text_columns (event_part m)) merged.
Proof.
  intros Ht He Hm. unfold event_df_of in He.
  destruct records as [|r0 records0] eqn:Er; [discriminate|]. rewrite <- Er in *.
  inversion He; subst event_df. unfold merged_df in Hm.
  destruct (ticket_df_of d) as [ticket_df|]; [|discriminate]. cbn [bind] in Hm.
  destruct d; [discriminate|]. inversion Hm; subst merged.
  apply Forall_forall. intros m Hin. apply merged_event_parts in Hin.
  rewrite Forall_forall in Ht. apply Ht.
  exact (Permutation_in _ (sort_values_permutation records) Hin).
Qed.

Lemma load_html_writes_nothing (w : world) (html_file : string) :
  written_files (fst (load_html w html_file)) = [].
Proof.
  unfold load_html. destruct (read_html w html_file) as [soup|[]]; reflexivity.
Qed.

Lemma written_files_app (a b : list effect) :
  written_files (a ++ b) = written_files a ++ written_files b.
Proof. unfold written_files. apply flat_map_app. Qed.

(** A raise of [k] after [m] wrote nothing. *)
Lemma io_bind_raise {A B : Type} (m : io A) (k : A -> io B) (log : list effect) (e : exn) :
  written_files (fst m) = [] ->
  (forall a, snd m = Ok a -> snd (k a) = Raise e -> written_files (fst (k a)) = []) ->
  io_bind m k = (log, Raise e) -> written_files log = [].
Proof.
  intros Hm Hk. unfold io_bind. destruct (snd m) as [a|e0] eqn:E.
  - intros H. inversion H. rewrite written_files_app, Hm. cbn [app].
    apply (Hk a eq_refl). assumption.
  - intros H. inversion H. exact Hm.
Qed.

Lemma io_bind_raises {A B : Type} (m : io A) (k : A -> io B) (e : exn) :
  written_files (fst m) = [] ->
  (forall a, snd m = Ok a -> snd (k a) = Raise e -> written_files (fst (k a)) = []) ->
  snd (io_bind m k) = Raise e -> written_files (fst (io_bind m k)) = [].
Proof.
  intros Hm Hk H. apply (io_bind_raise m k (fst (io_bind m k)) e Hm Hk).
  rewrite <- H. now destruct (io_bind m k).
Qed.

(** X25.  A run of [main] that ends in an exception has written no file:
    every error of loading, extracting and merging comes before the
    export, and on the frame [main] builds from extracted records the frame
    for the page can always be made. *)
Theorem main_raises_before_writing (w : world) (log : list effect) (e : exn) :
  main decode normalize_NFKC unquote sort_values w = (log, Raise e) ->
  written_files log = [].
Proof.
  unfold main. apply io_bind_raise; [apply load_html_writes_nothing|].
  intros event_soup _. apply io_bind_raises; [reflexivity|].
  intros event_list _. apply io_bind_raises; [apply load_html_writes_nothing|].
  intros ticket_soup _. apply io_bind_raises; [reflexivity|].
  intros ticket_detail_list _. apply io_bind_raises; [reflexivity|].
  intros records Hr. apply io_bind_raises; [reflexivity|].
  intros event_df He. apply io_bind_raises; [reflexivity|].
  intros ticket_details _. apply io_bind_raises; [reflexivity|].
  intros merged Hm. apply io_bind_raises; [reflexivity|].
  intros df Hdf Hraise. exfalso.
  cbn [lift snd] in Hr, He, Hm, Hdf.
  pose proof (extracted_records_text _ _ Hr) as Ht.
  pose proof (merged_df_text _ _ _ _ Ht He Hm) as Htm.
  destruct (html_df_of_merged _ _ Htm Hdf) as [html_df Hh].
  destruct (export_files_of_html_df w _ _ Hh) as (log' & Hlog & _).
  rewrite Hlog in Hraise. discriminate.
Qed.

End RunFacts.

(** X19.  After the merge [main] holds a frame of the fourteen columns of
    the export in their order, the time column under its new name, one row
    for each merged row, and in [is_streaming] the number 1 or 0 of each
    flag (1 for the NaN of an empty group). *)
Theorem label_merged_df_schema (merged : list merged_row) :
  exists df,
    label_merged_df (frame_of_merged merged) = Ok df
    /\ Frame.columns df = EXPORT_COLUMNS
    /\ Frame.shape df = (length merged, 14)
    /\ Dict.get "is_streaming" (column_data df)
       = Some (map (fun r => CInt (streaming_number r)) merged).
Proof.
  destruct (label_frame_of_merged merged) as (df & H & Hn & Hc & Hs & _).
  exists df. unfold Frame.shape. rewrite Hn, Hc. repeat split; assumption.
Qed.

(** X20.  When the frame for the page can be built, the [try] statement
    returns normally, and prints the lines of [Exporter.export].  The CSV
    file is written whenever its own write succeeds, also when the write of
    the page fails afterwards; the page is written only when both writes
    succeed. *)
Theorem export_files_log (w : world) (df html_df : frame) :
  generate_event_html_df df = Ok html_df ->
  exists log,
    export_files w df = (log, Ok tt)
    /\ printed_lines log = Exporter.export (system w) (num_rows df) (length (Frame.columns df))
    /\ (In "oxford_lieder-2021-ticket_list.csv" (written_files log) <->
        Exporter.write_error (system w) "oxford_lieder-2021-ticket_list.csv" = None)
    /\ (In "oxford_lieder-2021-ticket_list.html" (written_files log) <->
        Exporter.write_error (system w) "oxford_lieder-2021-ticket_list.csv" = None
        /\ Exporter.write_error (system w) "oxford_lieder-2021-ticket_list.html" = None).
Proof.
  intros H. destruct (export_files_of_html_df w _ _ H) as (log & Hlog & Hp & Hw).
  exists log. split; [exact Hlog|]. split; [exact Hp|]. rewrite Hw.
  destruct (Exporter.write_error (system w) "oxford_lieder-2021-ticket_list.csv");
    [|destruct (Exporter.write_error (system w) "oxford_lieder-2021-ticket_list.html")];
    cbn [In]; split; split; try tauto; try discriminate;
    intros H'; repeat destruct H' as [H'|H']; try discriminate; try tauto;
    try (destruct H'; discriminate).
Qed.

(** X21.  An error in building the frame for the page is no [OSError]: it
    leaves the [try] statement uncaught, after the CSV file was written and
    with nothing printed. *)
Theorem export_files_leaves_the_csv (w : world) (df : frame) (e : exn) :
  Exporter.write_error (system w) "oxford_lieder-2021-ticket_list.csv" = None ->
  generate_event_html_df df = Raise e ->
  export_files w df = ([Written "oxford_lieder-2021-ticket_list.csv"], Raise e).
Proof.
  intros Hc H. unfold export_files, Frame.shape.
  change (Exporter.EXPORT_FILE_BASE +++ ".csv") with "oxford_lieder-2021-ticket_list.csv".
  rewrite Hc, H. reflexivity.
Qed.

Section RunCases.

Variable decode : node -> string.
Variable normalize_NFKC : string -> string.
Variable unquote : string -> string.
Variable sort_values : list event_record -> list event_record.

Hypothesis sort_values_permutation : forall records, Permutation (sort_values records) records.

(** X22.  When the event page cannot be opened, [main] prints the error of
    the operating system and then raises [AttributeError], without opening
    the ticket page; when the ticket page cannot be opened, it prints that
    error and raises [AttributeError] as well.  An error of loading that is
    no [OSError] is raised as it is. *)
Theorem main_without_a_page (w : world) (msg : string) :
  (read_html w "oxford_lieder_2021.html" = Raised (OSError msg) ->
   main decode normalize_NFKC unquote sort_values w
   = ([Opened "oxford_lieder_2021.html"; Printed msg], Raise AttributeError))
  /\ (forall event_soup,
        read_html w "oxford_lieder_2021.html" = Parsed event_soup ->
        read_html w "oxford_lieder_2021_ticket_prices.html" = Raised (OSError msg) ->
        main decode normalize_NFKC unquote sort_values w
        = ([Opened "oxford_lieder_2021.html"; Opened "oxford_lieder_2021_ticket_prices.html";
            Printed msg], Raise AttributeError))
  /\ (forall e,
        read_html w "oxford_lieder_2021.html" = Raised e ->
        (forall m, e <> OSError m) ->
        main decode normalize_NFKC unquote sort_values w
        = ([Opened "oxford_lieder_2021.html"], Raise e)).
Proof.
  unfold main, load_html. split; [|split].
  - intros ->. reflexivity.
  - intros event_soup -> ->. reflexivity.
  - intros e -> Hne. destruct e as [| |key| | | |m]; try reflexivity. now destruct (Hne m).
Qed.

(** X23.  On an event page without event blocks [main] raises
    [KeyError] for the sort column [title], before it reads a ticket row; on
    a ticket table without rows it raises [KeyError] for the missing ticket
    columns.  Nothing is printed or written in either case. *)
Theorem main_on_a_page_without_items (w : world) (event_soup ticket_soup : Tag)
  (rows : list Tag) :
  read_html w "oxford_lieder_2021.html" = Parsed event_soup ->
  read_html w "oxford_lieder_2021_ticket_prices.html" = Parsed ticket_soup ->
  extract_all_ticket_items ticket_soup = Ok rows ->
  (extract_all_event_items event_soup = [] ->
   main decode normalize_NFKC unquote sort_values w
   = ([Opened "oxford_lieder_2021.html"; Opened "oxford_lieder_2021_ticket_prices.html"],
      Raise (KeyError "title")))
  /\ (forall records,
        extract_event_metadata decode normalize_NFKC unquote (extract_all_event_items event_soup)
        = Ok records ->
        records <> [] -> rows = [] ->
        main decode normalize_NFKC unquote sort_values w
        = ([Opened "oxford_lieder_2021.html"; Opened "oxford_lieder_2021_ticket_prices.html"],
           Raise (KeyError
                    "['ticket_type', 'venue_type', 'is_streaming', 'ticket_price_gbp'] not in index"))).
Proof.
  intros He Ht Hrows. unfold main, load_html. rewrite He, Ht. split.
  - intros Hnone. unfold io_bind. cbn [emit lift fst snd app].
    rewrite Hrows. cbn [fst snd app]. rewrite Hnone. reflexivity.
  - intros records Hr Hne ->. unfold io_bind. cbn [emit lift fst snd app].
    rewrite Hrows. cbn [fst snd app]. rewrite Hr. cbn [fst snd app].
    destruct records as [|r records]; [contradiction|]. reflexivity.
Qed.

(** X24.  When both pages load, the events and the ticket rows are read,
    there is at least one of each, and both files can be written, [main]
    opens the two pages, writes the CSV file and then the page, and prints
    two lines with the number of merged rows and 14 columns. *)
Theorem main_exports_the_merged_rows (w : world) (event_soup ticket_soup : Tag)
  (rows : list Tag) (records : list event_record) (ticket_details : Dict.t ticket_lists) :
  read_html w "oxford_lieder_2021.html" = Parsed event_soup ->
  read_html w "oxford_lieder_2021_ticket_prices.html" = Parsed ticket_soup ->
  extract_all_ticket_items ticket_soup = Ok rows ->
  extract_event_metadata decode normalize_NFKC unquote (extract_all_event_items event_soup)
  = Ok records ->
  records <> [] ->
  extract_ticket_price_options rows = Ok ticket_details ->
  ticket_details <> Dict.empty ->
  Exporter.write_error (system w) "oxford_lieder-2021-ticket_list.csv" = None ->
  Exporter.write_error (system w) "oxford_lieder-2021-ticket_list.html" = None ->
  exists merged,
    merged_df (sort_values records) ticket_details = Ok merged
    /\ main decode normalize_NFKC unquote sort_values w
       = ([Opened "oxford_lieder_2021.html"; Opened "oxford_lieder_2021_ticket_prices.html";
           Written "oxford_lieder-2021-ticket_list.csv";
           Written "oxford_lieder-2021-ticket_list.html";
           Printed ("CSV export succeeded [" +++ Str.of_nat (length merged)
                    +++ " rows, 14 columns]: "
                    +++ Exporter.abspath (system w) "oxford_lieder-2021-ticket_list.csv");
           Printed ("HTML export succeeded [" +++ Str.of_nat (length merged)
                    +++ " rows, 14 columns]: "
                    +++ Exporter.abspath (system w) "oxford_lieder-2021-ticket_list.html")],
          Ok tt).
Proof.
  intros He Ht Hrows Hr Hne Hd Hdne Hcsv Hhtml.
  pose proof (extract_mapping _ _ Hd) as Hmap.
  pose proof (ticket_df_of_mapping _ Hmap) as Hdf.
  assert (Hm : merged_df (sort_values records) ticket_details
               = Ok (pd_merge_inner (sort_values records)
                       (flat_map (fun kv => exploded_group (fst kv) (snd kv)) ticket_details))).
  { unfold merged_df. rewrite Hdf. cbn [bind].
    destruct ticket_details; [contradiction | reflexivity]. }
  eexists. split; [exact Hm|].
  set (merged := pd_merge_inner _ _) in *.
  assert (Hedf : event_df_of sort_values records = Ok (sort_values records)).
  { destruct records; [contradiction | reflexivity]. }
  destruct (label_frame_of_merged merged) as (df & Hl & Hn & Hc & _).
  assert (Htext : Forall (fun m => text_columns (event_part m)) merged).
  { eapply (merged_df_text sort_values sort_values_permutation);
      try eassumption. exact (extracted_records_text _ _ _ _ _ Hr). }
  destruct (html_df_of_merged _ _ Htext Hl) as [html_df Hh].
  unfold main, load_html. rewrite He, Ht. unfold io_bind.
  cbn [emit lift fst snd app]. rewrite Hrows. cbn [fst snd app].
  rewrite Hr. cbn [fst snd app]. rewrite Hedf. cbn [fst snd app].
  rewrite Hd. cbn [fst snd app]. rewrite Hm. cbn [fst snd app].
  rewrite Hl. cbn [fst snd app].
  unfold export_files, Frame.shape. rewrite Hn, Hc.
  change (Exporter.EXPORT_FILE_BASE +++ ".csv") with "oxford_lieder-2021-ticket_list.csv".
  change (Exporter.EXPORT_FILE_BASE +++ ".html") with "oxford_lieder-2021-ticket_list.html".
  rewrite Hcsv, Hhtml, Hh. unfold io_bind. cbn [emit lift fst snd app Str.join].
  change (length EXPORT_COLUMNS) with 14. change (Str.of_nat 14) with "14".
  rewrite ?append_assoc. reflexivity.
Qed.

End RunCases.

(** ** From the pages to the merged rows *)

Lemma ticket_step_keys (st st' : ticket_state) (row : Tag) :
  (forall key g, In (key, g) (fst st) -> Str.startswith "/event" key = true) ->
  ticket_step st row = Ok st' ->
  forall key g, In (key, g) (fst st') -> Str.startswith "/event" key = true.
Proof.
  destruct st as [d last]. cbn [fst]. intros Hd. unfold ticket_step.
  destruct (row_ticket_data row) as [td|e]; [|discriminate]. cbn [bind].
  destruct (select_one_a_href_prefix "/event" row) as [a|] eqn:Ea.
  - destruct (select_one_href _ _ _ Ea) as [h [Hh Hs]].
    unfold getitem_attr. rewrite Hh. cbn [bind].
    destruct (Dict.contains h d); cbn [negb].
    + intros H. inversion H; subst. exact Hd.
    + intros H. inversion H; subst. cbn [fst]. intros key g Hin.
      apply In_setitem in Hin as [[-> _]|Hin]; [exact Hs | exact (Hd _ _ Hin)].
  - unfold Dict.getitem. destruct (Dict.get last d) as [g0|] eqn:Eg; [|discriminate].
    cbn [bind]. intros H. inversion H; subst. cbn [fst]. intros key g Hin.
    apply In_setitem in Hin as [[-> _]|Hin]; [|exact (Hd _ _ Hin)].
    apply get_In in Eg. exact (Hd _ _ Eg).
Qed.

Lemma ticket_loop_keys (rows : list Tag) (st st' : ticket_state) :
  (forall key g, In (key, g) (fst st) -> Str.startswith "/event" key = true) ->
  ticket_loop rows st = Ok st' ->
  forall key g, In (key, g) (fst st') -> Str.startswith "/event" key = true.
Proof.
  revert st. induction rows as [|row rows IH]; intros st Hd; cbn [ticket_loop].
  - intros H. now inversion H; subst.
  - destruct (ticket_step st row) as [st1|e] eqn:E; [|discriminate]. cbn [bind].
    apply IH. exact (ticket_step_keys _ _ _ Hd E).
Qed.

Lemma options_of_complete (g : ticket_lists) (i : nat) :
  aligned g -> flags_derived g -> i < length (ticket_price_gbp g) ->
  exists ttype vtype price,
    options_of g i
    = {| ticket_type := Some ttype; venue_type := Some vtype;
         is_streaming := Some (return_if_venue_has_streaming vtype);
         ticket_price_gbp := Some price |}.
Proof.
  destruct g as [types venues streams prices]. unfold aligned, flags_derived, options_of.
  cbn [ticket_type venue_type is_streaming ticket_price_gbp].
  intros (H1 & H2 & H3 & _) -> Hi.
  destruct (nth_error types i) as [ttype|] eqn:E1;
    [|apply nth_error_None in E1; lia].
  destruct (nth_error venues i) as [vtype|] eqn:E2;
    [|apply nth_error_None in E2; lia].
  destruct (nth_error prices i) as [price|] eqn:E4;
    [|apply nth_error_None in E4; lia].
  exists ttype, vtype, price. rewrite nth_error_map, E2. reflexivity.
Qed.

(** X26.  Every row of the merged frame is complete: its event is a row of
    the event frame, its key is a key of the ticket mapping and starts with
    "/event", none of its ticket cells is empty, and its streaming flag is
    the flag of its venue type. *)
Theorem merged_rows_are_complete (rows : list Tag) (d : Dict.t ticket_lists)
  (event_df : list event_record) (merged : list merged_row) :
  extract_ticket_price_options rows = Ok d ->
  merged_df event_df d = Ok merged ->
  Forall (complete_row event_df d) merged.
Proof.
  intros Hd Hm.
  pose proof (extract_mapping _ _ Hd) as Hmap.
  destruct (extract_state _ _ Hd) as [last Hloop].
  assert (Hflags : forall key g, In (key, g) d -> flags_derived g).
  { exact (ticket_loop_flags rows (Dict.empty, EmptyString) (d, last)
             (fun _ _ (H : In _ []) => match H with end) Hloop). }
  assert (Hkeys : forall key g, In (key, g) d -> Str.startswith "/event" key = true).
  { exact (ticket_loop_keys rows (Dict.empty, EmptyString) (d, last)
             (fun _ _ (H : In _ []) => match H with end) Hloop). }
  unfold merged_df in Hm. rewrite (ticket_df_of_mapping _ Hmap) in Hm. cbn [bind] in Hm.
  destruct d as [|kv0 d0] eqn:Ed; [discriminate|]. rewrite <- Ed in *.
  inversion Hm; subst merged. clear Hm.
  apply Forall_forall. intros m Hin. unfold pd_merge_inner in Hin.
  apply in_map_iff in Hin as [p [<- Hp]].
  apply In_join_pairs in Hp as (He & Hr & Hk).
  apply nth_error_In in He, Hr.
  apply in_flat_map in Hr as [[key g] [Hkg Hr]]. cbn [fst snd] in Hr.
  unfold exploded_group in Hr. apply in_map_iff in Hr as [i [Hi Hseq]].
  apply in_seq in Hseq.
  destruct (options_of_complete g i) as (ttype & vtype & price & Ho);
    [exact (proj2 Hmap _ _ Hkg) | exact (Hflags _ _ Hkg) | lia |].
  unfold key_matches in Hk. rewrite <- Hi in Hk. cbn [fst] in Hk.
  destruct (snd (fst p) Col.short_url) as [[u| |]|] eqn:Eu; try discriminate.
  apply String.eqb_eq in Hk. subst u.
  exists key, ttype, vtype, price. unfold merge_pair. cbn [event_part ticket_part].
  rewrite <- Hi. cbn [snd]. repeat split; try assumption.
  - apply contains_keys. unfold Dict.keys. apply in_map_iff. now exists (key, g).
  - exact (Hkeys _ _ Hkg).
Qed.

Lemma merged_rows_are_complete_witness :
  exists merged,
    merged_df [Example.event_a] Example.mapping = Ok merged
    /\ Forall (complete_row [Example.event_a] Example.mapping) merged.
Proof.
  destruct (merged_df [Example.event_a] Example.mapping) as [merged|e] eqn:E;
    [|vm_compute in E; discriminate].
  exists merged. split; [reflexivity|].
  apply (merged_rows_are_complete Example.rows Example.mapping [Example.event_a] merged).
  - vm_compute. reflexivity.
  - exact E.
Defined.

(** ** The properties on the sample pages *)

Lemma row_ticket_data_reads_witness :
  row_ticket_data (Example.keyed_row "/event/1" Example.standard (Str.pound +++ "10.00"))
  = Ok {| ticket_type := "Standard";
          venue_type := "In-person & Streaming (Digital Concert Hall)";
          is_streaming := true; ticket_price_gbp := 10%Z |}.
Proof.
  refine (eq_trans
            (row_ticket_data_reads
               (Example.keyed_row "/event/1" Example.standard (Str.pound +++ "10.00"))
               _ _ "Standard" "In-person & Streaming (Digital Concert Hall)" EmptyString
               _ _ _ _ _) _).
  - reflexivity.
  - reflexivity.
  - reflexivity.
  - reflexivity.
  - left. reflexivity.
  - vm_compute. reflexivity.
Defined.

Lemma row_ticket_data_raises_witness :
  row_ticket_data Sample.short_row = Raise IndexError.
Proof.
  apply (proj1 (row_ticket_data_raises Sample.short_row)). cbn. lia.
Defined.

Lemma streaming_flags_follow_venue_types_witness :
  [true; false]
  = map return_if_venue_has_streaming
        ["In-person & Streaming (Digital Concert Hall)"; "In-person only"].
Proof.
  refine (streaming_flags_follow_venue_types Example.rows Example.mapping _ "/event/1"
            {| ticket_type := ["Standard"; "Under 35"];
               venue_type := ["In-person & Streaming (Digital Concert Hall)"; "In-person only"];
               is_streaming := [true; false];
               ticket_price_gbp := [10%Z; 5%Z] |} _).
  - vm_compute. reflexivity.
  - reflexivity.
Defined.

Lemma group_keys_in_page_order_witness :
  Dict.keys Example.mapping = first_appearances [] (keys_of_views Sample.views)
  /\ NoDup (Dict.keys Example.mapping)
  /\ Forall (fun key => Str.startswith "/event" key = true) (Dict.keys Example.mapping).
Proof.
  apply (group_keys_in_page_order Example.rows Sample.views Example.mapping).
  - vm_compute. reflexivity.
  - vm_compute. reflexivity.
Defined.

Lemma ticket_options_counted_witness :
  total_options Example.mapping = continuations Sample.views + length (Dict.keys Example.mapping)
  /\ exists ticket_df,
       ticket_df_of Example.mapping = Ok ticket_df
       /\ length ticket_df = total_options Example.mapping.
Proof.
  apply (ticket_options_counted Example.rows Sample.views Example.mapping).
  - vm_compute. reflexivity.
  - vm_compute. reflexivity.
Defined.

Lemma repeated_key_row_is_dropped_witness :
  extract_ticket_price_options
    (Example.rows ++ [Example.keyed_row "/event/1" Example.under_35 (Str.pound +++ "7")])
  = Ok Example.mapping
  /\ extract_ticket_price_options
       (Example.rows ++ [Example.keyed_row "/event/1" Example.under_35 (Str.pound +++ "7");
                         Example.continuation_row Example.under_35 (Str.pound +++ "5")])
     = Ok (Dict.setitem "/event/1"
             (append_row
                {| ticket_type := ["Standard"; "Under 35"];
                   venue_type := ["In-person & Streaming (Digital Concert Hall)";
                                  "In-person only"];
                   is_streaming := [true; false];
                   ticket_price_gbp := [10%Z; 5%Z] |}
                {| ticket_type := "Under 35"; venue_type := "In-person only";
                   is_streaming := false; ticket_price_gbp := 5%Z |})
             Example.mapping).
Proof.
  apply (repeated_key_row_is_dropped Example.rows
           (Example.keyed_row "/event/1" Example.under_35 (Str.pound +++ "7"))
           (Example.continuation_row Example.under_35 (Str.pound +++ "5"))
           Example.mapping "/event/1"
           {| ticket_type := ["Standard"; "Under 35"];
              venue_type := ["In-person & Streaming (Digital Concert Hall)"; "In-person only"];
              is_streaming := [true; false];
              ticket_price_gbp := [10%Z; 5%Z] |}
           {| ticket_type := "Under 35"; venue_type := "In-person only";
              is_streaming := false; ticket_price_gbp := 7%Z |}
           {| ticket_type := "Under 35"; venue_type := "In-person only";
              is_streaming := false; ticket_price_gbp := 5%Z |}).
  - vm_compute. reflexivity.
  - reflexivity.
  - vm_compute. reflexivity.
  - vm_compute. reflexivity.
Defined.

Lemma unreadable_row_raises_its_error_witness :
  extract_ticket_price_options
    (Example.rows ++ Sample.short_row :: [Example.continuation_row Example.under_35 "5"])
  = Raise IndexError.
Proof.
  apply (unreadable_row_raises_its_error Example.rows
           [Example.continuation_row Example.under_35 "5"] Sample.short_row
           Example.mapping IndexError).
  - vm_compute. reflexivity.
  - vm_compute. reflexivity.
Defined.

Lemma event_date_and_time_shape_witness :
  exists t,
    "2021-10-12" = Strptime.strftime_date t /\ "19:30" = Strptime.strftime_time t
    /\ 1 <= Strptime.year t < 10 * 1000 /\ 1 <= Strptime.month t <= 12
    /\ 1 <= Strptime.day t <= Strptime.days_in_month (Strptime.year t) (Strptime.month t)
    /\ Strptime.hour t <= 23 /\ Strptime.minute t <= 59
    /\ String.length "19:30" = 5
    /\ (1000 <= Strptime.year t -> String.length "2021-10-12" = 10).
Proof.
  apply (event_date_and_time_shape Example.no_tags Example.recital_a "2021-10-12" "19:30").
  vm_compute. reflexivity.
Defined.

Lemma event_date_and_time_of_written_witness :
  get_event_date_and_time Example.no_tags Example.recital_a
  = Ok (Strptime.strftime_date Sample.evening, Strptime.strftime_time Sample.evening).
Proof.
  refine (event_date_and_time_of_written Example.no_tags Example.recital_a _
            " 12 Oct 2021 19:30 " Sample.evening _ _ _ _ _ _ _ _).
  - reflexivity.
  - reflexivity.
  - vm_compute. reflexivity.
  - split; apply Nat.leb_le; vm_compute; reflexivity.
  - split; apply Nat.leb_le; vm_compute; reflexivity.
  - split; apply Nat.leb_le; vm_compute; reflexivity.
  - apply Nat.leb_le; vm_compute; reflexivity.
  - apply Nat.leb_le; vm_compute; reflexivity.
Defined.

Lemma event_date_and_time_errors_witness :
  get_event_date_and_time Example.no_tags Sample.no_icon = Raise AttributeError.
Proof.
  apply (proj1 (event_date_and_time_errors Example.no_tags Sample.no_icon)). reflexivity.
Defined.

Lemma event_venue_is_last_segment_witness :
  exists before seg,
    get_event_venue Example.recital_a = Ok (VStr (Str.strip seg))
    /\ " | Holywell Music Room " = before +++ seg
    /\ lacks "|" seg = true
    /\ (before = EmptyString \/ exists b, before = b +++ "|").
Proof.
  refine (event_venue_is_last_segment Example.recital_a _ " | Holywell Music Room " _ _).
  - reflexivity.
  - reflexivity.
Defined.

Lemma event_categories_read_witness :
  get_event_categories Example.plain Example.recital_a = Ok ["Evening concert"].
Proof.
  refine (event_categories_read Example.plain Example.recital_a ["Evening+concert"] _ _).
  - reflexivity.
  - repeat constructor. discriminate.
Defined.

Lemma event_categories_errors_witness :
  KeyError "href" = KeyError "href" \/ KeyError "href" = KeyError "?category".
Proof.
  apply (event_categories_errors Example.plain Sample.no_href (KeyError "href")).
  reflexivity.
Defined.

Lemma event_record_columns_witness :
  exists r event_date event_time event_title event_short_url blurb artist_list category_list,
    event_record_of Example.no_tags Example.plain Example.plain Example.recital_a = Ok r
    /\ get_event_date_and_time Example.no_tags Example.recital_a = Ok (event_date, event_time)
    /\ r Col.date = Some (VStr event_date) /\ r Col.time = Some (VStr event_time)
    /\ r Col.title = Some (VStr event_title) /\ Str.strip event_title = event_title
    /\ r Col.short_url = Some (VStr event_short_url)
    /\ r Col.long_url = Some (VStr ("https://www.oxfordlieder.co.uk" +++ event_short_url))
    /\ r Col.description = Some (VStr (Example.plain blurb))
    /\ r Col.artists = Some (VStr (Str.join Str.nl artist_list))
    /\ Forall (fun artist => Str.strip artist = artist) artist_list
    /\ r Col.categories = Some (VStr (Str.join Str.nl category_list))
    /\ r Col.interested = Some (VInt 0).
Proof.
  destruct (event_record_of Example.no_tags Example.plain Example.plain Example.recital_a)
    as [r|e] eqn:E; [|vm_compute in E; discriminate].
  destruct (event_record_columns Example.no_tags Example.plain Example.plain
              Example.recital_a r E)
    as (d & t & ti & su & b & al & cl & H).
  exists r, d, t, ti, su, b, al, cl. split; [reflexivity | exact H].
Defined.

Lemma extract_event_metadata_stops_at_first_error_witness :
  extract_event_metadata Example.no_tags Example.plain Example.plain
    ([Example.recital_a] ++ Sample.no_icon :: [Example.recital_a])
  = Raise AttributeError.
Proof.
  apply (extract_event_metadata_stops_at_first_error Example.no_tags Example.plain
           Example.plain [Example.recital_a] [Example.recital_a] Sample.no_icon AttributeError).
  - constructor; [|constructor]. eexists. reflexivity.
  - reflexivity.
Defined.

Lemma generate_event_html_df_keeps_the_rest_witness :
  exists html_df,
    generate_event_html_df Sample.one_row = Ok html_df
    /\ num_rows html_df = num_rows Sample.one_row
    /\ Frame.columns html_df
       = filter (fun name => negb (String.eqb name "interested"))
           (Frame.columns Sample.one_row)
    /\ Dict.get "interested" (column_data html_df) = None
    /\ (forall name, ~ In name ["artists"; "categories"; "description"; "interested"] ->
          Dict.get name (column_data html_df) = Dict.get name (column_data Sample.one_row))
    /\ (forall name, In name ["artists"; "categories"; "description"] ->
          exists column column',
            Dict.get name (column_data Sample.one_row) = Some column
            /\ Dict.get name (column_data html_df) = Some column'
            /\ Forall2 with_breaks column column').
Proof.
  destruct (generate_event_html_df Sample.one_row) as [html_df|e] eqn:E;
    [|vm_compute in E; discriminate].
  exists html_df. split; [reflexivity|].
  exact (generate_event_html_df_keeps_the_rest Sample.one_row html_df E).
Defined.

Lemma html_cells_hold_no_line_break_witness :
  exists html_df column,
    generate_event_html_df Sample.one_row = Ok html_df
    /\ Dict.get "artists" (column_data html_df) = Some column
    /\ Forall (fun c => exists s, c = CStr s /\ lacks Str.newline s = true) column.
Proof.
  eexists. eexists. split; [vm_compute; reflexivity|]. split; [reflexivity|].
  eapply (html_cells_hold_no_line_break Sample.one_row _ "artists").
  - vm_compute. reflexivity.
  - left. reflexivity.
  - reflexivity.
Defined.

Lemma export_files_log_witness :
  exists log,
    export_files Sample.no_pages Sample.one_row = (log, Ok tt)
    /\ printed_lines log
       = Exporter.export (system Sample.no_pages) (num_rows Sample.one_row)
           (length (Frame.columns Sample.one_row))
    /\ (In "oxford_lieder-2021-ticket_list.csv" (written_files log) <->
        Exporter.write_error (system Sample.no_pages) "oxford_lieder-2021-ticket_list.csv"
        = None)
    /\ (In "oxford_lieder-2021-ticket_list.html" (written_files log) <->
        Exporter.write_error (system Sample.no_pages) "oxford_lieder-2021-ticket_list.csv"
        = None
        /\ Exporter.write_error (system Sample.no_pages) "oxford_lieder-2021-ticket_list.html"
           = None).
Proof.
  eapply (export_files_log Sample.no_pages Sample.one_row).
  vm_compute. reflexivity.
Defined.

Lemma export_files_leaves_the_csv_witness :
  export_files Sample.no_pages Sample.no_columns
  = ([Written "oxford_lieder-2021-ticket_list.csv"], Raise (KeyError "artists")).
Proof.
  apply (export_files_leaves_the_csv Sample.no_pages Sample.no_columns (KeyError "artists")).
  - reflexivity.
  - reflexivity.
Defined.

Lemma main_without_a_page_witness :
  main Example.no_tags Example.plain Example.plain Sample.keep_order Sample.no_pages
  = ([Opened "oxford_lieder_2021.html";
      Printed "[Errno 2] No such file or directory: 'oxford_lieder_2021.html'"],
     Raise AttributeError).
Proof.
  apply (proj1 (main_without_a_page Example.no_tags Example.plain Example.plain
                  Sample.keep_order Sample.no_pages
                  "[Errno 2] No such file or directory: 'oxford_lieder_2021.html'")).
  reflexivity.
Defined.

Lemma main_on_a_page_without_items_witness :
  main Example.no_tags Example.plain Example.plain Sample.keep_order
    (Sample.both_pages Sample.empty_page Sample.ticket_page)
  = ([Opened "oxford_lieder_2021.html"; Opened "oxford_lieder_2021_ticket_prices.html"],
     Raise (KeyError "title")).
Proof.
  eapply (proj1 (main_on_a_page_without_items Example.no_tags Example.plain Example.plain
                   Sample.keep_order (Sample.both_pages Sample.empty_page Sample.ticket_page)
                   Sample.empty_page Sample.ticket_page _ _ _ _)).
  Unshelve.
  - reflexivity.
  - exact (find_all "tr" (root (Element "tbody" [] (map self Example.rows)))).
  - reflexivity.
  - reflexivity.
  - vm_compute. reflexivity.
Defined.

Lemma main_exports_the_merged_rows_witness :
  exists merged,
    merged_df (Sample.keep_order
                 [match event_record_of Example.no_tags Example.plain Example.plain
                          Example.recital_a with
                  | Ok r => r
                  | Raise _ => fromkeys
                  end])
      Example.mapping = Ok merged
    /\ main Example.no_tags Example.plain Example.plain Sample.keep_order
         (Sample.both_pages Sample.event_page Sample.ticket_page)
       = ([Opened "oxford_lieder_2021.html"; Opened "oxford_lieder_2021_ticket_prices.html";
           Written "oxford_lieder-2021-ticket_list.csv";
           Written "oxford_lieder-2021-ticket_list.html";
           Printed ("CSV export succeeded [" +++ Str.of_nat (length merged)
                    +++ " rows, 14 columns]: "
                    +++ Exporter.abspath Sample.writable "oxford_lieder-2021-ticket_list.csv");
           Printed ("HTML export succeeded [" +++ Str.of_nat (length merged)
                    +++ " rows, 14 columns]: "
                    +++ Exporter.abspath Sample.writable
                          "oxford_lieder-2021-ticket_list.html")],
          Ok tt).
Proof.
  refine (main_exports_the_merged_rows Example.no_tags Example.plain Example.plain
            Sample.keep_order _
            (Sample.both_pages Sample.event_page Sample.ticket_page)
            Sample.event_page Sample.ticket_page _ _ Example.mapping
            _ _ _ _ _ _ _ _ _).
  - intros records. apply Permutation_refl.
  - reflexivity.
  - reflexivity.
  - reflexivity.
  - vm_compute. reflexivity.
  - discriminate.
  - vm_compute. reflexivity.
  - discriminate.
  - reflexivity.
  - reflexivity.
Defined.

Lemma main_raises_before_writing_witness :
  written_files
    [Opened "oxford_lieder_2021.html";
     Printed "[Errno 2] No such file or directory: 'oxford_lieder_2021.html'"] = [].
Proof.
  apply (main_raises_before_writing Example.no_tags Example.plain Example.plain
           Sample.keep_order (fun records => Permutation_refl records) Sample.no_pages
           [Opened "oxford_lieder_2021.html";
            Printed "[Errno 2] No such file or directory: 'oxford_lieder_2021.html'"]
           AttributeError).
  reflexivity.
Defined.
